(** * The LLM assistant of medusa: generate, validate, repair

    A shallow embedding of package [llm_assistant]
    (fuzzing/llm_assistant): the path and name helpers of utils.go, the
    prompt templates of prompts.go and the harness orchestrator
    ([GenerateFuzzingHarness] and the functions it calls).

    Go strings are byte strings: they are [string] here, and the path
    helpers work on their bytes ([list ascii]).  The file system, the
    conversation history and the external collaborators (OpenAI, the
    crytic-compile process) are explicit: a state record, a log of calls
    and an environment of oracles. *)

From Stdlib Require Import Ascii String List Bool Arith Lia ZArith.
From stdpp Require Import base option list strings gmap.

Local Open Scope stdpp_scope.

(** ** Bytes *)

Definition isSep (c : ascii) : bool := Ascii.eqb c "/"%char.
Definition isDot (c : ascii) : bool := Ascii.eqb c "."%char.

Definition bytesOf (s : string) : list ascii := String.list_ascii_of_string s.
Definition stringOf (b : list ascii) : string := String.string_of_list_ascii b.

(** The double quote, for the string constants that contain one. *)
Definition dq : string := String (Ascii.ascii_of_nat 34) EmptyString.

(** The line feed, [\n] in a Go string. *)
Definition nl : string := String (Ascii.ascii_of_nat 10) EmptyString.

(** ** Package path/filepath and strings (Unix), as far as utils.go uses them *)

Module filepath.

(** [Split]: scan back from the end to the last separator; the
    directory keeps its final separator, the file has none.
    [r] is the unread prefix, reversed; [acc] is the suffix read so far. *)
Fixpoint splitScan (r acc : list ascii) : list ascii * list ascii :=
  match r with
  | [] => ([], acc)
  | c :: r' => if isSep c then (rev r, acc) else splitScan r' (c :: acc)
  end.

Definition Split (path : list ascii) : list ascii * list ascii :=
  splitScan (rev path) [].

(** [Ext]: the suffix beginning at the final dot in the final element of
    the path; empty if there is no dot.
    for i := len(path) - 1; i >= 0 && path[i] != '/'; i-- {
      if path[i] == '.' { return path[i:] } }; return "" *)
Fixpoint extScan (r acc : list ascii) : list ascii :=
  match r with
  | [] => []
  | c :: r' =>
      if isSep c then []
      else if isDot c then c :: acc
      else extScan r' (c :: acc)
  end.

Definition Ext (path : list ascii) : list ascii := extScan (rev path) [].

(** [strings.Split(s, "/")]: the elements between separators. *)
Fixpoint elements (s : list ascii) : list (list ascii) :=
  match s with
  | [] => [[]]
  | c :: s' =>
      if isSep c then [] :: elements s'
      else match elements s' with
           | [] => [[c]]
           | w :: ws => (c :: w) :: ws
           end
  end.

(** [strings.Join(elems, "/")]. *)
Fixpoint joinSep (elems : list (list ascii)) : list ascii :=
  match elems with
  | [] => []
  | [e] => e
  | e :: rest => e ++ "/"%char :: joinSep rest
  end.

Definition isDotElem (e : list ascii) : bool :=
  match e with [c] => isDot c | _ => false end.
Definition isDotDotElem (e : list ascii) : bool :=
  match e with [c; d] => isDot c && isDot d | _ => false end.

(** One element of the path read by [Clean].  [out] holds the elements
    written so far, the most recent first.  An empty element and [.] are
    dropped; [..] removes the element before it, unless there is none to
    remove: then it is dropped in a rooted path and kept in a relative
    one (where the elements written so far are all [..]). *)
Definition cleanStep (rooted : bool) (out : list (list ascii)) (e : list ascii)
  : list (list ascii) :=
  match e with
  | [] => out
  | _ =>
      if isDotElem e then out
      else if isDotDotElem e then
        match out with
        | top :: below => if isDotDotElem top then e :: out else below
        | [] => if rooted then [] else [e]
        end
      else e :: out
  end.

Definition cleanElements (rooted : bool) (elems : list (list ascii))
  : list (list ascii) :=
  rev (fold_left (cleanStep rooted) elems []).

Definition isRooted (path : list ascii) : bool :=
  match path with c :: _ => isSep c | [] => false end.

(** [Clean]: the shortest path name equivalent to [path] by purely
    lexical processing; the empty result is [.]. *)
Definition Clean (path : list ascii) : list ascii :=
  let rooted := isRooted path in
  let out := (if rooted then ["/"%char] else [])
               ++ joinSep (cleanElements rooted (elements path)) in
  match out with
  | [] => ["."%char]
  | _ => out
  end.

(** [Join] of two elements: empty elements are ignored, the rest are
    joined by a separator and the result is cleaned; all empty gives
    the empty string. *)
Definition Join (a b : list ascii) : list ascii :=
  match a, b with
  | [], [] => []
  | [], _ => Clean b
  | _, _ => Clean (a ++ "/"%char :: b)
  end.

End filepath.

Module strings.

(** len(s) >= len(suffix) && s[len(s)-len(suffix):] == suffix *)
Definition HasSuffix (s suffix : list ascii) : bool :=
  (length suffix <=? length s)
  && bool_decide (drop (length s - length suffix) s = suffix).

(** [TrimSuffix]: [s] without the trailing [suffix]; [s] itself when it
    does not end in [suffix]. *)
Definition TrimSuffix (s suffix : list ascii) : list ascii :=
  if HasSuffix s suffix then take (length s - length suffix) s else s.

End strings.

(** ** utils.go *)

(** generateTestContractName generates a test contract name based on the
    given contract name: fmt.Sprintf("%sTest", contractName). *)
Definition generateTestContractName (contractName : string) : string :=
  contractName +:+ "Test".

Definition fuzzMarker : list ascii := bytesOf "_fuzz".

(** generateTestFilePath generates a test file path based on the given
    file path. *)
Definition generateTestFilePathBytes (filePath : list ascii) : list ascii :=
  let '(dir, file) := filepath.Split filePath in
  let ext := filepath.Ext file in
  let filename := strings.TrimSuffix file ext in
  let testFilename := filename ++ fuzzMarker ++ ext in
  filepath.Join dir testFilename.

Definition generateTestFilePath (filePath : string) : string :=
  stringOf (generateTestFilePathBytes (bytesOf filePath)).

(** ** prompts.go *)

(** Message, declared with AskGPT4Turbo in another file of the package:
    the two fields the orchestrator fills. *)
Record Message := { Role : string; Content : string }.

(** The two templates, one line of prompts.go per line: [%s] is the
    argument fmt.Sprintf puts there, [\n] is [nl]. *)
Definition GenerateFuzzHarnessPrompt
  (contractPath testContractPath contractContents testContractContents
   contractName testContractName : string) : string :=
  "The following text in triple quotes is my Solidity file that resides at " +:+ contractPath +:+ " containing my main contracts: '''" +:+ contractContents +:+ "'''" +:+ nl +:+ nl
  +:+ "I want to fuzz test the contract in this Solidity file. The following text in triple quotes denotes the fuzz harness that resides at " +:+ testContractPath +:+ ": '''" +:+ testContractContents +:+ "'''" +:+ nl +:+ nl
  +:+ "Step 1 - If a contract named '" +:+ testContractName +:+ "' does not exist in the Solidity file, create it. This contract contains the tests for '" +:+ contractName +:+ "'." +:+ nl
  +:+ "Step 2 - Go through the tests present in '" +:+ testContractName +:+ "', if any. If there are no tests present, create a test case for '" +:+ contractName +:+ "'.If there are tests present, add another test case for '" +:+ contractName +:+ "' to '" +:+ testContractName +:+ "'." +:+ nl
  +:+ "Note: The test case created should be a system invariant for '" +:+ contractName +:+ "' and should be in the following form in triple quotes:"
  +:+ "'''function testDeposit(uint256 _amount) public {" +:+ nl
  +:+ "    // Let's bound the input to be _at most_ the ETH balance of this contract" +:+ nl
  +:+ "    // The amount value will now in between [0, address(this).balance]" +:+ nl
  +:+ "    uint256 amount = clampLte(_amount, address(this).balance);" +:+ nl +:+ nl
  +:+ "    // Retrieve balance of user before deposit" +:+ nl
  +:+ "    uint256 preBalance = depositContract.balances(address(this));" +:+ nl +:+ nl
  +:+ "    // Call the deposit contract with a variable amount" +:+ nl
  +:+ "    depositContract.deposit{value: _amount}();" +:+ nl +:+ nl
  +:+ "    // Assert post-conditions" +:+ nl
  +:+ "    assert(depositContract.balances(address(this)) == preBalance + amount);" +:+ nl
  +:+ "}'''" +:+ nl
  +:+ "Note: Return only the contents of the test file after the test case has been added to '" +:+ testContractName +:+ "'. If no solidity license specifier or version specifier was present in the test file, add it in based on the license and version in the main contract file." +:+ nl
  +:+ "Note: Make sure to properly document the code for better understanding." +:+ nl
  +:+ "Note: Make sure to include an import of the main contract in the test file. The imported path should be relative to the test file." +:+ nl
  +:+ "Note: You should not include any text in your response other than the generated test file, neither should your response be in markdown format as this response will be written directly to a solidity file." +:+ nl.

Definition RegenerateFuzzHarnessPrompt (errEncountered : string) : string :=
  "There is an error in the generated fuzzing harness. Here is the error in triple quotes: '''" +:+ errEncountered +:+ "'''." +:+ nl
  +:+ "Please fix the error and re-generate the test file." +:+ nl +:+ "."
  +:+ "Note: Do not add any new invariants to the test file nor remove any invariants from the test file." +:+ nl
  +:+ "Note: Return only the contents of the re-generated test file." +:+ nl
  +:+ "Note: Make sure to properly document the code for better understanding, but do not add comments regarding the changes you have j made to the test file." +:+ nl
  +:+ "Note: You should not include any text in your response other than the generated test file, neither should your response be in markdown format as this response will be written directly to a solidity file." +:+ nl.

(** The five instructional messages every conversation starts from. *)
Definition TrainingPrompts : list Message :=
  [ {| Role := "system"; Content :=
"# Medusa

`medusa` is a cross-platform go-ethereum-based smart contract fuzzer inspired by Echidna. It provides parallelized fuzz
testing of smart contracts through CLI, or its Go API that allows custom user-extended testing methodology.

Traditional fuzz testing (e.g. with [`AFL`](https://lcamtuf.coredump.cx/afl/)) aims to generally explore a binary by providing
random inputs in an effort to identify new system states or crash the program (please note that this is a pretty crude generalization).
This model, however, does not translate to the smart contract ecosystem since you cannot cause a smart contract to " +:+ dq +:+ "crash" +:+ dq +:+ ".
A transaction that reverts, for example, is not equivalent to a binary crashing or panicking.

Thus, with smart contracts, we have to change the fuzzing paradigm. When you hear of " +:+ dq +:+ "fuzzing smart contracts" +:+ dq +:+ ", you are
not trying to crash the program but, instead, you are trying to validate the **invariants** of the program.

> **Definition**: An invariant is a property that remains unchanged after one or more operations are applied to it.

More generally, an invariant is a " +:+ dq +:+ "truth" +:+ dq +:+ " about some system. For smart contracts, this can take many faces.

1. **Mathematical invariants**: `a + b = b + a`. The commutative property is an invariant and any Solidity math library
   should uphold this property.
2. **ERC20 tokens**: The sum of all user balances should never exceed the total supply of the token.
3. **Automated market maker (e.g. Uniswap)**: `xy = k`. The constant-product formula is an invariant that maintains the
   economic guarantees of AMMs such as Uniswap.

> **Definition**: Smart contract fuzzing uses random sequences of transactions to test the invariants of the smart contract system.

Before we explore how to identify, write, and test invariants, it is beneficial to understand how smart contract fuzzing
works under-the-hood.

## Types of Invariants

> **Note**: In this context, property and invariant mean the same thing and are interchangeable

Defining and testing your invariants is critical to assessing the **expected system behavior**.

We like to break down invariants into two general categories: function-level invariants and system-level invariants.
Note that there are other ways of defining and scoping invariants, but this distinction is generally sufficient to
start fuzz testing even the most complex systems.

### Function-level invariants

A function-level invariant can be defined as follows:

> **Definition**: A function-level invariant is a property that arises from the execution of a specific function.

Let's take the following function from a smart contract:

```solidity
function deposit() public payable {
    // Make sure that the total deposited amount does not exceed the limit
    uint256 amount = msg.value;
    require(totalDeposited + amount <= MAX_DEPOSIT_AMOUNT);

    // Update the user balance and total deposited
    balances[msg.sender] += amount;
    totalDeposited += amount;

    emit Deposit(msg.sender, amount, totalDeposited);
}
```

The `deposit` function has the following function-level invariants:

1. The ETH balance of `msg.sender` must decrease by `amount`.
2. The ETH of `address(this)` must increase by `amount`.
3. `balances[msg.sender]` should increase by `amount`.
4. The `totalDeposited` value should increase by `amount`.

Note that there other properties that can also be tested for but the above should highlight what a function-level
invariant is. In general, function-level invariants can be identified by assessing what must be true _before_ the execution
of a function and what must be true _after_ the execution of that same function.

Let's now look at system-level invariants.

### System-level invariants

A system-level invariant can be defined as follows:

> **Definition**: A system-level invariant is a property that holds true across the _entire_ execution of a system

Thus, a system-level invariant is a lot more generalized than a function-level invariant. Here are two common examples
of a function-level invariant:

1. The `xy=k` constant product formula should always hold for Uniswap pools
2. No user's balance should ever exceed the total supply for an ERC20 token.

In the `deposit` function above, we also see the presence of a system-level invariant:

**The `totalDeposited` amount should always be less than or equal to the `MAX_DEPOSIT_AMOUNT`**.

Since the `totalDeposited` value can be affected by the presence of other functions in the system
(e.g. `withdraw` or `stake`), it is best tested at the system level instead of the function level.

### Writing Function-Level Invariants

Before we write the fuzz tests, let's look into how we would write a unit test for the `deposit` function:

```solidity
function testDeposit() public {
    // The amount of tokens to deposit
    uint256 amount = 10 ether;

    // Retrieve balance of user before deposit
    preBalance = depositContract.balances(address(this));

    // Call the deposit contract (let's assume this contract has 10 ether)
    depositContract.deposit{value: amount}();

    // Assert post-conditions
    assert(depositContract.balances(msg.sender) == preBalance + amount);
    // Add other assertions here
}
```

What we will notice about the test above is that it _fixes_ the value that is being sent. It is unable to test how the
`deposit` function behaves across a variety of input spaces. Thus, a function-level fuzz test can be thought of as a
" +:+ dq +:+ "unit test on steroids" +:+ dq +:+ ". Instead of fixing the `amount`, we let the fuzzer control the `amount` value to any number between
`[0, type(uint256).max]` and see how the system behaves to that.

> **Note**: One of the core differences between a traditional unit test versus a fuzz test is that a fuzz test accepts input arguments that the fuzzer can control.

#### Writing a Fuzz Test for the `deposit` Function

Here is what a fuzz test for the `deposit` function would look like:

```solidity
function testDeposit(uint256 _amount) public {
    // Let's bound the input to be _at most_ the ETH balance of this contract
    // The amount value will now in between [0, address(this).balance]
    uint256 amount = clampLte(_amount, address(this).balance);

    // Retrieve balance of user before deposit
    uint256 preBalance = depositContract.balances(address(this));

    // Call the deposit contract with a variable amount
    depositContract.deposit{value: _amount}();

    // Assert post-conditions
    assert(depositContract.balances(address(this)) == preBalance + amount);
    // Add other assertions here
}
```

Notice that we bounded the `_amount` variable to be less than or equal to the test contract's ETH balance.
This type of bounding is very common when writing fuzz tests. Bounding allows you to only test values that are reasonable.
If `address(this)` doesn't have enough ETH, it does not make sense to try and call the `deposit` function. Additionally,
although we only tested one of the function-level invariants mentioned previously, writing the remaining
would follow a similar pattern as the one written above.

#### The contract to be tested and its corresponding test contract

```solidity
contract DepositContract {
    // @notice MAX_DEPOSIT_AMOUNT is the maximum amount that can be deposited into this contract
    uint256 public constant MAX_DEPOSIT_AMOUNT = 1_000_000e18;

    // @notice balances holds user balances
    mapping(address => uint256) public balances;

    // @notice totalDeposited represents the current deposited amount across all users
    uint256 public totalDeposited;

    // @notice Deposit event is emitted after a deposit occurs
    event Deposit(address depositor, uint256 amount, uint256 totalDeposited);

    // @notice deposit allows user to deposit into the system
    function deposit() public payable {
        // Make sure that the total deposited amount does not exceed the limit
        uint256 amount = msg.value;
        require(totalDeposited + amount <= MAX_DEPOSIT_AMOUNT);

        // Update the user balance and total deposited
        balances[msg.sender] += amount;
        totalDeposited += amount;

        emit Deposit(msg.sender, amount, totalDeposited);
    }
}

contract TestDepositContract {

    // @notice depositContract is an instance of DepositContract
    DepositContract depositContract;

    constructor() payable {
        // Deploy the deposit contract
        depositContract = new DepositContract();
    }

    // @notice testDeposit tests the DepositContract.deposit function
    function testDeposit(uint256 _amount) public {
        // Let's bound the input to be _at most_ the ETH balance of this contract
        // The amount value will now in between [0, address(this).balance]
        uint256 amount = clampLte(_amount, address(this).balance);

        // Retrieve balance of user before deposit
        uint256 preBalance = depositContract.balances(address(this));

        // Call the deposit contract with a variable amount
        depositContract.deposit{value: _amount}();

        // Assert post-conditions
        assert(depositContract.balances(address(this)) == preBalance + amount);
        // Add other assertions here
    }

    // @notice clampLte returns a value between [a, b]
    function clampLte(uint256 a, uint256 b) internal returns (uint256) {
        if (!(a <= b)) {
            uint256 value = a % (b + 1);
            return value;
        }
        return a;
    }

}
```

## Testing with `medusa`

`medusa` supports the following testing modes:

1. [Property Mode](https://secure-contracts.com/program-analysis/echidna/introduction/how-to-test-a-property.html)
2. [Assertion Mode](https://secure-contracts.com/program-analysis/echidna/basic/assertion-checking.html)

For more advanced information and documentation on how the various modes work and their pros/cons, check out [secure-contracts.com](https://secure-contracts.com/program-analysis/echidna/index.html)

### Writing property tests

Property tests are represented as functions within a Solidity contract whose names are prefixed with a prefix specified by the `testPrefixes` configuration option (`fuzz_` is the default test prefix). Additionally, they must take no arguments and return a `bool` indicating if the test succeeded.

```solidity
contract TestXY {
    uint x;
    uint y;

    function setX(uint value) public {
        x = value + 3;
    }

    function setY(uint value) public {
        y = value + 9;
    }

    function fuzz_never_specific_values() public returns (bool) {
        // ASSERTION: x should never be 10 at the same time y is 80
        return !(x == 10 && y == 80);
    }
}
```

`medusa` deploys your contract containing property tests and generates a sequence of calls to execute against all publicly accessible methods. After each function call, it calls upon your property tests to ensure they return a `true` (success) status.

#### Testing in property-mode

Invoking this fuzzing campaign, `medusa` will:

- Compile the given targets
- Start the configured number of worker threads, each with their own local Ethereum test chain.
- Deploy all contracts to each worker's test chain.
- Begin to generate and send call sequences to update contract state.
- Check property tests all succeed after each call executed.

Upon discovery of a failed property test, `medusa` will halt, reporting the call sequence used to violate any property test(s).
### Writing assertion tests

Although both property-mode and assertion-mode try to validate / invalidate invariants of the system, they do so in different ways. In property-mode, `medusa` will look for functions with a specific test prefix (e.g. `fuzz_`) and test those. In assertion-mode, `medusa` will test to see if a given call sequence can cause the Ethereum Virtual Machine (EVM) to " +:+ dq +:+ "panic" +:+ dq +:+ ". The EVM has a variety of panic codes for different scenarios. For example, there is a unique panic code when an `assert(x)` statement returns `false` or when a division by zero is encountered. In assertion mode, which panics should or should not be treated as " +:+ dq +:+ "failing test cases" +:+ dq +:+ " can be toggled by updating the [Project Configuration](./Project-Configuration.md#fuzzing-configuration). By default, only `FailOnAssertion` is enabled. Check out the [Example Project Configuration File](https://github.com/crytic/medusa/wiki/Example-Project-Configuration-File) for a visualization of the various panic codes that can be enabled. An explanation of the various panic codes can be found in the [Solidity documentation](https://docs.soliditylang.org/en/latest/control-structures.html#panic-via-assert-and-error-via-require).

Please note that the behavior of assertion mode is different between `medusa` and Echidna. Echidna will only test for `assert(x)` statements while `medusa` provides additional flexibility.

```solidity
contract TestContract {
    uint x;
    uint y;

    function setX(uint value) public {
        x = value;

        // ASSERTION: x should be an even number
        assert(x % 2 == 0);
    }
}
```

During a call sequence, if `setX` is called with a `value` that breaks the assertion (e.g. `value = 3`), `medusa` will treat this as a failing property and report it back to the user.

#### Testing in assertion-mode

Invoking this fuzzing campaign, `medusa` will:

- Compile the given targets
- Start the configured number of worker threads, each with their own local Ethereum test chain.
- Deploy all contracts to each worker's test chain.
- Begin to generate and send call sequences to update contract state.
- Check to see if there any failing assertions after each call executed.

Upon discovery of a failed assertion, `medusa` will halt, reporting the call sequence used to violate any assertions.

### Testing with multiple modes

Note that we can run `medusa` with one, many, or no modes enabled.

```solidity
contract TestContract {
    int256 input;

    function set(int256 _input) public {
        input = _input;
    }

    function failing_assert_method(uint value) public {
        // ASSERTION: We always fail when you call this function.
        assert(false);
    }

    function fuzz_failing_property() public view returns (bool) {
        // ASSERTION: fail immediately.
        return false;
    }
}
```

## Cheatcodes Overview

Cheatcodes allow users to manipulate EVM state, blockchain behavior, provide easy ways to manipulate data, and much more.
The cheatcode contract is deployed at `0x7109709ECfa91a80626fF3989D68f67F5b1DD12D`.

### Cheatcode Interface

The following interface must be added to your Solidity project if you wish to use cheatcodes. Note that if you use Foundry
as your compilation platform that the cheatcode interface is already provided [here](https://book.getfoundry.sh/reference/forge-std/#forge-stds-test).
However, it is important to note that medusa does not support all the cheatcodes provided out-of-box
by Foundry (see below for supported cheatcodes).

```solidity
interface StdCheats {
    // Set block.timestamp
    function warp(uint256) external;

    // Set block.number
    function roll(uint256) external;

    // Set block.basefee
    function fee(uint256) external;

    // Set block.difficulty and block.prevrandao
    function difficulty(uint256) external;

    // Set block.chainid
    function chainId(uint256) external;

    // Sets the block.coinbase
    function coinbase(address) external;

    // Loads a storage slot from an address
    function load(address account, bytes32 slot) external returns (bytes32);

    // Stores a value to an address' storage slot
    function store(address account, bytes32 slot, bytes32 value) external;

    // Sets the *next* call's msg.sender to be the input address
    function prank(address) external;

    // Set msg.sender to the input address until the current call exits
    function prankHere(address) external;

    // Sets an address' balance
    function deal(address who, uint256 newBalance) external;

    // Sets an address' code
    function etch(address who, bytes calldata code) external;

    // Signs data
    function sign(uint256 privateKey, bytes32 digest)
        external
        returns (uint8 v, bytes32 r, bytes32 s);

    // Computes address for a given private key
    function addr(uint256 privateKey) external returns (address);

    // Gets the nonce of an account
    function getNonce(address account) external returns (uint64);

    // Sets the nonce of an account
    // The new nonce must be higher than the current nonce of the account
    function setNonce(address account, uint64 nonce) external;

    // Performs a foreign function call via terminal
    function ffi(string[] calldata) external returns (bytes memory);

    // Take a snapshot of the current state of the EVM
    function snapshot() external returns (uint256);

    // Revert state back to a snapshot
    function revertTo(uint256) external returns (bool);

    // Convert Solidity types to strings
    function toString(address) external returns(string memory);
    function toString(bytes calldata) external returns(string memory);
    function toString(bytes32) external returns(string memory);
    function toString(bool) external returns(string memory);
    function toString(uint256) external returns(string memory);
    function toString(int256) external returns(string memory);

    // Convert strings into Solidity types
    function parseBytes(string memory) external returns(bytes memory);
    function parseBytes32(string memory) external returns(bytes32);
    function parseAddress(string memory) external returns(address);
    function parseUint(string memory)external returns(uint256);
    function parseInt(string memory) external returns(int256);
    function parseBool(string memory) external returns(bool);
}
```

## Using cheatcodes

Below is an example snippet of how you would import the cheatcode interface into your project and use it.

```solidity
// Assuming cheatcode interface is in the same directory
import " +:+ dq +:+ "./IStdCheats.sol" +:+ dq +:+ ";

// MyContract will utilize the cheatcode interface
contract MyContract {
    // Set up reference to cheatcode contract
    IStdCheats cheats = IStdCheats(0x7109709ECfa91a80626fF3989D68f67F5b1DD12D);

    // This is a test function that will set the msg.sender's nonce to the provided input argument
    function testFunc(uint256 _x) public {
        // Ensure that the input argument is greater than msg.sender's current nonce
        require(_x > cheats.getNonce(msg.sender));

        // Set sender's nonce
        cheats.setNonce(msg.sender, x);

        // Assert that the nonce has been correctly updated
        assert(cheats.getNonce(msg.sender) == x);
    }
}
```

### Tips for Testing with Medusa

#### General

- **Use multiple testing modes:** Medusa supports property testing, assertion testing, and optimization testing. Use a combination of modes to thoroughly test your contracts.
- **Write clear and concise tests:** Your tests should be easy to read and understand. Avoid complex logic or unnecessary code.
- **Test edge cases:** Consider testing extreme values and unusual inputs to ensure your contracts handle them correctly.
- **Use a variety of test inputs:** Generate a diverse set of test inputs to cover a wide range of scenarios.
- **Monitor gas consumption:** Medusa can track gas consumption during testing. Use this information to identify areas where your contracts can be optimized.

#### Property Testing

- **Choose meaningful properties:** The properties you test should be important invariants of your contract.

#### Assertion Testing

- **Use assertions judiciously:** Assertions can be useful for catching errors, but they can also slow down testing. Use them only when necessary.
- **Test for both valid and invalid inputs:** Ensure your assertions check for both valid and invalid inputs to thoroughly test your contract's behavior.
- **Use pre-conditions and post-conditions to verify the state of the contract before and after a function call.:** Pre-conditions and post-conditions are assertions that can be used to verify the state of the contract before and after a function call. This can help to ensure that the function is called with the correct inputs, that it produces the expected outputs, and that the state of the contract is valid." |};
    {| Role := "system"; Content :=
"## More about medusa cheatcodes
### `addr`

#### Description

The `addr` cheatcode will compute the address for a given private key.

#### Example

```solidity
// Obtain our cheat code contract reference.
IStdCheats cheats = CheatCodes(0x7109709ECfa91a80626fF3989D68f67F5b1DD12D);

// Test with random private key
uint256 pkOne = 0x6df21769a2082e03f7e21f6395561279e9a7feb846b2bf740798c794ad196e00;
address addrOne = 0xdf8Ef652AdE0FA4790843a726164df8cf8649339;
address result = cheats.addr(pkOne);
assert(result == addrOne);
```

#### Function Signature

```solidity
function addr(uint256 privateKey) external returns (address);
```
### `chainId`

#### Description

The `chainId` cheatcode will set the `block.chainid`

#### Example

```solidity
// Obtain our cheat code contract reference.
IStdCheats cheats = CheatCodes(0x7109709ECfa91a80626fF3989D68f67F5b1DD12D);

// Change value and verify.
cheats.chainId(777123);
assert(block.chainid == 777123);
```

#### Function Signature

```solidity
function chainId(uint256) external;
```

### `coinbase`

#### Description

The `coinbase` cheatcode will set the `block.coinbase`

#### Example

```solidity
// Obtain our cheat code contract reference.
IStdCheats cheats = CheatCodes(0x7109709ECfa91a80626fF3989D68f67F5b1DD12D);

// Change value and verify.
cheats.coinbase(address(7));
assert(block.coinbase == address(7));
```

#### Function Signature

```solidity
function coinbase(address) external;
```

### `deal`

#### Description

The `deal` cheatcode will set the ETH balance of address `who` to `newBalance`

#### Example

```solidity
// Obtain our cheat code contract reference.
IStdCheats cheats = CheatCodes(0x7109709ECfa91a80626fF3989D68f67F5b1DD12D);

// Change value and verify.
address acc = address(777);
cheats.deal(acc, x);
assert(acc.balance == x);
```

#### Function Signature

```solidity
function deal(address who, uint256 newBalance) external;
```

### `difficulty`

#### Description

The `difficulty` cheatcode will set the `block.difficulty` and the `block.prevrandao` value. At the moment, both values
are changed since the cheatcode does not check what EVM version is running.

Note that this behavior will change in the future.

#### Example

```solidity
// Obtain our cheat code contract reference.
IStdCheats cheats = CheatCodes(0x7109709ECfa91a80626fF3989D68f67F5b1DD12D);

// Change value and verify.
cheats.difficulty(x);
assert(block.difficulty == x);
```

#### Function Signature

```solidity
function difficulty(uint256) external;
```

### `etch`

#### Description

The `etch` cheatcode will set the `who` address's bytecode to `code`.

#### Example

```solidity
// Obtain our cheat code contract reference.
IStdCheats cheats = CheatCodes(0x7109709ECfa91a80626fF3989D68f67F5b1DD12D);

// Obtain our original code hash for an account.
address acc = address(777);
bytes32 originalCodeHash;
assembly { originalCodeHash := extcodehash(acc) }

// Change value and verify.
cheats.etch(acc, address(someContract).code);
bytes32 updatedCodeHash;
assembly { updatedCodeHash := extcodehash(acc) }
assert(originalCodeHash != updatedCodeHash);
```

#### Function Signature

```solidity
function etch(address who, bytes calldata code) external;
```

### `fee`

#### Description

The `fee` cheatcode will set the `block.basefee`.

#### Example

```solidity
// Obtain our cheat code contract reference.
IStdCheats cheats = CheatCodes(0x7109709ECfa91a80626fF3989D68f67F5b1DD12D);

// Change value and verify.
cheats.fee(7);
assert(block.basefee == 7);
```

#### Function Signature

```solidity
function fee(uint256) external;
```

### `ffi`

#### Description

The `ffi` cheatcode is used to call an arbitrary command on your host OS. Note that `ffi` must be enabled via the project
configuration file by setting `fuzzing.chainConfig.cheatCodes.enableFFI` to `true`.

Note that enabling `ffi` allows anyone to execute arbitrary commands on devices that run the fuzz tests which may
become a security risk.

#### Example with ABI-encoded hex

```solidity
// Obtain our cheat code contract reference.
IStdCheats cheats = CheatCodes(0x7109709ECfa91a80626fF3989D68f67F5b1DD12D);

// Create command
string[] memory inputs = new string[](3);
inputs[0] = " +:+ dq +:+ "echo" +:+ dq +:+ ";
inputs[1] = " +:+ dq +:+ "-n" +:+ dq +:+ ";
// Encoded " +:+ dq +:+ "hello" +:+ dq +:+ "
inputs[2] = " +:+ dq +:+ "0x0000000000000000000000000000000000000000000000000000000000000020000000000000000000000000000000000000000000000000000000000000000568656C6C6F000000000000000000000000000000000000000000000000000000" +:+ dq +:+ ";

// Call cheats.ffi
bytes memory res = cheats.ffi(inputs);

// ABI decode
string memory output = abi.decode(res, (string));
assert(keccak256(abi.encodePacked(output)) == keccak256(abi.encodePacked(" +:+ dq +:+ "hello" +:+ dq +:+ ")));
```

#### Example with UTF8 encoding

```solidity
// Obtain our cheat code contract reference.
IStdCheats cheats = CheatCodes(0x7109709ECfa91a80626fF3989D68f67F5b1DD12D);

// Create command
string[] memory inputs = new string[](3);
inputs[0] = " +:+ dq +:+ "echo" +:+ dq +:+ ";
inputs[1] = " +:+ dq +:+ "-n" +:+ dq +:+ ";
inputs[2] = " +:+ dq +:+ "hello" +:+ dq +:+ ";

// Call cheats.ffi
bytes memory res = cheats.ffi(inputs);

// Convert to UTF-8 string
string memory output = string(res);
assert(keccak256(abi.encodePacked(output)) == keccak256(abi.encodePacked(" +:+ dq +:+ "hello" +:+ dq +:+ ")));
```

#### Function Signature

```solidity
function ffi(string[] calldata) external returns (bytes memory);
```

### `getNonce`

#### Description

The `getNonce` cheatcode will get the current nonce of `account`.

#### Example

```solidity
// Obtain our cheat code contract reference.
IStdCheats cheats = CheatCodes(0x7109709ECfa91a80626fF3989D68f67F5b1DD12D);

// Get nonce and verify that the sender has sent at least one transaction
address acc = address(msg.sender);
assert(cheats.getNonce(acc) > 0);
```

#### Function Signature

```solidity
function getNonce(address account) external returns (uint64);
```

### `load`

#### Description

The `load` cheatcode will load storage slot `slot` for `account`

#### Example

```solidity
contract TestContract {
    uint x = 123;
    function test() public {
        // Obtain our cheat code contract reference.
        IStdCheats cheats = CheatCodes(0x7109709ECfa91a80626fF3989D68f67F5b1DD12D);

        // Load and verify x
        bytes32 value = cheats.load(address(this), bytes32(uint(0)));
        assert(value == bytes32(uint(123)));
    }
}
```

#### Function Signature

```solidity
function load(address account, bytes32 slot) external returns (bytes32);
```

### `prank`

#### Description

The `prank` cheatcode will set the `msg.sender` for _only the next call_ to the specified input address. Note that,
contrary to [`prank` in Foundry](https://book.getfoundry.sh/cheatcodes/prank#description), calling the cheatcode contract will count as a
valid " +:+ dq +:+ "next call" +:+ dq +:+ "

#### Example

```solidity
contract TestContract {
    address owner = address(123);
    function transferOwnership(address _newOwner) public {
        require(msg.sender == owner);

        // Change ownership
        owner = _newOwner;
    }

    function test() public {
        // Obtain our cheat code contract reference.
        IStdCheats cheats = CheatCodes(0x7109709ECfa91a80626fF3989D68f67F5b1DD12D);

        // Prank, change ownership, and verify
        address newOwner = address(456);
        cheats.prank(owner);
        transferOwnership(newOwner);
        assert(owner == newOwner);
    }
    }
```

#### Function Signature

```solidity
function prank(address) external;
```

### `prankHere`

#### Description

The `prankHere` cheatcode will set the `msg.sender` to the specified input address until the current call exits. Compared
to `prank`, `prankHere` can persist for multiple calls.

#### Example

```solidity
contract TestContract {
    address owner = address(123);
    uint256 x = 0;
    uint256 y = 0;

    function updateX() public {
        require(msg.sender == owner);

        // Update x
        x = 1;
    }

    function updateY() public {
        require(msg.sender == owner);

        // Update y
        y = 1;
    }

    function test() public {
        // Obtain our cheat code contract reference.
        IStdCheats cheats = CheatCodes(0x7109709ECfa91a80626fF3989D68f67F5b1DD12D);

        // Prank, update variables, and verify
        cheats.prank(owner);
        updateX();
        updateY();
        assert((x == 1) && (y == 1));

        // Once this function returns, the `msg.sender` is reset
    }
}
```

#### Function Signature

```solidity
function prankHere(address) external;
```

### `roll`

#### Description

The `roll` cheatcode sets the `block.number`

#### Example

```solidity
// Obtain our cheat code contract reference.
IStdCheats cheats = CheatCodes(0x7109709ECfa91a80626fF3989D68f67F5b1DD12D);

// Change value and verify.
cheats.roll(7);
assert(block.number == 7);
cheats.roll(9);
assert(block.number == 9);
```

#### Function Signature

```solidity
function roll(uint256) external;
```

### setNonce

#### Description

The `setNonce` cheatcode will set the nonce of `account` to `nonce`. Note that the `nonce` must be strictly greater than
the current nonce

#### Example

```solidity
// Obtain our cheat code contract reference.
IStdCheats cheats = CheatCodes(0x7109709ECfa91a80626fF3989D68f67F5b1DD12D);

// Set nonce and verify (assume nonce before `setNonce` was less than 7)
address acc = address(msg.sender);
cheats.setNonce(acc, 7);
assert(cheats.getNonce(acc) == 7);
```

#### Function Signature

```solidity
function setNonce(address account, uint64 nonce) external;
```

### `sign`

#### Description

The `sign` cheatcode will take in a private key `privateKey` and a hash digest `digest` to generate a `(v, r, s)`
signature

#### Example

```solidity
// Obtain our cheat code contract reference.
IStdCheats cheats = CheatCodes(0x7109709ECfa91a80626fF3989D68f67F5b1DD12D);

bytes32 digest = keccak256(" +:+ dq +:+ "Data To Sign" +:+ dq +:+ ");

// Call cheats.sign
(uint8 v, bytes32 r, bytes32 s) = cheats.sign(0x6df21769a2082e03f7e21f6395561279e9a7feb846b2bf740798c794ad196e00, digest);
address signer = ecrecover(digest, v, r, s);
assert(signer == 0xdf8Ef652AdE0FA4790843a726164df8cf8649339);
```

#### Function Signature

```solidity
function sign(uint256 privateKey, bytes32 digest)
external
returns (uint8 v, bytes32 r, bytes32 s);
```

### `snapshot` and `revertTo`

#### Description

The `snapshot` cheatcode will take a snapshot of the current state of the blockchain and return an identifier for the
snapshot.

On the flipside, the `revertTo` cheatcode will revert the EVM state back based on the provided identifier.

#### Example

```solidity
interface CheatCodes {
    function warp(uint256) external;

    function deal(address, uint256) external;

    function snapshot() external returns (uint256);

    function revertTo(uint256) external returns (bool);
}

struct Storage {
    uint slot0;
    uint slot1;
}

contract TestContract {
    Storage store;
    uint256 timestamp;

    function test() public {
        // Obtain our cheat code contract reference.
        CheatCodes cheats = CheatCodes(
            0x7109709ECfa91a80626fF3989D68f67F5b1DD12D
        );

        store.slot0 = 10;
        store.slot1 = 20;
        timestamp = block.timestamp;
        cheats.deal(address(this), 5 ether);

        // Save state
        uint256 snapshot = cheats.snapshot();

        // Change state
        store.slot0 = 300;
        store.slot1 = 400;
        cheats.deal(address(this), 500 ether);
        cheats.warp(12345);

        // Assert that state has been changed
        assert(store.slot0 == 300);
        assert(store.slot1 == 400);
        assert(address(this).balance == 500 ether);
        assert(block.timestamp == 12345);

        // Revert to snapshot
        cheats.revertTo(snapshot);

        // Ensure state has been reset
        assert(store.slot0 == 10);
        assert(store.slot1 == 20);
        assert(address(this).balance == 5 ether);
        assert(block.timestamp == timestamp);
    }
}
```

### `store`

#### Description

The `store` cheatcode will store `value` in storage slot `slot` for `account`

#### Example

```solidity
contract TestContract {
    uint x = 123;
    function test() public {
        // Obtain our cheat code contract reference.
        IStdCheats cheats = CheatCodes(0x7109709ECfa91a80626fF3989D68f67F5b1DD12D);

        // Store into x, verify it.
        cheats.store(address(this), bytes32(uint(0)), bytes32(uint(456)));
        assert(y == 456);
    }
}
```

#### Function Signature

```solidity
function store(address account, bytes32 slot, bytes32 value) external;
```

### warp

#### Description

The `warp` cheatcode sets the `block.timestamp`

#### Example

```solidity
// Obtain our cheat code contract reference.
IStdCheats cheats = CheatCodes(0x7109709ECfa91a80626fF3989D68f67F5b1DD12D);

// Change value and verify.
cheats.warp(7);
assert(block.timestamp == 7);
cheats.warp(9);
assert(block.timestamp == 9);
```

#### Function Signature

```solidity
function warp(uint256) external;
```" |};
    {| Role := "system"; Content :=
"You are a smart contract auditing assistant. You'll generate fuzz tests to be run by `medusa`. Do not generate tests for `Foundry`, only generate tests to be run by `medusa`. Make use of medusa's cheatcodes where necessary" |};
    {| Role := "system"; Content :=
"You will be provided with main contracts which you should carefully examine to find possible vulnerabilities/invariants that should be tested for." |};
    {| Role := "system"; Content :=
"Instructions given to you following preceded by 'Note:' should be taken into utmost importance." |} ].

(** ** The world of the orchestrator *)

(** A source unit, as the orchestrator reads it: contracts.Contract with
    its accessors Name() and SourcePath(). *)
Record Contract := { Name : string; SourcePath : string }.

(** How running a command fails (exec.Cmd.Run): the process ran and
    exited with a non-zero status (exec.ExitError), or it could not be
    started or waited for (exec.Error, fs.PathError). *)
Inductive ExecFailure :=
| ExitFailure (status : Z)
| SpawnFailure (reason : string).

(** Go errors, tagged by the call that makes them. *)
Inductive error :=
| PathError (op path reason : string)
| ServiceError (reason : string)
| CommandError (f : ExecFailure).

(** What a call leaves: the value it returns, the error it returns, or
    nothing when the bound put on the repair loop is reached before the
    loop is left. *)
Inductive outcome (A : Type) :=
| Ok (a : A)
| Err (e : error)
| OutOfFuel.
Arguments Ok {A} a.
Arguments Err {A} e.
Arguments OutOfFuel {A}.

(** What os.Stat tells through os.IsNotExist: the file is there
    (err == nil), it is not (os.IsNotExist(err)), or the call failed for
    another reason (a component of the path is not a directory, a
    directory may not be searched) and os.IsNotExist(err) is false. *)
Inductive StatResult :=
| StatFound
| StatNotExist
| StatFailed (reason : string).

(** The calls that leave the process, each with what it returned. *)
Inductive Event :=
| EvStat (path : string) (res : StatResult)
| EvCreate (path : string) (err : option error)
| EvReadFile (path : string) (res : outcome string)
| EvWriteFile (path data : string) (err : option error)
| EvAsk (history : list Message) (res : outcome string)
| EvRun (argv : list string) (stdErr : string) (err : option error).

Inductive FileOp :=
| OpStat (path : string)
| OpCreate (path : string)
| OpReadFile (path : string)
| OpWriteFile (path data : string).

(** The collaborators.  AskGPT4Turbo and
    utils.RunCommandWithOutputAndError are defined in other files of
    medusa; package os is the file system.  They are parameters of a
    run.  Each answer may depend on everything that happened before (the
    log of calls).
    - [askOracle]: AskGPT4Turbo(messages), the reply of the service or the
      reason of its failure;
    - [runOracle]: utils.RunCommandWithOutputAndError(command), the bytes
      the process wrote to its standard error and how it failed, if it did;
      the process sees the files;
    - [faultOracle]: the reason for which a call of package os fails, other
      than a missing file. *)
Record Env := {
  askOracle : list Event -> list Message -> string + string;
  runOracle : list Event -> gmap string string -> list string
              -> string * option ExecFailure;
  faultOracle : list Event -> FileOp -> option string
}.

(** The state of a run: the package variable [messages], the files, and
    the log of calls. *)
Record State := {
  messages : list Message;
  files : gmap string string;
  calls : list Event
}.

Definition M (A : Type) : Type := State -> State * outcome A.

Definition ret {A} (a : A) : M A := fun s => (s, Ok a).

Definition bind {A B} (m : M A) (k : A -> M B) : M B :=
  fun s =>
    match m s with
    | (s', Ok a) => k a s'
    | (s', Err e) => (s', Err e)
    | (s', OutOfFuel) => (s', OutOfFuel)
    end.

Notation "x <- m ;; k" := (bind m (fun x => k))
  (at level 100, m at next level, right associativity).
Notation "m ;;; k" := (bind m (fun _ => k))
  (at level 100, right associativity).

Definition logCall (ev : Event) (s : State) : State :=
  {| messages := messages s; files := files s; calls := calls s ++ [ev] |}.

Definition setFile (path data : string) (s : State) : State :=
  {| messages := messages s; files := <[path := data]> (files s);
     calls := calls s |}.

Definition pushMessage (m : Message) (s : State) : State :=
  {| messages := messages s ++ [m]; files := files s; calls := calls s |}.

(** messages = append(messages, message) *)
Definition appendMessage (m : Message) : M unit :=
  fun s => (pushMessage m s, Ok tt).

(** The package variable, read. *)
Definition getMessages : M (list Message) := fun s => (s, Ok (messages s)).

Definition noSuchFile : string := "no such file or directory".

(** The functions of the orchestrator follow.  What they print with
    fmt.Println is left out. *)

Section Orchestrator.

Variable env : Env.

(** os.Stat, as far as createTestFiles looks at it: the error is only
    passed to os.IsNotExist.  A call that fails for another reason tells
    nothing about the file, which may be there or not. *)
Definition osStat (path : string) : M StatResult :=
  fun s =>
    let res :=
      match faultOracle env (calls s) (OpStat path) with
      | Some reason => StatFailed reason
      | None =>
          if bool_decide (is_Some (files s !! path)) then StatFound
          else StatNotExist
      end in
    (logCall (EvStat path res) s, Ok res).

(** os.Create: creates or truncates the named file. *)
Definition osCreate (path : string) : M unit :=
  fun s =>
    match faultOracle env (calls s) (OpCreate path) with
    | Some reason =>
        let e := PathError "open" path reason in
        (logCall (EvCreate path (Some e)) s, Err e)
    | None => (logCall (EvCreate path None) (setFile path "" s), Ok tt)
    end.

(** os.ReadFile: the whole content of the named file. *)
Definition osReadFile (path : string) : M string :=
  fun s =>
    match faultOracle env (calls s) (OpReadFile path) with
    | Some reason =>
        let e := PathError "read" path reason in
        (logCall (EvReadFile path (Err e)) s, Err e)
    | None =>
        match files s !! path with
        | Some data => (logCall (EvReadFile path (Ok data)) s, Ok data)
        | None =>
            let e := PathError "open" path noSuchFile in
            (logCall (EvReadFile path (Err e)) s, Err e)
        end
    end.

(** os.WriteFile: writes data to the named file, creating it if
    necessary and truncating it before writing otherwise.  A call that
    fails is modelled as one that fails when the file is opened: it
    leaves the file as it was.  (One that fails later leaves a truncated
    file; nothing below is stated about the content of a file after a
    write that failed.) *)
Definition osWriteFile (path data : string) : M unit :=
  fun s =>
    match faultOracle env (calls s) (OpWriteFile path data) with
    | Some reason =>
        let e := PathError "write" path reason in
        (logCall (EvWriteFile path data (Some e)) s, Err e)
    | None => (logCall (EvWriteFile path data None) (setFile path data s), Ok tt)
    end.

(** AskGPT4Turbo, of the same package: one request to the service with the
    whole history. *)
Definition AskGPT4Turbo (history : list Message) : M string :=
  fun s =>
    match askOracle env (calls s) history with
    | inl response => (logCall (EvAsk history (Ok response)) s, Ok response)
    | inr reason =>
        let e := ServiceError reason in
        (logCall (EvAsk history (Err e)) s, Err e)
    end.

(** utils.RunCommandWithOutputAndError: runs the command; of its four
    results validateTestFile keeps the standard error bytes and the error. *)
Definition RunCommandWithOutputAndError (argv : list string)
  : M (string * option error) :=
  fun s =>
    let '(stdErr, failure) := runOracle env (calls s) (files s) argv in
    let err := CommandError <$> failure in
    (logCall (EvRun argv stdErr err) s, Ok (stdErr, err)).

Definition validateTestFile (testFilePath : string) : M (string * option error) :=
  let command := ["crytic-compile"; testFilePath; "--ignore-compile"] in
  RunCommandWithOutputAndError command.

Definition processMessageWithGPT4Turbo (message : Message) : M string :=
  appendMessage message ;;;
  (* Generate the fuzzing harness *)
  history <- getMessages ;;
  response <- AskGPT4Turbo history ;;
  (* Store response *)
  appendMessage {| Role := "system"; Content := response |} ;;;
  ret response.

Fixpoint createTestFiles (contractDefinitions : list Contract) : M unit :=
  match contractDefinitions with
  | [] => ret tt
  | contractDefinition :: rest =>
      let testFilePath := generateTestFilePath (SourcePath contractDefinition) in
      (* Create the file if it does not exist:
         if _, err := os.Stat(testFilePath); os.IsNotExist(err) *)
      stat <- osStat testFilePath ;;
      match stat with
      | StatNotExist => osCreate testFilePath
      | StatFound | StatFailed _ => ret tt
      end ;;;
      createTestFiles rest
  end.

(** The [for] loop without a condition of generateFuzzingHarness: it is
    left by [break] when the test file validates and by [return] on an
    error.  [fuel] bounds the number of validations. *)
Fixpoint repairLoop (fuel : nat) (contractDefinition : Contract)
  (testFilePath : string) : M unit :=
  match fuel with
  | O => fun s => (s, OutOfFuel)
  | S fuel' =>
      (* Validate generated test file *)
      validation <- validateTestFile testFilePath ;;
      let '(stdErr, err) := validation in
      match err with
      | None => ret tt
      | Some _ =>
          let message := {| Role := "user";
                            Content := RegenerateFuzzHarnessPrompt stdErr |} in
          response <- processMessageWithGPT4Turbo message ;;
          (* Write response to test file *)
          osWriteFile (generateTestFilePath (SourcePath contractDefinition))
            response ;;;
          repairLoop fuel' contractDefinition testFilePath
      end
  end.

(** The body of the loop over the contract definitions. *)
Definition harnessFor (fuel : nat) (contractDefinition : Contract) : M unit :=
  let testFilePath := generateTestFilePath (SourcePath contractDefinition) in
  (* Read the contract source code *)
  contractSourceCode <- osReadFile (SourcePath contractDefinition) ;;
  (* Read the test contract source code *)
  testContractSourceCode <- osReadFile testFilePath ;;
  let message :=
    {| Role := "user";
       Content := GenerateFuzzHarnessPrompt (SourcePath contractDefinition)
                    testFilePath contractSourceCode testContractSourceCode
                    (Name contractDefinition)
                    (generateTestContractName (Name contractDefinition)) |} in
  (* Store prompt *)
  appendMessage message ;;;
  (* Generate the fuzzing harness *)
  history <- getMessages ;;
  response <- AskGPT4Turbo history ;;
  (* Store response *)
  appendMessage {| Role := "system"; Content := response |} ;;;
  (* Write response to test file *)
  osWriteFile testFilePath response ;;;
  repairLoop fuel contractDefinition testFilePath.

Fixpoint generateFuzzingHarness (fuel : nat) (contractDefinitions : list Contract)
  : M unit :=
  match contractDefinitions with
  | [] => ret tt
  | contractDefinition :: rest =>
      harnessFor fuel contractDefinition ;;;
      generateFuzzingHarness fuel rest
  end.

Definition GenerateFuzzingHarness (fuel : nat) (contractDefinitions : list Contract)
  : M unit :=
  (* Create a test file for each contract definition *)
  createTestFiles contractDefinitions ;;;
  (* Generate the fuzzing harness *)
  generateFuzzingHarness fuel contractDefinitions.

End Orchestrator.

(** The state a process starts in: var messages = TrainingPrompts(). *)
Definition initialState (fs : gmap string string) : State :=
  {| messages := TrainingPrompts; files := fs; calls := [] |}.

(** ** Reading the log of calls *)

Fixpoint countCalls (which : Event -> bool) (log : list Event) : nat :=
  match log with
  | [] => 0
  | ev :: rest => (if which ev then 1 else 0) + countCalls which rest
  end.

Definition isAsk (ev : Event) : bool :=
  match ev with EvAsk _ _ => true | _ => false end.

Definition isRun (ev : Event) : bool :=
  match ev with EvRun _ _ _ => true | _ => false end.

(** A validation that did not pass: the repair trigger. *)
Definition isFailedRun (ev : Event) : bool :=
  match ev with EvRun _ _ (Some _) => true | _ => false end.

Definition isWrite (ev : Event) : bool :=
  match ev with EvWriteFile _ _ _ => true | _ => false end.

Definition isCreate (ev : Event) : bool :=
  match ev with EvCreate _ _ => true | _ => false end.

(** ** What the calls return, as functions of the state *)

Definition validateArgv (testFilePath : string) : list string :=
  ["crytic-compile"; testFilePath; "--ignore-compile"].

Definition generationRequest (contractDefinition : Contract)
  (contractSourceCode testContractSourceCode : string) : Message :=
  let testFilePath := generateTestFilePath (SourcePath contractDefinition) in
  {| Role := "user";
     Content := GenerateFuzzHarnessPrompt (SourcePath contractDefinition)
                  testFilePath contractSourceCode testContractSourceCode
                  (Name contractDefinition)
                  (generateTestContractName (Name contractDefinition)) |}.

Definition repairRequest (stdErr : string) : Message :=
  {| Role := "user"; Content := RegenerateFuzzHarnessPrompt stdErr |}.

Definition reply (response : string) : Message :=
  {| Role := "system"; Content := response |}.

Definition readResult (env : Env) (s : State) (path : string) : outcome string :=
  match faultOracle env (calls s) (OpReadFile path) with
  | Some reason => Err (PathError "read" path reason)
  | None =>
      match files s !! path with
      | Some data => Ok data
      | None => Err (PathError "open" path noSuchFile)
      end
  end.

(** What os.Stat tells createTestFiles about [path] in the state [s]. *)
Definition statResult (env : Env) (s : State) (path : string) : StatResult :=
  match faultOracle env (calls s) (OpStat path) with
  | Some reason => StatFailed reason
  | None =>
      if bool_decide (is_Some (files s !! path)) then StatFound else StatNotExist
  end.

Definition afterRead (env : Env) (path : string) (s : State) : State :=
  logCall (EvReadFile path (readResult env s path)) s.

Definition afterRun (testFilePath stdErr : string) (failure : option ExecFailure)
  (s : State) : State :=
  logCall (EvRun (validateArgv testFilePath) stdErr (CommandError <$> failure)) s.

(** The request is stored before the service is asked; the reply is
    stored after it. *)
Definition afterReply (request : Message) (response : string) (s : State) : State :=
  pushMessage (reply response)
    (logCall (EvAsk (messages s ++ [request]) (Ok response))
       (pushMessage request s)).

Definition afterRefusal (request : Message) (reason : string) (s : State) : State :=
  logCall (EvAsk (messages s ++ [request]) (Err (ServiceError reason)))
    (pushMessage request s).

Definition afterWrite (path data : string) (s : State) : State :=
  logCall (EvWriteFile path data None) (setFile path data s).

Definition afterWriteFault (path data reason : string) (s : State) : State :=
  logCall (EvWriteFile path data (Some (PathError "write" path reason))) s.

(** ** The runs of the orchestrator, as relations

    [RepairRun] relates the state at the head of the repair loop to the
    state and the outcome it is left with; [HarnessRun] does so for one
    contract definition. *)

Section Runs.

Variable env : Env.
Variable contractDefinition : Contract.

Let artifact : string := generateTestFilePath (SourcePath contractDefinition).

Inductive RepairRun (testFilePath : string) : State -> State -> outcome unit -> Prop :=
| RepairPass s stdErr :
    runOracle env (calls s) (files s) (validateArgv testFilePath) = (stdErr, None) ->
    RepairRun testFilePath s (afterRun testFilePath stdErr None s) (Ok tt)
| RepairRefused s stdErr failure reason :
    runOracle env (calls s) (files s) (validateArgv testFilePath)
      = (stdErr, Some failure) ->
    let s1 := afterRun testFilePath stdErr (Some failure) s in
    askOracle env (calls s1) (messages s1 ++ [repairRequest stdErr]) = inr reason ->
    RepairRun testFilePath s (afterRefusal (repairRequest stdErr) reason s1)
      (Err (ServiceError reason))
| RepairWriteFault s stdErr failure response reason :
    runOracle env (calls s) (files s) (validateArgv testFilePath)
      = (stdErr, Some failure) ->
    let s1 := afterRun testFilePath stdErr (Some failure) s in
    askOracle env (calls s1) (messages s1 ++ [repairRequest stdErr]) = inl response ->
    let s2 := afterReply (repairRequest stdErr) response s1 in
    faultOracle env (calls s2) (OpWriteFile artifact response) = Some reason ->
    RepairRun testFilePath s (afterWriteFault artifact response reason s2)
      (Err (PathError "write" artifact reason))
| RepairAgain s stdErr failure response s' r :
    runOracle env (calls s) (files s) (validateArgv testFilePath)
      = (stdErr, Some failure) ->
    let s1 := afterRun testFilePath stdErr (Some failure) s in
    askOracle env (calls s1) (messages s1 ++ [repairRequest stdErr]) = inl response ->
    let s2 := afterReply (repairRequest stdErr) response s1 in
    faultOracle env (calls s2) (OpWriteFile artifact response) = None ->
    RepairRun testFilePath (afterWrite artifact response s2) s' r ->
    RepairRun testFilePath s s' r
| RepairCut s :
    RepairRun testFilePath s s OutOfFuel.

Inductive HarnessRun : State -> State -> outcome unit -> Prop :=
| HarnessNoSource s e :
    readResult env s (SourcePath contractDefinition) = Err e ->
    HarnessRun s (afterRead env (SourcePath contractDefinition) s) (Err e)
| HarnessNoArtifact s code e :
    readResult env s (SourcePath contractDefinition) = Ok code ->
    let s1 := afterRead env (SourcePath contractDefinition) s in
    readResult env s1 artifact = Err e ->
    HarnessRun s (afterRead env artifact s1) (Err e)
| HarnessRefused s code test reason :
    readResult env s (SourcePath contractDefinition) = Ok code ->
    let s1 := afterRead env (SourcePath contractDefinition) s in
    readResult env s1 artifact = Ok test ->
    let s2 := afterRead env artifact s1 in
    let request := generationRequest contractDefinition code test in
    askOracle env (calls s2) (messages s2 ++ [request]) = inr reason ->
    HarnessRun s (afterRefusal request reason s2) (Err (ServiceError reason))
| HarnessWriteFault s code test response reason :
    readResult env s (SourcePath contractDefinition) = Ok code ->
    let s1 := afterRead env (SourcePath contractDefinition) s in
    readResult env s1 artifact = Ok test ->
    let s2 := afterRead env artifact s1 in
    let request := generationRequest contractDefinition code test in
    askOracle env (calls s2) (messages s2 ++ [request]) = inl response ->
    let s3 := afterReply request response s2 in
    faultOracle env (calls s3) (OpWriteFile artifact response) = Some reason ->
    HarnessRun s (afterWriteFault artifact response reason s3)
      (Err (PathError "write" artifact reason))
| HarnessRepair s code test response s' r :
    readResult env s (SourcePath contractDefinition) = Ok code ->
    let s1 := afterRead env (SourcePath contractDefinition) s in
    readResult env s1 artifact = Ok test ->
    let s2 := afterRead env artifact s1 in
    let request := generationRequest contractDefinition code test in
    askOracle env (calls s2) (messages s2 ++ [request]) = inl response ->
    let s3 := afterReply request response s2 in
    faultOracle env (calls s3) (OpWriteFile artifact response) = None ->
    RepairRun artifact (afterWrite artifact response s3) s' r ->
    HarnessRun s s' r.

End Runs.

(** ** Predicates on states, logs and errors *)

(** The validations of the log that did not pass. *)
Definition failedRuns (s : State) : nat := countCalls isFailedRun (calls s).

(** The artifact holds the last reply of the history. *)
Definition Persisted (artifact : string) (s : State) : Prop :=
  exists history response,
    messages s = history ++ [reply response]
    /\ files s !! artifact = Some response.


(** A write is verbatim when it goes to the artifact and its data is the
    reply of the request made just before it. *)
Definition verbatim (artifact : string) (before : option Event) (ev : Event) : bool :=
  match ev, before with
  | EvWriteFile path data _, Some (EvAsk _ (Ok response)) =>
      bool_decide (path = artifact) && bool_decide (data = response)
  | EvWriteFile _ _ _, _ => false
  | _, _ => true
  end.

Fixpoint writesVerbatim (artifact : string) (before : option Event)
  (log : list Event) : bool :=
  match log with
  | [] => true
  | ev :: rest =>
      verbatim artifact before ev && writesVerbatim artifact (Some ev) rest
  end.

(** The errors that end a run: those of package os and of the service. *)
Definition isFatal (e : error) : bool :=
  match e with
  | PathError _ _ _ | ServiceError _ => true
  | CommandError _ => false
  end.

(** The call [ev] failed with the error [e]; a run of the validator is
    not such a call. *)
Definition failedWith (e : error) (ev : Event) : Prop :=
  match ev with
  | EvCreate _ (Some e') | EvWriteFile _ _ (Some e')
  | EvReadFile _ (Err e') | EvAsk _ (Err e') => e' = e
  | _ => False
  end.

(** The repair cycles of each contract definition of a run: the
    validations that failed while it was processed. *)
Fixpoint repairCycles (env : Env) (fuel : nat) (contractDefinitions : list Contract)
  (s : State) : list nat :=
  match contractDefinitions with
  | [] => []
  | contractDefinition :: rest =>
      let s' := fst (harnessFor env fuel contractDefinition s) in
      (countCalls isFailedRun (calls s') - countCalls isFailedRun (calls s))
        :: repairCycles env fuel rest s'
  end.

(** ** Stubs of the collaborators, for concrete runs *)

Module Stub.

Definition replyText (n : nat) : string :=
  "// harness, reply " +:+ String (Ascii.ascii_of_nat (48 + n)) "".

(** A service that answers its requests, numbered from 0, except the one
    it refuses. *)
Definition service (refused : option nat) (log : list Event)
  (history : list Message) : string + string :=
  let n := countCalls isAsk log in
  if bool_decide (refused = Some n) then inr "insufficient_quota"
  else inl (replyText n).

(** A validator whose runs follow a script and pass when it is over. *)
Definition validator (script : list (string * option ExecFailure))
  (log : list Event) (fs : gmap string string) (argv : list string)
  : string * option ExecFailure :=
  default ("", None) (script !! countCalls isRun log).

Definition world (refused : option nat)
  (script : list (string * option ExecFailure)) : Env :=
  {| askOracle := service refused;
     runOracle := validator script;
     faultOracle := fun _ _ => None |}.

(** A file system in which the paths below [dir] cannot be reached, for
    [reason] ([dir] is a regular file: not a directory; [dir] may not be
    searched: permission denied): every call of package os on such a
    path fails. *)
Definition below (dir : string) (op : FileOp) : bool :=
  match op with
  | OpStat p | OpCreate p | OpReadFile p | OpWriteFile p _ =>
      String.prefix (dir +:+ "/") p
  end.

Definition unreachable (dir reason : string) : Env :=
  {| askOracle := service None;
     runOracle := validator [];
     faultOracle := fun _ op => if below dir op then Some reason else None |}.

(** The tool ran and reported a problem. *)
Definition diagnostic : string * option ExecFailure :=
  ("Error: Expected ';' but got '}'", Some (ExitFailure 1)).

(** The tool could not be started. *)
Definition notStarted : string * option ExecFailure :=
  ("", Some (SpawnFailure "exec: crytic-compile: executable file not found in $PATH")).

Definition passed : string * option ExecFailure := ("", None).

Definition Foo : Contract := {| Name := "Foo"; SourcePath := "contracts/Foo.sol" |}.
Definition Bar : Contract := {| Name := "Bar"; SourcePath := "contracts/Bar.sol" |}.
Definition Baz : Contract := {| Name := "Baz"; SourcePath := "contracts/Baz.sol" |}.
Definition Qux : Contract := {| Name := "Qux"; SourcePath := "blocker/Qux.sol" |}.

Definition disk : gmap string string :=
  {[ "contracts/Foo.sol" := "contract Foo {}";
     "contracts/Bar.sol" := "contract Bar {}";
     "contracts/Baz.sol" := "contract Baz {}" ]}.

(** The same files, and a regular file where the source path of [Qux]
    has a directory. *)
Definition blockedDisk : gmap string string :=
  <["blocker" := "not a directory"]> disk.

End Stub.

(** The history of the first request of a log, if it has one. *)
Fixpoint firstRequest (log : list Event) : option (list Message) :=
  match log with
  | [] => None
  | EvAsk history _ :: _ => Some history
  | _ :: rest => firstRequest rest
  end.

(** The messages of a sequence of repair cycles, each given by the
    standard error it reports and the reply it gets. *)
Fixpoint exchanges (cycles : list (string * string)) : list Message :=
  match cycles with
  | [] => []
  | (stdErr, response) :: rest =>
      repairRequest stdErr :: reply response :: exchanges rest
  end.

(** C1 as the specification states it: a validator that could not be
    started ends the run with its error. *)
Definition abortsOnToolFailure (env : Env) (fuel : nat)
  (contractDefinitions : list Contract) (s : State) : Prop :=
  let run := GenerateFuzzingHarness env fuel contractDefinitions s in
  forall i argv stdErr reason,
    calls (fst run) !! i
    = Some (EvRun argv stdErr (Some (CommandError (SpawnFailure reason)))) ->
    snd run = Err (CommandError (SpawnFailure reason)).

(** The call [ev] names the file [path]. *)
Definition concerns (path : string) (ev : Event) : bool :=
  match ev with
  | EvStat p _ | EvCreate p _ | EvReadFile p _ | EvWriteFile p _ _ =>
      bool_decide (p = path)
  | EvRun argv _ _ => bool_decide (path ∈ argv)
  | EvAsk _ _ => false
  end.

(** C2 as the specification states it: in a run that the service ends, no
    call names the artifact of a contract definition that comes after the
    one being processed. *)
Definition sparesLaterUnits (log : list Event) (later : list Contract) : Prop :=
  forall cd, cd ∈ later ->
    countCalls (concerns (generateTestFilePath (SourcePath cd))) log = 0.

(** C5 as the specification states it: a pass for one contract
    definition whose artifact is missing, if it returns no error, has
    created the artifact, empty. *)
Definition createsWhenAbsent (env : Env) (contractDefinition : Contract)
  (s : State) : Prop :=
  let run := createTestFiles env [contractDefinition] s in
  let artifact := generateTestFilePath (SourcePath contractDefinition) in
  files s !! artifact = None ->
  snd run = Ok tt ->
  files (fst run) !! artifact = Some "".

(** C3 as the specification states it. *)
Definition claimedHistoryLength (seedCount : nat) (cycles : list nat) : nat :=
  seedCount + 2 * (1 + sum_list cycles).

(** ** Paths *)

(** No separator in an element. *)
Definition noSep (e : list ascii) : Prop := Forall (fun c => isSep c = false) e.

(** An element that names a file or a directory: not empty, not [.] and
    not [..]. *)
Definition isName (e : list ascii) : bool :=
  match e with
  | [] => false
  | _ => negb (filepath.isDotElem e) && negb (filepath.isDotDotElem e)
  end.

(** The directory part of a path, as [Clean] writes it when a name
    follows: the elements it keeps, each followed by a separator, after
    the separator of the root if there is one. *)
Definition cleanDir (dir : list ascii) : list ascii :=
  match dir with
  | [] => []
  | _ =>
      let rooted := filepath.isRooted dir in
      let kept := filepath.cleanElements rooted (filepath.elements dir) in
      (if rooted then ["/"%char] else [])
        ++ match kept with
           | [] => []
           | _ :: _ => filepath.joinSep kept ++ ["/"%char]
           end
  end.

(** C6 as the specification states it: the path with the marker inserted
    at the end of the base filename, before the extension, and nothing
    else changed. *)
Definition insertMarker (filePath : list ascii) : list ascii :=
  let '(dir, file) := filepath.Split filePath in
  let ext := filepath.Ext file in
  dir ++ strings.TrimSuffix file ext ++ fuzzMarker ++ ext.

(** ** More to read in logs and histories *)

(** A write that succeeded. *)
Definition isStored (ev : Event) : bool :=
  match ev with EvWriteFile _ _ None => true | _ => false end.

(** The artifact of a contract definition. *)
Definition artifactOf (contractDefinition : Contract) : string :=
  generateTestFilePath (SourcePath contractDefinition).

#[global] Instance Message_eq_dec : EqDecision Message.
Proof. solve_decision. Defined.

(** The history the calls of a log leave, from the history before them.
    Each request of the log must have been made with the whole history
    of its moment and one more message, of the user; the reply it got, if
    it got one, is the next message.  [None] when a request of the log
    was made with another history. *)
Fixpoint conversation (history : list Message) (log : list Event)
  : option (list Message) :=
  match log with
  | [] => Some history
  | EvAsk sent res :: rest =>
      match last sent with
      | Some request =>
          if bool_decide (sent = history ++ [request])
             && String.eqb (Role request) "user"
          then conversation
                 (match res with
                  | Ok response => sent ++ [reply response]
                  | _ => sent
                  end) rest
          else None
      | None => None
      end
  | _ :: rest => conversation history rest
  end.

(** The call is os.Stat on [path], and it did not tell that the file is
    missing. *)
Definition statKeeps (path : string) (ev : Event) : Prop :=
  exists res, ev = EvStat path res /\ res <> StatNotExist.

(** Messages whose roles alternate, [user] first when [user] is set. *)
Fixpoint dialogue (user : bool) (ms : list Message) : bool :=
  match ms with
  | [] => true
  | m :: rest =>
      String.eqb (Role m) (if user then "user" else "system")
      && dialogue (negb user) rest
  end.

(** A validation is in order when it is run on the artifact, just after
    a write to the artifact that succeeded. *)
Definition validated (artifact : string) (before : option Event) (ev : Event) : bool :=
  match ev, before with
  | EvRun argv _ _, Some (EvWriteFile path _ None) =>
      bool_decide (path = artifact) && bool_decide (argv = validateArgv artifact)
  | EvRun _ _ _, _ => false
  | _, _ => true
  end.

Fixpoint runsFollowWrites (artifact : string) (before : option Event)
  (log : list Event) : bool :=
  match log with
  | [] => true
  | ev :: rest =>
      validated artifact before ev && runsFollowWrites artifact (Some ev) rest
  end.

(** ** More stubs: a file system that refuses, contracts of one file *)

Module Scene.

Definition statOf (path : string) (op : FileOp) : bool :=
  match op with OpStat p => bool_decide (p = path) | _ => false end.

Definition createOf (path : string) (op : FileOp) : bool :=
  match op with OpCreate p => bool_decide (p = path) | _ => false end.

Definition writeOf (path : string) (op : FileOp) : bool :=
  match op with OpWriteFile p _ => bool_decide (p = path) | _ => false end.

Definition nothing (op : FileOp) : bool := false.

(** A world whose file system refuses the operations [refused], whose
    service answers and whose validator follows a script and then keeps
    giving [verdict]. *)
Definition world (refused : FileOp -> bool)
  (script : list (string * option ExecFailure))
  (verdict : string * option ExecFailure) : Env :=
  {| askOracle := Stub.service None;
     runOracle := fun log fs argv => default verdict (script !! countCalls isRun log);
     faultOracle := fun log op =>
       if refused op then Some "permission denied" else None |}.

(** Two contracts declared in one source file. *)
Definition Token : Contract := {| Name := "Token"; SourcePath := "src/Token.sol" |}.
Definition Sale : Contract := {| Name := "Sale"; SourcePath := "src/Token.sol" |}.

Definition disk : gmap string string :=
  {[ "src/Token.sol" := "contract Token {} contract Sale {}" ]}.

Definition start (fs : gmap string string) : State :=
  {| messages := []; files := fs; calls := [] |}.

End Scene.

(** * Properties *)

(** ** The calls, one by one *)

Section Calls.

Variable env : Env.

Lemma osReadFile_eq path s :
  osReadFile env path s = (afterRead env path s, readResult env s path).
Proof.
  unfold osReadFile, afterRead, readResult.
  destruct (faultOracle env (calls s) (OpReadFile path)); [reflexivity|].
  destruct (files s !! path); reflexivity.
Qed.

Lemma osWriteFile_ok path data s :
  faultOracle env (calls s) (OpWriteFile path data) = None ->
  osWriteFile env path data s = (afterWrite path data s, Ok tt).
Proof. intros H. unfold osWriteFile. rewrite H. reflexivity. Qed.

Lemma osWriteFile_fault path data s reason :
  faultOracle env (calls s) (OpWriteFile path data) = Some reason ->
  osWriteFile env path data s
  = (afterWriteFault path data reason s, Err (PathError "write" path reason)).
Proof. intros H. unfold osWriteFile. rewrite H. reflexivity. Qed.

Lemma validateTestFile_eq testFilePath s :
  validateTestFile env testFilePath s
  = (afterRun testFilePath
       (fst (runOracle env (calls s) (files s) (validateArgv testFilePath)))
       (snd (runOracle env (calls s) (files s) (validateArgv testFilePath))) s,
     Ok (fst (runOracle env (calls s) (files s) (validateArgv testFilePath)),
         CommandError <$>
           snd (runOracle env (calls s) (files s) (validateArgv testFilePath)))).
Proof.
  unfold validateTestFile, RunCommandWithOutputAndError, afterRun, validateArgv.
  destruct (runOracle env (calls s) (files s) _) as [stdErr failure].
  reflexivity.
Qed.

Lemma processMessage_reply message s response :
  askOracle env (calls s) (messages s ++ [message]) = inl response ->
  processMessageWithGPT4Turbo env message s
  = (afterReply message response s, Ok response).
Proof.
  intros H. unfold processMessageWithGPT4Turbo, bind, appendMessage,
    getMessages, AskGPT4Turbo, ret. simpl. rewrite H. reflexivity.
Qed.

Lemma processMessage_refusal message s reason :
  askOracle env (calls s) (messages s ++ [message]) = inr reason ->
  processMessageWithGPT4Turbo env message s
  = (afterRefusal message reason s, Err (ServiceError reason)).
Proof.
  intros H. unfold processMessageWithGPT4Turbo, bind, appendMessage,
    getMessages, AskGPT4Turbo, ret. simpl. rewrite H. reflexivity.
Qed.

(** The loop, unfolded once. *)
Lemma repairLoop_unfold fuel cd testFilePath s :
  repairLoop env (S fuel) cd testFilePath s
  = let '(stdErr, failure) :=
      runOracle env (calls s) (files s) (validateArgv testFilePath) in
    let s1 := afterRun testFilePath stdErr failure s in
    match failure with
    | None => (s1, Ok tt)
    | Some _ =>
        match processMessageWithGPT4Turbo env (repairRequest stdErr) s1 with
        | (s2, Ok response) =>
            match osWriteFile env (generateTestFilePath (SourcePath cd)) response s2 with
            | (s3, Ok _) => repairLoop env fuel cd testFilePath s3
            | (s3, Err e) => (s3, Err e)
            | (s3, OutOfFuel) => (s3, OutOfFuel)
            end
        | (s2, Err e) => (s2, Err e)
        | (s2, OutOfFuel) => (s2, OutOfFuel)
        end
    end.
Proof.
  simpl. unfold bind at 1. rewrite validateTestFile_eq.
  destruct (runOracle env (calls s) (files s) (validateArgv testFilePath))
    as [stdErr [failure|]]; reflexivity.
Qed.

Lemma repairLoop_run fuel cd testFilePath s s' r :
  repairLoop env fuel cd testFilePath s = (s', r) ->
  RepairRun env cd testFilePath s s' r.
Proof.
  revert s. induction fuel as [|fuel IH]; intros s H.
  - simpl in H. injection H as <- <-. constructor.
  - rewrite repairLoop_unfold in H.
    destruct (runOracle env (calls s) (files s) (validateArgv testFilePath))
      as [stdErr [failure|]] eqn:Hrun; cbv zeta in H.
    + destruct (askOracle env (calls (afterRun testFilePath stdErr (Some failure) s))
                 (messages (afterRun testFilePath stdErr (Some failure) s)
                    ++ [repairRequest stdErr])) as [response|reason] eqn:Hask.
      * rewrite (processMessage_reply _ _ _ Hask) in H.
        destruct (faultOracle env
                    (calls (afterReply (repairRequest stdErr) response
                              (afterRun testFilePath stdErr (Some failure) s)))
                    (OpWriteFile (generateTestFilePath (SourcePath cd)) response))
          as [reason|] eqn:Hw.
        -- rewrite (osWriteFile_fault _ _ _ _ Hw) in H. injection H as <- <-.
           eapply RepairWriteFault; eassumption.
        -- rewrite (osWriteFile_ok _ _ _ Hw) in H.
           eapply RepairAgain; eauto.
      * rewrite (processMessage_refusal _ _ _ Hask) in H. injection H as <- <-.
        eapply RepairRefused; eassumption.
    + injection H as <- <-. apply RepairPass. assumption.
Qed.

Lemma harnessFor_unfold fuel cd s :
  harnessFor env fuel cd s
  = let artifact := generateTestFilePath (SourcePath cd) in
    match readResult env s (SourcePath cd) with
    | Ok code =>
        let s1 := afterRead env (SourcePath cd) s in
        match readResult env s1 artifact with
        | Ok test =>
            let s2 := afterRead env artifact s1 in
            match processMessageWithGPT4Turbo env (generationRequest cd code test) s2 with
            | (s3, Ok response) =>
                match osWriteFile env artifact response s3 with
                | (s4, Ok _) => repairLoop env fuel cd artifact s4
                | (s4, Err e) => (s4, Err e)
                | (s4, OutOfFuel) => (s4, OutOfFuel)
                end
            | (s3, Err e) => (s3, Err e)
            | (s3, OutOfFuel) => (s3, OutOfFuel)
            end
        | Err e => (afterRead env artifact s1, Err e)
        | OutOfFuel => (afterRead env artifact s1, OutOfFuel)
        end
    | Err e => (afterRead env (SourcePath cd) s, Err e)
    | OutOfFuel => (afterRead env (SourcePath cd) s, OutOfFuel)
    end.
Proof.
  unfold harnessFor. unfold bind at 1. rewrite osReadFile_eq.
  destruct (readResult env s (SourcePath cd)) as [code|e|]; try reflexivity.
  unfold bind at 1. rewrite osReadFile_eq.
  destruct (readResult env _ (generateTestFilePath (SourcePath cd)))
    as [test|e|]; try reflexivity.
  cbv zeta.
  unfold processMessageWithGPT4Turbo, bind, appendMessage, getMessages, ret.
  simpl.
  destruct (AskGPT4Turbo env _ _) as [s3 [response|e|]]; reflexivity.
Qed.

Lemma readResult_returns s path : readResult env s path <> OutOfFuel.
Proof.
  unfold readResult.
  destruct (faultOracle env (calls s) (OpReadFile path)); [discriminate|].
  destruct (files s !! path); discriminate.
Qed.

Lemma harnessFor_run fuel cd s s' r :
  harnessFor env fuel cd s = (s', r) -> HarnessRun env cd s s' r.
Proof.
  intros H. rewrite harnessFor_unfold in H. cbv zeta in H.
  destruct (readResult env s (SourcePath cd)) as [code|e|] eqn:Hsrc.
  - destruct (readResult env (afterRead env (SourcePath cd) s)
                (generateTestFilePath (SourcePath cd))) as [test|e|] eqn:Htest.
    + set (s2 := afterRead env (generateTestFilePath (SourcePath cd))
                   (afterRead env (SourcePath cd) s)) in *.
      destruct (askOracle env (calls s2)
                  (messages s2 ++ [generationRequest cd code test]))
        as [response|reason] eqn:Hask.
      * rewrite (processMessage_reply _ _ _ Hask) in H.
        destruct (faultOracle env
                    (calls (afterReply (generationRequest cd code test) response s2))
                    (OpWriteFile (generateTestFilePath (SourcePath cd)) response))
          as [reason|] eqn:Hw.
        -- rewrite (osWriteFile_fault _ _ _ _ Hw) in H. injection H as <- <-.
           eapply HarnessWriteFault; eassumption.
        -- rewrite (osWriteFile_ok _ _ _ Hw) in H.
           eapply HarnessRepair; eauto using repairLoop_run.
      * rewrite (processMessage_refusal _ _ _ Hask) in H. injection H as <- <-.
        eapply HarnessRefused; eassumption.
    + injection H as <- <-. eapply HarnessNoArtifact; eassumption.
    + exfalso. eapply readResult_returns; eassumption.
  - injection H as <- <-. apply HarnessNoSource. assumption.
  - exfalso. eapply readResult_returns; eassumption.
Qed.

End Calls.

Arguments GenerateFuzzHarnessPrompt : simpl never.
Arguments RegenerateFuzzHarnessPrompt : simpl never.
Arguments generateTestFilePath : simpl never.

Ltac open_states :=
  unfold afterRun, afterReply, afterRefusal, afterWrite, afterWriteFault,
    afterRead, logCall, setFile, pushMessage in *; simpl in *.

(** ** Counting in the log *)

Lemma countCalls_app which log1 log2 :
  countCalls which (log1 ++ log2) = countCalls which log1 + countCalls which log2.
Proof. induction log1 as [|ev log1 IH]; simpl; [reflexivity|]. rewrite IH. lia. Qed.

Lemma prefix_extend {A} (l k : list A) : l `prefix_of` l ++ k.
Proof. by exists k. Qed.

Ltac grow :=
  first [ apply prefix_extend
        | rewrite <- ?app_assoc; apply prefix_extend
        | eexists; rewrite <- ?app_assoc; simpl; reflexivity ].

(** ** The repair loop, by induction on its runs *)

Section RepairFacts.

Variable env : Env.
Variable cd : Contract.
Variable testFilePath : string.

Abbreviation artifact := (generateTestFilePath (SourcePath cd)).

(** The history and the log only grow. *)
Lemma RepairRun_grows s s' r :
  RepairRun env cd testFilePath s s' r ->
  messages s `prefix_of` messages s' /\ calls s `prefix_of` calls s'.
Proof.
  induction 1 as [s stdErr Hrun | s stdErr failure reason Hrun s1 Hask
                 | s stdErr failure response reason Hrun s1 Hask s2 Hw
                 | s stdErr failure response s' r Hrun s1 Hask s2 Hw Hrest IH
                 | s ].
  - open_states. split; [reflexivity | grow].
  - subst s1. open_states. split; grow.
  - subst s1 s2. open_states. split.
    + grow.
    + grow.
  - destruct IH as [IHm IHc]. subst s1 s2. open_states. split.
    + etrans; [|exact IHm]. grow.
    + etrans; [|exact IHc]. grow.
  - split; reflexivity.
Qed.

(** Only the artifact is written. *)
Lemma RepairRun_frame s s' r path :
  RepairRun env cd testFilePath s s' r ->
  path <> artifact -> files s' !! path = files s !! path.
Proof.
  intros Hrun Hne.
  induction Hrun as [s stdErr Hrun | s stdErr failure reason Hrun s1 Hask
                 | s stdErr failure response reason Hrun s1 Hask s2 Hw
                 | s stdErr failure response s' r Hrun s1 Hask s2 Hw Hrest IH
                 | s ]; try reflexivity.
  rewrite IH. subst s1 s2. open_states. by apply lookup_insert_ne.
Qed.

(** A file that is there stays there. *)
Lemma RepairRun_keeps s s' r path :
  RepairRun env cd testFilePath s s' r ->
  is_Some (files s !! path) -> is_Some (files s' !! path).
Proof.
  intros Hrun.
  induction Hrun as [s stdErr Hrun | s stdErr failure reason Hrun s1 Hask
                 | s stdErr failure response reason Hrun s1 Hask s2 Hw
                 | s stdErr failure response s' r Hrun s1 Hask s2 Hw Hrest IH
                 | s ]; try (intros; assumption).
  intros Hsome. apply IH. subst s1 s2. open_states.
  rewrite lookup_insert. case_decide; [eauto | assumption].
Qed.

(** Two messages for each validation that failed, when the loop is left
    by [break]. *)
Lemma RepairRun_ledger s s' :
  RepairRun env cd testFilePath s s' (Ok tt) ->
  length (messages s') + 2 * failedRuns s
  = length (messages s) + 2 * failedRuns s'.
Proof.
  intros Hrun. remember (Ok tt) as r eqn:Hr.
  induction Hrun as [s stdErr Hrun | s stdErr failure reason Hrun s1 Hask
                 | s stdErr failure response reason Hrun s1 Hask s2 Hw
                 | s stdErr failure response s' r Hrun s1 Hask s2 Hw Hrest IH
                 | s ]; try discriminate.
  - unfold failedRuns. open_states. rewrite countCalls_app. simpl. lia.
  - specialize (IH Hr). subst s1 s2. unfold failedRuns in *. open_states.
    rewrite !length_app in IH. rewrite !countCalls_app in IH. simpl in IH. lia.
Qed.

Lemma RepairRun_failedRuns_mono s s' r :
  RepairRun env cd testFilePath s s' r -> failedRuns s <= failedRuns s'.
Proof.
  intros Hrun. apply RepairRun_grows in Hrun as [_ [log Hlog]].
  unfold failedRuns. rewrite Hlog, countCalls_app. lia.
Qed.

(** How the loop is left: by a validation that passed, or by the error of
    the request or of the write that failed, which is then the last call. *)
Lemma RepairRun_exit s s' r :
  RepairRun env cd testFilePath s s' r ->
  match r with
  | Ok _ => exists stdErr,
      last (calls s') = Some (EvRun (validateArgv testFilePath) stdErr None)
  | Err e =>
      (exists history reason,
          e = ServiceError reason /\
          last (calls s') = Some (EvAsk history (Err e)))
      \/ (exists data reason,
          e = PathError "write" artifact reason /\
          last (calls s') = Some (EvWriteFile artifact data (Some e)))
  | OutOfFuel => True
  end.
Proof.
  induction 1 as [s stdErr Hrun | s stdErr failure reason Hrun s1 Hask
                 | s stdErr failure response reason Hrun s1 Hask s2 Hw
                 | s stdErr failure response s' r Hrun s1 Hask s2 Hw Hrest IH
                 | s ]; try assumption; try exact I.
  - exists stdErr. open_states. by rewrite last_snoc.
  - left. eexists _, reason. split; [reflexivity|]. subst s1. open_states.
    by rewrite last_snoc.
  - right. exists response, reason. split; [reflexivity|]. subst s1 s2.
    open_states. by rewrite last_snoc.
Qed.

(** A request that the service refuses stays in the history, as its last
    message: the refused call was made with the history as it is left. *)
Lemma RepairRun_refused_request s s' reason :
  RepairRun env cd testFilePath s s' (Err (ServiceError reason)) ->
  exists history stdErr,
    messages s' = history ++ [repairRequest stdErr]
    /\ messages s `prefix_of` history
    /\ last (calls s') = Some (EvAsk (messages s') (Err (ServiceError reason))).
Proof.
  intros Hrun. remember (Err (ServiceError reason)) as r eqn:Hr.
  induction Hrun as [s stdErr Hrun | s stdErr failure reason' Hrun s1 Hask
                 | s stdErr failure response reason' Hrun s1 Hask s2 Hw
                 | s stdErr failure response s' r Hrun s1 Hask s2 Hw Hrest IH
                 | s ]; try discriminate.
  - injection Hr as ->. exists (messages s), stdErr. subst s1. open_states.
    repeat split; try reflexivity. by rewrite last_snoc.
  - destruct (IH Hr) as (history & stdErr' & Hm & Hp & Hlast).
    exists history, stdErr'. repeat split; try assumption.
    etrans; [|exact Hp]. subst s1 s2. open_states. grow.
Qed.

Lemma RepairRun_persisted s s' r :
  RepairRun env cd testFilePath s s' r -> Persisted artifact s ->
  match r with Err _ => True | _ => Persisted artifact s' end.
Proof.
  induction 1 as [s stdErr Hrun | s stdErr failure reason' Hrun s1 Hask
                 | s stdErr failure response reason' Hrun s1 Hask s2 Hw
                 | s stdErr failure response s' r Hrun s1 Hask s2 Hw Hrest IH
                 | s ]; try (intros; exact I).
  - intros H. exact H.
  - intros _. apply IH. subst s1 s2. unfold Persisted. open_states.
    eexists _, response. split; [reflexivity|]. apply lookup_insert_eq.
  - intros H. exact H.
Qed.

(** Each write of the loop follows the request whose reply it stores. *)
Lemma RepairRun_verbatim s s' r :
  RepairRun env cd testFilePath s s' r ->
  exists log, calls s' = calls s ++ log
    /\ forall before, writesVerbatim artifact before log = true.
Proof.
  induction 1 as [s stdErr Hrun | s stdErr failure reason Hrun s1 Hask
                 | s stdErr failure response reason Hrun s1 Hask s2 Hw
                 | s stdErr failure response s' r Hrun s1 Hask s2 Hw Hrest IH
                 | s ].
  - eexists. open_states. split; [reflexivity|]. reflexivity.
  - eexists. subst s1. open_states. rewrite <- app_assoc.
    split; [reflexivity|]. reflexivity.
  - eexists. subst s1 s2. open_states. rewrite <- !app_assoc.
    split; [reflexivity|]. intros before. simpl.
    by rewrite !bool_decide_eq_true_2.
  - destruct IH as (log & Hlog & Hv). subst s1 s2. open_states.
    rewrite <- !app_assoc in Hlog. simpl in Hlog.
    eexists. split; [exact Hlog|]. intros before. simpl.
    rewrite !bool_decide_eq_true_2 by reflexivity. simpl. apply Hv.
  - exists []. split; [by rewrite app_nil_r | reflexivity].
Qed.

End RepairFacts.

(** ** One contract definition *)

Section HarnessFacts.

Variable env : Env.
Variable cd : Contract.

Abbreviation artifact := (generateTestFilePath (SourcePath cd)).

Lemma HarnessRun_grows s s' r :
  HarnessRun env cd s s' r ->
  messages s `prefix_of` messages s' /\ calls s `prefix_of` calls s'.
Proof.
  destruct 1 as [s e Hsrc | s code e Hsrc s1 Htest
                | s code test reason Hsrc s1 Htest s2 request Hask
                | s code test response reason Hsrc s1 Htest s2 request Hask s3 Hw
                | s code test response s' r Hsrc s1 Htest s2 request Hask s3 Hw Hrest].
  - open_states. split; [reflexivity | grow].
  - subst s1. open_states. split; [reflexivity | grow].
  - subst s1 s2. open_states. split; grow.
  - subst s1 s2 s3. open_states. split; grow.
  - apply RepairRun_grows in Hrest as [Hm Hc]. subst s1 s2 s3. open_states.
    split; (etrans; [|eassumption]); grow.
Qed.

Lemma HarnessRun_frame s s' r path :
  HarnessRun env cd s s' r ->
  path <> artifact -> files s' !! path = files s !! path.
Proof.
  intros Hrun Hne.
  destruct Hrun as [s e Hsrc | s code e Hsrc s1 Htest
                | s code test reason Hsrc s1 Htest s2 request Hask
                | s code test response reason Hsrc s1 Htest s2 request Hask s3 Hw
                | s code test response s' r Hsrc s1 Htest s2 request Hask s3 Hw Hrest];
    try reflexivity.
  rewrite (RepairRun_frame _ _ _ _ _ _ _ Hrest Hne).
  subst s1 s2 s3. open_states. by apply lookup_insert_ne.
Qed.

Lemma HarnessRun_keeps s s' r path :
  HarnessRun env cd s s' r ->
  is_Some (files s !! path) -> is_Some (files s' !! path).
Proof.
  intros Hrun Hsome.
  destruct Hrun as [s e Hsrc | s code e Hsrc s1 Htest
                | s code test reason Hsrc s1 Htest s2 request Hask
                | s code test response reason Hsrc s1 Htest s2 request Hask s3 Hw
                | s code test response s' r Hsrc s1 Htest s2 request Hask s3 Hw Hrest];
    try assumption.
  eapply RepairRun_keeps; [eassumption|].
  subst s1 s2 s3. open_states.
  rewrite lookup_insert. case_decide; [eauto | assumption].
Qed.

(** One request and one reply for the generation, two messages for each
    validation that failed. *)
Lemma HarnessRun_ledger s s' :
  HarnessRun env cd s s' (Ok tt) ->
  length (messages s') + 2 * failedRuns s
  = length (messages s) + 2 * (1 + failedRuns s').
Proof.
  intros Hrun. remember (Ok tt) as r eqn:Hr.
  destruct Hrun as [s e Hsrc | s code e Hsrc s1 Htest
                | s code test reason Hsrc s1 Htest s2 request Hask
                | s code test response reason Hsrc s1 Htest s2 request Hask s3 Hw
                | s code test response s' r Hsrc s1 Htest s2 request Hask s3 Hw Hrest];
    try discriminate.
  subst r. apply RepairRun_ledger in Hrest.
  subst s1 s2 s3. unfold failedRuns in *. open_states.
  rewrite !length_app in Hrest. rewrite !countCalls_app in Hrest.
  simpl in Hrest.
  destruct (readResult env s (SourcePath cd)); simpl in Hrest;
    destruct (readResult env _ artifact); simpl in Hrest; lia.
Qed.

Lemma HarnessRun_failedRuns_mono s s' r :
  HarnessRun env cd s s' r -> failedRuns s <= failedRuns s'.
Proof.
  intros Hrun. apply HarnessRun_grows in Hrun as [_ [log Hlog]].
  unfold failedRuns. rewrite Hlog, countCalls_app. lia.
Qed.

Lemma RepairRun_fatal testFilePath s s' e :
  RepairRun env cd testFilePath s s' (Err e) -> isFatal e = true.
Proof.
  intros Hrun. apply RepairRun_exit in Hrun.
  destruct Hrun as [(h & reason & -> & _) | (d & reason & -> & _)]; reflexivity.
Qed.

Lemma readResult_fatal s path e :
  readResult env s path = Err e -> isFatal e = true.
Proof.
  unfold readResult.
  destruct (faultOracle env (calls s) (OpReadFile path)).
  - intros [= <-]. reflexivity.
  - destruct (files s !! path); [discriminate|]. intros [= <-]. reflexivity.
Qed.


(** After a refusal the history ends with the request that was refused. *)
Lemma HarnessRun_refused_request s s' reason :
  HarnessRun env cd s s' (Err (ServiceError reason)) ->
  exists history request,
    messages s' = history ++ [request]
    /\ Role request = "user"
    /\ messages s `prefix_of` history
    /\ last (calls s') = Some (EvAsk (messages s') (Err (ServiceError reason))).
Proof.
  intros Hrun. remember (Err (ServiceError reason)) as r eqn:Hr.
  destruct Hrun as [s e' Hsrc | s code e' Hsrc s1 Htest
                | s code test reason' Hsrc s1 Htest s2 request Hask
                | s code test response reason' Hsrc s1 Htest s2 request Hask s3 Hw
                | s code test response s' r Hsrc s1 Htest s2 request Hask s3 Hw Hrest].
  - injection Hr as ->. unfold readResult in Hsrc.
    destruct (faultOracle env (calls s) _); [discriminate|].
    destruct (files s !! _); discriminate.
  - injection Hr as ->. unfold readResult in Htest.
    destruct (faultOracle env (calls s1) _); [discriminate|].
    destruct (files s1 !! _); discriminate.
  - injection Hr as ->. exists (messages s), request.
    subst s1 s2. open_states. repeat split; try reflexivity.
    by rewrite last_snoc.
  - discriminate.
  - subst r.
    apply RepairRun_refused_request in Hrest as (history & stdErr & Hm & Hp & Hlast).
    exists history, (repairRequest stdErr). repeat split; try assumption.
    etrans; [|exact Hp]. subst s1 s2 s3. open_states. grow.
Qed.

End HarnessFacts.

(** ** The whole run *)

Section RunFacts.

Variable env : Env.

Lemma generateFuzzingHarness_cons fuel cd rest s :
  generateFuzzingHarness env fuel (cd :: rest) s
  = match harnessFor env fuel cd s with
    | (s1, Ok _) => generateFuzzingHarness env fuel rest s1
    | (s1, Err e) => (s1, Err e)
    | (s1, OutOfFuel) => (s1, OutOfFuel)
    end.
Proof. reflexivity. Qed.

Lemma statResult_found s path :
  statResult env s path = StatFound -> is_Some (files s !! path).
Proof.
  unfold statResult. destruct (faultOracle env _ _); [discriminate|].
  destruct (bool_decide _) eqn:Hfound; [|discriminate].
  intros _. by apply bool_decide_eq_true in Hfound.
Qed.

Lemma statResult_notExist s path :
  statResult env s path = StatNotExist -> files s !! path = None.
Proof.
  unfold statResult. destruct (faultOracle env _ _); [discriminate|].
  destruct (bool_decide _) eqn:Hfound; [discriminate|].
  intros _. apply bool_decide_eq_false in Hfound.
  by apply eq_None_not_Some.
Qed.

Lemma statResult_failed s path reason :
  statResult env s path = StatFailed reason ->
  faultOracle env (calls s) (OpStat path) = Some reason.
Proof.
  unfold statResult. destruct (faultOracle env _ _); [congruence|].
  destruct (bool_decide _); discriminate.
Qed.

Lemma statResult_present s path data :
  files s !! path = Some data -> statResult env s path <> StatNotExist.
Proof.
  intros Hdata Hres. apply statResult_notExist in Hres. congruence.
Qed.

Lemma createTestFiles_cons cd rest s :
  createTestFiles env (cd :: rest) s
  = let artifact := generateTestFilePath (SourcePath cd) in
    let res := statResult env s artifact in
    let s1 := logCall (EvStat artifact res) s in
    match res with
    | StatNotExist =>
        match faultOracle env (calls s1) (OpCreate artifact) with
        | Some reason =>
            (logCall (EvCreate artifact (Some (PathError "open" artifact reason))) s1,
             Err (PathError "open" artifact reason))
        | None =>
            createTestFiles env rest
              (logCall (EvCreate artifact None) (setFile artifact "" s1))
        end
    | StatFound | StatFailed _ => createTestFiles env rest s1
    end.
Proof.
  cbn [createTestFiles]. unfold bind at 1. unfold osStat. cbv zeta.
  fold (statResult env s (generateTestFilePath (SourcePath cd))).
  destruct (statResult env s (generateTestFilePath (SourcePath cd))).
  - reflexivity.
  - unfold bind at 1. unfold osCreate.
    destruct (faultOracle env _ _); reflexivity.
  - reflexivity.
Qed.

(** The first pass: what it leaves alone and what it ensures.  An
    artifact is there after a pass that returned no error, unless os.Stat
    failed on it. *)
Lemma createTestFiles_spec cds s s' r :
  createTestFiles env cds s = (s', r) ->
  messages s' = messages s
  /\ calls s `prefix_of` calls s'
  /\ failedRuns s' = failedRuns s
  /\ (forall path data, files s !! path = Some data -> files s' !! path = Some data)
  /\ match r with
     | Ok _ => forall cd, cd ∈ cds ->
                 is_Some (files s' !! generateTestFilePath (SourcePath cd))
                 \/ exists log reason,
                      faultOracle env log (OpStat (generateTestFilePath (SourcePath cd)))
                      = Some reason
     | Err e => isFatal e = true
                /\ exists ev, last (calls s') = Some ev /\ failedWith e ev
     | OutOfFuel => False
     end.
Proof.
  revert s. induction cds as [|cd rest IH]; intros s H.
  - injection H as <- <-. repeat split; try reflexivity; try (intros; assumption).
    intros cd Hin. by apply elem_of_nil in Hin.
  - rewrite createTestFiles_cons in H. cbv zeta in H.
    destruct (statResult env s (generateTestFilePath (SourcePath cd)))
      as [| |why] eqn:Hres.
    + apply IH in H as (Hm & Hc & Hf & Hkeep & Hr).
      apply statResult_found in Hres.
      unfold failedRuns in *. open_states.
      repeat split.
      * assumption.
      * etrans; [|exact Hc]. grow.
      * rewrite Hf, countCalls_app. simpl. lia.
      * assumption.
      * destruct r as [[]|e|]; [|assumption..].
        intros cd' Hin. apply elem_of_cons in Hin as [->|Hin]; [|by apply Hr].
        left. destruct Hres as [data Hdata]. rewrite (Hkeep _ _ Hdata). eauto.
    + apply statResult_notExist in Hres.
      destruct (faultOracle env _ _) as [reason|] eqn:Hfault.
      * injection H as <- <-. unfold failedRuns. open_states.
        repeat split; try reflexivity.
        -- grow.
        -- rewrite !countCalls_app. simpl. lia.
        -- intros; assumption.
        -- eexists. rewrite last_snoc. split; [reflexivity|]. reflexivity.
      * apply IH in H as (Hm & Hc & Hf & Hkeep & Hr).
        unfold failedRuns in *. open_states.
        assert (Hnew : forall path data, files s !! path = Some data ->
                  <[generateTestFilePath (SourcePath cd) := ""]> (files s) !! path
                  = Some data).
        { intros path data Hdata. rewrite lookup_insert_ne; [assumption|].
          intros <-. congruence. }
        repeat split.
        -- assumption.
        -- etrans; [|exact Hc]. grow.
        -- rewrite Hf, !countCalls_app. simpl. lia.
        -- intros path data Hdata. apply Hkeep, Hnew, Hdata.
        -- destruct r as [[]|e|]; [|assumption..].
           intros cd' Hin. apply elem_of_cons in Hin as [->|Hin]; [|by apply Hr].
           left. rewrite (Hkeep (generateTestFilePath (SourcePath cd)) "").
           ++ eauto.
           ++ apply lookup_insert_eq.
    + apply IH in H as (Hm & Hc & Hf & Hkeep & Hr).
      apply statResult_failed in Hres.
      unfold failedRuns in *. open_states.
      repeat split.
      * assumption.
      * etrans; [|exact Hc]. grow.
      * rewrite Hf, countCalls_app. simpl. lia.
      * assumption.
      * destruct r as [[]|e|]; [|assumption..].
        intros cd' Hin. apply elem_of_cons in Hin as [->|Hin]; [|by apply Hr].
        right. eauto.
Qed.

(** What a pass that returned no error has done for each contract
    definition: it has called os.Stat on the artifact, and the artifact
    is there unless that call failed. *)
Lemma createTestFiles_ensured cds s s' :
  createTestFiles env cds s = (s', Ok tt) ->
  exists log,
    calls s' = calls s ++ log
    /\ forall cd, cd ∈ cds ->
         exists res,
           EvStat (generateTestFilePath (SourcePath cd)) res ∈ log
           /\ match res with
              | StatFailed reason =>
                  exists log0,
                    faultOracle env log0 (OpStat (generateTestFilePath (SourcePath cd)))
                    = Some reason
              | _ => is_Some (files s' !! generateTestFilePath (SourcePath cd))
              end.
Proof.
  revert s. induction cds as [|cd rest IH]; intros s H.
  - injection H as <-. exists []. split; [by rewrite app_nil_r|].
    intros cd Hin. by apply elem_of_nil in Hin.
  - pose proof (createTestFiles_cons cd rest s) as Hcons. cbv zeta in Hcons.
    rewrite Hcons in H. clear Hcons.
    set (artifact := generateTestFilePath (SourcePath cd)) in *.
    destruct (statResult env s artifact) as [| |why] eqn:Hres.
    + pose proof (createTestFiles_spec _ _ _ _ H) as (_ & _ & _ & Hkeep & _).
      apply IH in H as (log & Hlog & Hall). open_states.
      exists (EvStat artifact StatFound :: log). split.
      { rewrite Hlog, <- app_assoc. reflexivity. }
      intros cd' Hin. apply elem_of_cons in Hin as [->|Hin].
      * exists StatFound. split; [by apply elem_of_cons; left|].
        apply statResult_found in Hres as [data Hdata].
        fold artifact. rewrite (Hkeep _ _ Hdata). eauto.
      * destruct (Hall _ Hin) as (res & Hev & Hres').
        exists res. split; [by apply elem_of_cons; right|exact Hres'].
    + destruct (faultOracle env _ _) as [reason|] eqn:Hfault; [discriminate|].
      pose proof (createTestFiles_spec _ _ _ _ H) as (_ & _ & _ & Hkeep & _).
      apply IH in H as (log & Hlog & Hall). open_states.
      exists (EvStat artifact StatNotExist :: EvCreate artifact None :: log). split.
      { rewrite Hlog, <- !app_assoc. reflexivity. }
      intros cd' Hin. apply elem_of_cons in Hin as [->|Hin].
      * exists StatNotExist. split; [by apply elem_of_cons; left|].
        fold artifact. rewrite (Hkeep artifact ""); [eauto|]. apply lookup_insert_eq.
      * destruct (Hall _ Hin) as (res & Hev & Hres').
        exists res. split; [by do 2 (apply elem_of_cons; right)|exact Hres'].
    + apply IH in H as (log & Hlog & Hall). open_states.
      exists (EvStat artifact (StatFailed why) :: log). split.
      { rewrite Hlog, <- app_assoc. reflexivity. }
      intros cd' Hin. apply elem_of_cons in Hin as [->|Hin].
      * exists (StatFailed why). split; [by apply elem_of_cons; left|].
        apply statResult_failed in Hres. fold artifact. eauto.
      * destruct (Hall _ Hin) as (res & Hev & Hres').
        exists res. split; [by apply elem_of_cons; right|exact Hres'].
Qed.




Lemma generateFuzzingHarness_grows fuel cds s s' r :
  generateFuzzingHarness env fuel cds s = (s', r) ->
  messages s `prefix_of` messages s' /\ calls s `prefix_of` calls s'.
Proof.
  revert s. induction cds as [|cd rest IH]; intros s H.
  - injection H as <- <-. split; reflexivity.
  - rewrite generateFuzzingHarness_cons in H.
    destruct (harnessFor env fuel cd s) as [s1 o] eqn:Hcd.
    apply harnessFor_run, HarnessRun_grows in Hcd as [Hm Hc].
    destruct o as [[]|e|].
    + apply IH in H as [Hm' Hc']. split; etrans; eassumption.
    + injection H as <- <-. by split.
    + injection H as <- <-. by split.
Qed.

End RunFacts.

(** * The claims *)

Section Claims.

Variable env : Env.

Lemma GenerateFuzzingHarness_unfold fuel cds s :
  GenerateFuzzingHarness env fuel cds s
  = match createTestFiles env cds s with
    | (s0, Ok _) => generateFuzzingHarness env fuel cds s0
    | (s0, Err e) => (s0, Err e)
    | (s0, OutOfFuel) => (s0, OutOfFuel)
    end.
Proof. reflexivity. Qed.

Lemma generateFuzzingHarness_ledger fuel cds s s' :
  generateFuzzingHarness env fuel cds s = (s', Ok tt) ->
  length (messages s')
  = length (messages s) + 2 * (length cds + sum_list (repairCycles env fuel cds s)).
Proof.
  revert s. induction cds as [|cd rest IH]; intros s H.
  - injection H as <-. simpl. lia.
  - rewrite generateFuzzingHarness_cons in H. cbn [repairCycles sum_list length].
    destruct (harnessFor env fuel cd s) as [s1 [[]|e|]] eqn:Hcd; try discriminate.
    apply IH in H. apply harnessFor_run in Hcd.
    pose proof (HarnessRun_ledger _ _ _ _ Hcd) as Hl.
    pose proof (HarnessRun_failedRuns_mono _ _ _ _ _ Hcd) as Hmono.
    unfold failedRuns in *. simpl. lia.
Qed.

(** C3, as amended: a run that processes its N contract definitions to
    completion, with k_i repair cycles for the i-th, leaves a history of
    seed_count + 2 * (N + sum k_i) messages, where seed_count is the
    length of the history the run started with: one request and one
    reply for each generation and for each repair cycle.  The history it
    started with is a prefix of the one it leaves: no message is removed
    or changed. *)
Theorem history_length fuel cds s s' :
  GenerateFuzzingHarness env fuel cds s = (s', Ok tt) ->
  length (messages s')
  = length (messages s)
    + 2 * (length cds
           + sum_list (repairCycles env fuel cds (fst (createTestFiles env cds s))))
  /\ messages s `prefix_of` messages s'.
Proof.
  intros H. rewrite GenerateFuzzingHarness_unfold in H.
  destruct (createTestFiles env cds s) as [s0 [[]|e|]] eqn:Hcreate; try discriminate.
  apply createTestFiles_spec in Hcreate as (Hm & _).
  split.
  - rewrite (generateFuzzingHarness_ledger _ _ _ _ H), Hm. reflexivity.
  - rewrite <- Hm. eapply generateFuzzingHarness_grows. eassumption.
Qed.


(** C9: when the service refuses the request of a repair cycle, the
    repair request stays in the history: the history the loop leaves ends
    with it, after everything that was there before, and no reply
    follows.  The refused call, the last of the run, was made with
    exactly that history. *)
Theorem refused_repair_request_stays fuel cd testFilePath s s' reason :
  repairLoop env fuel cd testFilePath s = (s', Err (ServiceError reason)) ->
  exists history stdErr,
    messages s' = history ++ [repairRequest stdErr]
    /\ Role (repairRequest stdErr) = "user"
    /\ messages s `prefix_of` history
    /\ last (calls s') = Some (EvAsk (messages s') (Err (ServiceError reason))).
Proof.
  intros H. apply repairLoop_run, RepairRun_refused_request in H
    as (history & stdErr & Hm & Hp & Hlast).
  exists history, stdErr. repeat split; assumption.
Qed.

(** The same for a whole run: after a refusal the history ends with a
    request of the user that has no reply. *)
Lemma refused_request_is_last fuel cds s s' reason :
  generateFuzzingHarness env fuel cds s = (s', Err (ServiceError reason)) ->
  exists history request,
    messages s' = history ++ [request] /\ Role request = "user".
Proof.
  revert s. induction cds as [|cd rest IH]; intros s H.
  - discriminate.
  - rewrite generateFuzzingHarness_cons in H.
    destruct (harnessFor env fuel cd s) as [s1 [[]|e|]] eqn:Hcd.
    + eapply IH; eassumption.
    + injection H as <- ->. apply harnessFor_run in Hcd.
      apply HarnessRun_refused_request in Hcd as (history & request & Hm & Hrole & _).
      eauto.
    + discriminate.
Qed.

Lemma countCalls_prefix which (log log' : list Event) :
  log `prefix_of` log' -> countCalls which log <= countCalls which log'.
Proof. intros [more ->]. rewrite countCalls_app. lia. Qed.

(** C7: what is written is the reply, as it came.  Every write of the
    processing of a contract definition goes to its artifact, and its data
    is the reply of the request made just before it.  Whenever the repair
    loop is at its head or left without an error, the content of the
    artifact is the last message of the history, the last reply. *)
Theorem persist_is_verbatim fuel cd s s' r :
  harnessFor env fuel cd s = (s', r) ->
  (exists log,
      calls s' = calls s ++ log
      /\ writesVerbatim (generateTestFilePath (SourcePath cd)) None log = true)
  /\ match r with
     | Err _ => True
     | _ => exists history response,
         messages s' = history ++ [reply response]
         /\ files s' !! generateTestFilePath (SourcePath cd) = Some response
     end.
Proof.
  intros H. apply harnessFor_run in H.
  destruct H as [s e Hsrc | s code e Hsrc s1 Htest
                | s code test reason Hsrc s1 Htest s2 request Hask
                | s code test response reason Hsrc s1 Htest s2 request Hask s3 Hw
                | s code test response s' r Hsrc s1 Htest s2 request Hask s3 Hw Hrest].
  - split; [|exact I]. eexists. open_states. split; reflexivity.
  - split; [|exact I]. eexists. subst s1. open_states. rewrite <- app_assoc.
    split; reflexivity.
  - split; [|exact I]. eexists. subst s1 s2. open_states. rewrite <- !app_assoc.
    split; reflexivity.
  - split; [|exact I]. eexists. subst s1 s2 s3. open_states. rewrite <- !app_assoc.
    split; [reflexivity|]. simpl. by rewrite !bool_decide_eq_true_2.
  - split.
    + apply RepairRun_verbatim in Hrest as (log & Hlog & Hv).
      subst s1 s2 s3. open_states. rewrite <- !app_assoc in Hlog. simpl in Hlog.
      eexists. split; [exact Hlog|]. simpl.
      rewrite !bool_decide_eq_true_2 by reflexivity. simpl. apply Hv.
    + apply RepairRun_persisted in Hrest; [exact Hrest|].
      subst s1 s2 s3. unfold Persisted. open_states.
      eexists _, response. split; [reflexivity|]. apply lookup_insert_eq.
Qed.

(** C10: the name of the test contract is the name of the contract with
    [Test] appended, with no other change, and this is the name the
    generation request is built with: the first request made for a
    contract definition carries the history extended by the generation
    prompt for the name of the contract and that name followed by
    [Test]. *)
Theorem test_contract_name fuel cd s s' r :
  harnessFor env fuel cd s = (s', r) ->
  generateTestContractName (Name cd) = Name cd +:+ "Test"
  /\ exists log,
      calls s' = calls s ++ log
      /\ match firstRequest log with
         | None => True
         | Some history =>
             exists code test,
               history
               = messages s
                   ++ [ {| Role := "user";
                           Content :=
                             GenerateFuzzHarnessPrompt (SourcePath cd)
                               (generateTestFilePath (SourcePath cd)) code test
                               (Name cd) (Name cd +:+ "Test") |} ]
         end.
Proof.
  intros H. split; [reflexivity|].
  apply harnessFor_run in H.
  destruct H as [s e Hsrc | s code e Hsrc s1 Htest
                | s code test reason Hsrc s1 Htest s2 request Hask
                | s code test response reason Hsrc s1 Htest s2 request Hask s3 Hw
                | s code test response s' r Hsrc s1 Htest s2 request Hask s3 Hw Hrest].
  - eexists. open_states. split; [reflexivity|]. exact I.
  - eexists. subst s1. open_states. rewrite <- app_assoc.
    split; [reflexivity|]. exact I.
  - eexists. subst s1 s2. open_states. rewrite <- !app_assoc.
    split; [reflexivity|]. simpl. exists code, test. reflexivity.
  - eexists. subst s1 s2 s3. open_states. rewrite <- !app_assoc.
    split; [reflexivity|]. simpl. exists code, test. reflexivity.
  - apply RepairRun_grows in Hrest as [_ [log Hlog]].
    subst s1 s2 s3. open_states. rewrite <- !app_assoc in Hlog. simpl in Hlog.
    eexists. split; [exact Hlog|]. simpl. exists code, test. reflexivity.
Qed.

(** C1, as amended: an error of the validator never ends the run.
    Whether the tool ran and reported a problem or could not be started,
    the loop goes on with a repair cycle: the next call is the request to
    the service, made with the history extended by the repair prompt for
    the bytes the tool wrote to its standard error, and the error of the
    tool is not what the loop returns. *)
Theorem validator_error_is_repaired fuel cd testFilePath s stdErr failure s' r :
  runOracle env (calls s) (files s) (validateArgv testFilePath)
    = (stdErr, Some failure) ->
  repairLoop env (S fuel) cd testFilePath s = (s', r) ->
  r <> Err (CommandError failure)
  /\ (forall e, r = Err e -> isFatal e = true)
  /\ (messages s ++ [repairRequest stdErr]) `prefix_of` messages s'
  /\ exists res,
      (calls s
         ++ [EvRun (validateArgv testFilePath) stdErr (Some (CommandError failure));
             EvAsk (messages s ++ [repairRequest stdErr]) res])
        `prefix_of` calls s'.
Proof.
  intros Hrun H.
  assert (Hfatal : forall e, r = Err e -> isFatal e = true).
  { intros e ->. apply repairLoop_run in H. eapply RepairRun_fatal; eassumption. }
  split; [|split; [exact Hfatal|]].
  { intros ->. specialize (Hfatal _ eq_refl). discriminate. }
  rewrite repairLoop_unfold, Hrun in H. cbv zeta in H.
  set (s1 := afterRun testFilePath stdErr (Some failure) s) in *.
  destruct (askOracle env (calls s1) (messages s1 ++ [repairRequest stdErr]))
    as [response|reason] eqn:Hask.
  - rewrite (processMessage_reply _ _ _ _ Hask) in H.
    set (s2 := afterReply (repairRequest stdErr) response s1) in *.
    assert (Hm2 : (messages s ++ [repairRequest stdErr]) `prefix_of` messages s2).
    { subst s1 s2. open_states. grow. }
    assert (Hc2 : (calls s
         ++ [EvRun (validateArgv testFilePath) stdErr (Some (CommandError failure));
             EvAsk (messages s ++ [repairRequest stdErr]) (Ok response)])
        `prefix_of` calls s2).
    { subst s1 s2. open_states. rewrite <- !app_assoc. simpl. reflexivity. }
    destruct (faultOracle env (calls s2)
                (OpWriteFile (generateTestFilePath (SourcePath cd)) response))
      as [reason|] eqn:Hw.
    + rewrite (osWriteFile_fault _ _ _ _ _ Hw) in H. injection H as <- <-.
      split; [exact Hm2|]. eexists. etrans; [exact Hc2|].
      open_states. grow.
    + rewrite (osWriteFile_ok _ _ _ _ Hw) in H.
      apply repairLoop_run, RepairRun_grows in H as [Hm Hc].
      split.
      * etrans; [exact Hm2|]. etrans; [|exact Hm]. reflexivity.
      * eexists. etrans; [exact Hc2|]. etrans; [|exact Hc].
        open_states. grow.
  - rewrite (processMessage_refusal _ _ _ _ Hask) in H. injection H as <- <-.
    subst s1. open_states. split; [reflexivity|].
    eexists. rewrite <- !app_assoc. simpl. reflexivity.
Qed.

(** C2, as amended: when the service refuses a request made for the
    second contract definition, the run returns that error from the state
    the refusal left: the refused request is its last call, so that no
    file is read or written and no validation is run after it, for the
    second contract definition or for those that follow.  Their only
    trace is that of the first pass, whose calls come before all others:
    it has called os.Stat on the artifact of every contract definition,
    and each artifact is there at the end unless that call failed.  Every
    file other than the artifact of the second contract definition is as
    the first one left it, and so are all files when the second one has
    written nothing. *)
Theorem abort_on_second_unit fuel first second rest s s0 s1 s2 reason :
  createTestFiles env (first :: second :: rest) s = (s0, Ok tt) ->
  harnessFor env fuel first s0 = (s1, Ok tt) ->
  harnessFor env fuel second s1 = (s2, Err (ServiceError reason)) ->
  GenerateFuzzingHarness env fuel (first :: second :: rest) s
  = (s2, Err (ServiceError reason))
  /\ last (calls s2) = Some (EvAsk (messages s2) (Err (ServiceError reason)))
  /\ (forall path, path <> generateTestFilePath (SourcePath second) ->
        files s2 !! path = files s1 !! path)
  /\ (countCalls isWrite (calls s2) = countCalls isWrite (calls s1) ->
        files s2 = files s1)
  /\ (exists pass,
        calls s0 = calls s ++ pass
        /\ calls s0 `prefix_of` calls s2
        /\ forall cd, cd ∈ first :: second :: rest ->
             exists res,
               EvStat (generateTestFilePath (SourcePath cd)) res ∈ pass
               /\ match res with
                  | StatFailed why =>
                      exists log,
                        faultOracle env log
                          (OpStat (generateTestFilePath (SourcePath cd)))
                        = Some why
                  | _ => is_Some (files s2 !! generateTestFilePath (SourcePath cd))
                  end).
Proof.
  intros Hcreate Hfirst Hsecond.
  split; [|split; [|split; [|split]]].
  - rewrite GenerateFuzzingHarness_unfold, Hcreate.
    rewrite generateFuzzingHarness_cons, Hfirst.
    rewrite generateFuzzingHarness_cons, Hsecond. reflexivity.
  - apply harnessFor_run, HarnessRun_refused_request in Hsecond
      as (history & request & _ & _ & _ & Hlast). exact Hlast.
  - intros path Hne. apply harnessFor_run in Hsecond.
    eapply HarnessRun_frame; eassumption.
  - intros Hwrites. apply harnessFor_run in Hsecond.
    remember (Err (ServiceError reason)) as r eqn:Hr.
    destruct Hsecond as [s1 e Hsrc | s1 code e Hsrc s1' Htest
                | s1 code test reason' Hsrc s1' Htest s2' request Hask
                | s1 code test response reason' Hsrc s1' Htest s2' request Hask s3 Hw
                | s1 code test response s2 r Hsrc s1' Htest s2' request Hask s3 Hw Hrest];
      try reflexivity.
    exfalso. apply RepairRun_grows in Hrest as [_ Hc].
    apply (countCalls_prefix isWrite) in Hc.
    subst s1' s2' s3. open_states. rewrite !countCalls_app in Hc.
    simpl in Hc. lia.
  - apply createTestFiles_ensured in Hcreate as (pass & Hpass & Hall).
    apply harnessFor_run in Hfirst, Hsecond.
    exists pass. split; [exact Hpass|]. split.
    { apply HarnessRun_grows in Hfirst as Hc1. apply HarnessRun_grows in Hsecond as Hc2.
      etrans; [apply Hc1 | apply Hc2]. }
    intros cd Hin. destruct (Hall cd Hin) as (res & Hev & Hres).
    exists res. split; [exact Hev|].
    destruct res as [| |why]; [| |exact Hres].
    + eapply HarnessRun_keeps; [exact Hsecond|].
      eapply HarnessRun_keeps; [exact Hfirst|]. exact Hres.
    + eapply HarnessRun_keeps; [exact Hsecond|].
      eapply HarnessRun_keeps; [exact Hfirst|]. exact Hres.
Qed.

(** C5, as amended: for one contract definition the first pass creates
    the artifact, empty, exactly when os.Stat tells that it is missing
    (and os.Create does not fail: its error is returned then, and no file
    has changed).  When os.Stat finds the file, and also when it fails
    for another reason, the pass calls nothing else, returns no error and
    leaves every file as it was.  In no case does it change the content
    of a file that exists. *)
Theorem ensure_is_nondestructive cd s s' r :
  createTestFiles env [cd] s = (s', r) ->
  let artifact := generateTestFilePath (SourcePath cd) in
  match statResult env s artifact with
  | StatNotExist =>
      files s !! artifact = None
      /\ match faultOracle env (calls s ++ [EvStat artifact StatNotExist])
                 (OpCreate artifact) with
         | None =>
             r = Ok tt
             /\ files s' = <[artifact := ""]> (files s)
             /\ calls s' = calls s ++ [EvStat artifact StatNotExist;
                                       EvCreate artifact None]
         | Some reason =>
             r = Err (PathError "open" artifact reason)
             /\ files s' = files s
             /\ calls s' = calls s ++ [EvStat artifact StatNotExist;
                                       EvCreate artifact
                                         (Some (PathError "open" artifact reason))]
         end
  | res =>
      r = Ok tt /\ files s' = files s
      /\ calls s' = calls s ++ [EvStat artifact res]
  end
  /\ (forall data, files s !! artifact = Some data ->
        r = Ok tt /\ files s' = files s
        /\ countCalls isCreate (calls s') = countCalls isCreate (calls s))
  /\ (forall path data, files s !! path = Some data -> files s' !! path = Some data).
Proof.
  intros H artifact.
  pose proof (createTestFiles_spec _ _ _ _ _ H) as (_ & _ & _ & Hkeep & _).
  rewrite createTestFiles_cons in H. cbv zeta in H. fold artifact in H.
  split; [|split; [|exact Hkeep]].
  - destruct (statResult env s artifact) as [| |why] eqn:Hres.
    + injection H as <- <-. repeat split.
    + split; [by apply statResult_notExist in Hres|].
      cbn [logCall calls] in H.
      destruct (faultOracle env _ _) as [reason|].
      * injection H as <- <-. open_states. rewrite <- app_assoc. repeat split.
      * injection H as <- <-. open_states. rewrite <- app_assoc. repeat split.
    + injection H as <- <-. repeat split.
  - intros data Hdata.
    pose proof (statResult_present env _ _ _ Hdata) as Hne.
    destruct (statResult env s artifact) as [| |why]; [|congruence|].
    + injection H as <- <-. open_states.
      rewrite countCalls_app. simpl. repeat split. lia.
    + injection H as <- <-. open_states.
      rewrite countCalls_app. simpl. repeat split. lia.
Qed.

(** ** Runs in a world that cooperates *)

Section Cooperative.

Hypothesis answers : forall log history,
    exists response, askOracle env log history = inl response.
Hypothesis noFault : forall log op, faultOracle env log op = None.

Lemma repairLoop_pass fuel cd testFilePath s stdErr :
  runOracle env (calls s) (files s) (validateArgv testFilePath) = (stdErr, None) ->
  repairLoop env (S fuel) cd testFilePath s
  = (afterRun testFilePath stdErr None s, Ok tt).
Proof. intros H. rewrite repairLoop_unfold, H. reflexivity. Qed.

Lemma repairLoop_again fuel cd testFilePath s stdErr failure :
  runOracle env (calls s) (files s) (validateArgv testFilePath)
    = (stdErr, Some failure) ->
  exists response,
    repairLoop env (S fuel) cd testFilePath s
    = repairLoop env fuel cd testFilePath
        (afterWrite (generateTestFilePath (SourcePath cd)) response
           (afterReply (repairRequest stdErr) response
              (afterRun testFilePath stdErr (Some failure) s))).
Proof.
  intros H. rewrite repairLoop_unfold, H. cbv zeta.
  destruct (answers (calls (afterRun testFilePath stdErr (Some failure) s))
              (messages (afterRun testFilePath stdErr (Some failure) s)
                 ++ [repairRequest stdErr])) as [response Hask].
  exists response.
  rewrite (processMessage_reply _ _ _ _ Hask).
  rewrite (osWriteFile_ok _ _ _ _ (noFault _ _)). reflexivity.
Qed.

(** A validator that fails until the log holds [bound] runs, and then
    passes: the loop ends after the runs that are left, with one repair
    cycle for each but the last. *)
Lemma repairLoop_converges fuel cd testFilePath start bound :
  (forall log fs argv,
      start <= countCalls isRun log ->
      is_Some (snd (runOracle env log fs argv)) <-> countCalls isRun log < bound) ->
  forall left s,
    start <= countCalls isRun (calls s) ->
    countCalls isRun (calls s) + left = bound ->
    exists s' cycles,
      repairLoop env (S left + fuel) cd testFilePath s = (s', Ok tt)
      /\ length cycles = left
      /\ messages s' = messages s ++ exchanges cycles
      /\ countCalls isRun (calls s') = countCalls isRun (calls s) + S left
      /\ countCalls isAsk (calls s') = countCalls isAsk (calls s) + left
      /\ countCalls isFailedRun (calls s') = countCalls isFailedRun (calls s) + left.
Proof.
  intros Hval left. induction left as [|left IH]; intros s Hstart Hcount.
  - destruct (runOracle env (calls s) (files s) (validateArgv testFilePath))
      as [stdErr failure] eqn:Hrun.
    assert (failure = None) as ->.
    { destruct failure as [f|]; [|reflexivity].
      assert (is_Some (snd (runOracle env (calls s) (files s)
                              (validateArgv testFilePath)))) as Hs
          by (rewrite Hrun; eauto).
      apply Hval in Hs; lia. }
    exists (afterRun testFilePath stdErr None s), [].
    split; [apply repairLoop_pass; assumption|].
    open_states. rewrite !countCalls_app, app_nil_r. simpl.
    repeat split; lia.
  - destruct (runOracle env (calls s) (files s) (validateArgv testFilePath))
      as [stdErr failure] eqn:Hrun.
    destruct failure as [failure|].
    2:{ assert (is_Some (snd (runOracle env (calls s) (files s)
                                (validateArgv testFilePath)))) as Hs
          by (apply Hval; lia).
        rewrite Hrun in Hs. by destruct Hs. }
    destruct (repairLoop_again (S left + fuel) cd testFilePath s stdErr failure Hrun)
      as [response Hstep].
    set (s3 := afterWrite _ _ _) in Hstep.
    destruct (IH s3) as (s' & cycles & Hloop & Hlen & Hm & Hr & Ha & Hf).
    { subst s3. open_states. rewrite !countCalls_app. simpl. lia. }
    { subst s3. open_states. rewrite !countCalls_app. simpl. lia. }
    exists s', ((stdErr, response) :: cycles).
    split; [change (S (S left) + fuel) with (S (S left + fuel)); by rewrite Hstep|].
    subst s3. open_states. rewrite !countCalls_app in *. simpl in *.
    rewrite <- !app_assoc in Hm. simpl in Hm.
    repeat split; try assumption; try lia.
Qed.

Lemma harnessFor_converges fuel cd s k :
  is_Some (files s !! SourcePath cd) ->
  is_Some (files s !! generateTestFilePath (SourcePath cd)) ->
  (forall log fs argv,
      countCalls isRun (calls s) <= countCalls isRun log ->
      is_Some (snd (runOracle env log fs argv))
      <-> countCalls isRun log < countCalls isRun (calls s) + k) ->
  exists s' code test response cycles,
    harnessFor env (S k + fuel) cd s = (s', Ok tt)
    /\ length cycles = k
    /\ messages s'
       = messages s ++ generationRequest cd code test :: reply response
                         :: exchanges cycles
    /\ countCalls isRun (calls s') = countCalls isRun (calls s) + S k
    /\ countCalls isAsk (calls s') = countCalls isAsk (calls s) + S k
    /\ countCalls isFailedRun (calls s') = countCalls isFailedRun (calls s) + k.
Proof.
  intros [code Hcode] [test Htest] Hval.
  rewrite harnessFor_unfold. cbv zeta.
  assert (Hsrc : readResult env s (SourcePath cd) = Ok code).
  { unfold readResult. by rewrite noFault, Hcode. }
  rewrite Hsrc.
  assert (Hart : readResult env (afterRead env (SourcePath cd) s)
                   (generateTestFilePath (SourcePath cd)) = Ok test).
  { unfold readResult. rewrite noFault. open_states. by rewrite Htest. }
  rewrite Hart.
  set (s2 := afterRead env (generateTestFilePath (SourcePath cd))
               (afterRead env (SourcePath cd) s)).
  destruct (answers (calls s2) (messages s2 ++ [generationRequest cd code test]))
    as [response Hask].
  rewrite (processMessage_reply _ _ _ _ Hask).
  rewrite (osWriteFile_ok _ _ _ _ (noFault _ _)).
  set (s4 := afterWrite _ _ _).
  assert (Hruns : countCalls isRun (calls s4) = countCalls isRun (calls s)).
  { subst s4 s2. open_states. rewrite !countCalls_app. simpl. lia. }
  destruct (repairLoop_converges fuel cd (generateTestFilePath (SourcePath cd))
              (countCalls isRun (calls s)) (countCalls isRun (calls s) + k) Hval k s4)
    as (s' & cycles & Hloop & Hlen & Hm & Hr & Ha & Hf).
  { rewrite Hruns. reflexivity. }
  { rewrite Hruns. reflexivity. }
  exists s', code, test, response, cycles.
  split; [exact Hloop|]. split; [exact Hlen|].
  subst s4 s2. open_states. rewrite !countCalls_app in *. simpl in *.
  rewrite <- !app_assoc in Hm. simpl in Hm.
  repeat split; try assumption; lia.
Qed.

(** C4: with a validator that fails for its next two runs and then passes, the
    processing of a contract definition returns without error after one
    generation request, two repair requests and three runs of the
    validator; with a validator that always passes, after one request,
    the generation request, and one run.  The service answers and the
    files can be read and written. *)
Theorem repair_convergence fuel cd s :
  is_Some (files s !! SourcePath cd) ->
  is_Some (files s !! generateTestFilePath (SourcePath cd)) ->
  ((forall log fs argv,
       countCalls isRun (calls s) <= countCalls isRun log ->
       is_Some (snd (runOracle env log fs argv))
       <-> countCalls isRun log < countCalls isRun (calls s) + 2) ->
   exists s' code test r0 e1 r1 e2 r2,
     harnessFor env (3 + fuel) cd s = (s', Ok tt)
     /\ messages s'
        = messages s ++ [generationRequest cd code test; reply r0;
                         repairRequest e1; reply r1;
                         repairRequest e2; reply r2]
     /\ countCalls isAsk (calls s') = countCalls isAsk (calls s) + 3
     /\ countCalls isRun (calls s') = countCalls isRun (calls s) + 3
     /\ countCalls isFailedRun (calls s') = countCalls isFailedRun (calls s) + 2)
  /\ ((forall log fs argv, snd (runOracle env log fs argv) = None) ->
      exists s' code test r0,
        harnessFor env (1 + fuel) cd s = (s', Ok tt)
        /\ messages s' = messages s ++ [generationRequest cd code test; reply r0]
        /\ countCalls isAsk (calls s') = countCalls isAsk (calls s) + 1
        /\ countCalls isRun (calls s') = countCalls isRun (calls s) + 1
        /\ countCalls isFailedRun (calls s') = countCalls isFailedRun (calls s)).
Proof.
  intros Hsrc Hart. split.
  - intros Hval.
    destruct (harnessFor_converges fuel cd s 2 Hsrc Hart Hval)
      as (s' & code & test & r0 & cycles & Hrun & Hlen & Hm & Hr & Ha & Hf).
    destruct cycles as [|[e1 r1] [|[e2 r2] [|c cycles]]]; try discriminate.
    exists s', code, test, r0, e1, r1, e2, r2. repeat split; assumption.
  - intros Hpass.
    destruct (harnessFor_converges fuel cd s 0 Hsrc Hart)
      as (s' & code & test & r0 & cycles & Hrun & Hlen & Hm & Hr & Ha & Hf).
    { intros log fs argv Hlog. rewrite Hpass. split; [by intros [? ?] | lia]. }
    destruct cycles as [|c cycles]; try discriminate.
    exists s', code, test, r0. repeat split; try assumption. lia.
Qed.

(** A validator that never passes: the loop has no other way out, it
    goes on for as long as it is given fuel. *)
Lemma repairLoop_no_escape cd testFilePath :
  (forall log fs argv, is_Some (snd (runOracle env log fs argv))) ->
  forall fuel s, snd (repairLoop env fuel cd testFilePath s) = OutOfFuel.
Proof.
  intros Hfail fuel. induction fuel as [|fuel IH]; intros s; [reflexivity|].
  destruct (runOracle env (calls s) (files s) (validateArgv testFilePath))
    as [stdErr failure] eqn:Hrun.
  destruct failure as [failure|].
  - destruct (repairLoop_again fuel cd testFilePath s stdErr failure Hrun)
      as [response ->]. apply IH.
  - specialize (Hfail (calls s) (files s) (validateArgv testFilePath)).
    rewrite Hrun in Hfail. by destruct Hfail.
Qed.

End Cooperative.

End Claims.

(** * The path of the test file *)

Module PathFacts.

Import filepath strings.

Lemma isSep_true c : isSep c = true -> c = "/"%char.
Proof. apply Ascii.eqb_eq. Qed.

(** ** Split *)

Lemma splitScan_spec r acc d f :
  splitScan r acc = (d, f) ->
  exists f0, f = f0 ++ acc /\ rev r = d ++ f0 /\ noSep f0
             /\ (d = [] \/ exists d', d = d' ++ ["/"%char]).
Proof.
  revert acc. induction r as [|c r IH]; intros acc H; simpl in H.
  - injection H as <- <-. exists []. repeat split; [constructor | by left].
  - destruct (isSep c) eqn:Hc.
    + injection H as <- <-. exists []. simpl. rewrite app_nil_r.
      repeat split; [constructor|]. right. exists (rev r).
      by rewrite (isSep_true _ Hc).
    + apply IH in H as (f0 & -> & Hrev & Hno & Hd).
      exists (f0 ++ [c]). rewrite <- app_assoc. simpl.
      repeat split; try assumption.
      * rewrite Hrev. by rewrite <- app_assoc.
      * apply Forall_app. split; [assumption|]. by constructor.
Qed.

Lemma Split_spec path d f :
  Split path = (d, f) ->
  path = d ++ f /\ noSep f /\ (d = [] \/ exists d', d = d' ++ ["/"%char]).
Proof.
  unfold Split. intros H. apply splitScan_spec in H as (f0 & -> & Hrev & Hno & Hd).
  rewrite app_nil_r. rewrite rev_involutive in Hrev. by repeat split.
Qed.

Lemma splitScan_skip f r acc :
  noSep f -> splitScan (rev f ++ r) acc = splitScan r (f ++ acc).
Proof.
  revert r acc. induction f as [|c f IH]; intros r acc Hno; [reflexivity|].
  apply Forall_cons in Hno as [Hc Hno]. simpl. rewrite <- app_assoc. simpl.
  rewrite IH by assumption. simpl. by rewrite Hc.
Qed.

Lemma Split_dir_file d f :
  noSep f -> d = [] \/ (exists d', d = d' ++ ["/"%char]) -> Split (d ++ f) = (d, f).
Proof.
  intros Hno Hd. unfold Split. rewrite rev_app_distr, splitScan_skip by assumption.
  rewrite app_nil_r. destruct Hd as [-> | [d' ->]]; [reflexivity|].
  rewrite rev_app_distr. simpl. by rewrite rev_involutive.
Qed.

(** ** Ext *)

Lemma extScan_skip f r acc :
  noSep f -> Forall (fun c => isDot c = false) f ->
  extScan (rev f ++ r) acc = extScan r (f ++ acc).
Proof.
  revert r acc. induction f as [|c f IH]; intros r acc Hno Hnd; [reflexivity|].
  apply Forall_cons in Hno as [Hc Hno]. apply Forall_cons in Hnd as [Hd Hnd].
  simpl. rewrite <- app_assoc. simpl.
  rewrite IH by assumption. simpl. by rewrite Hc, Hd.
Qed.

(** The scan of an element sees nothing of what is before the separator
    that precedes it. *)
Lemma extScan_stop a r acc :
  noSep a -> extScan (a ++ "/"%char :: r) acc = extScan a acc.
Proof.
  revert acc. induction a as [|c a IH]; intros acc Hno; [reflexivity|].
  apply Forall_cons in Hno as [Hc Hno]. simpl. rewrite Hc.
  destruct (isDot c); [reflexivity|]. by apply IH.
Qed.

Lemma extScan_spec r acc :
  noSep r ->
  (extScan r acc = [] /\ Forall (fun c => isDot c = false) r)
  \/ exists r1 r2,
      r = r1 ++ "."%char :: r2
      /\ Forall (fun c => isDot c = false) r1
      /\ extScan r acc = "."%char :: rev r1 ++ acc.
Proof.
  revert acc. induction r as [|c r IH]; intros acc Hno.
  - left. split; [reflexivity | constructor].
  - apply Forall_cons in Hno as [Hc Hno]. simpl. rewrite Hc.
    destruct (isDot c) eqn:Hd.
    + right. exists [], r. apply Ascii.eqb_eq in Hd as ->.
      repeat split. constructor.
    + destruct (IH (c :: acc) Hno) as [[He Hnd] | (r1 & r2 & -> & Hnd & He)].
      * left. split; [assumption | by constructor].
      * right. exists (c :: r1), r2. repeat split; [by constructor|].
        rewrite He. simpl. by rewrite <- app_assoc.
Qed.

Lemma Forall_unrev {A} (P : A -> Prop) (l : list A) :
  Forall P (rev l) -> Forall P l.
Proof. intros H. apply List.Forall_rev in H. by rewrite rev_involutive in H. Qed.

Lemma noSep_rev e : noSep e -> noSep (rev e).
Proof. apply List.Forall_rev. Qed.

Lemma noSep_app a b : noSep (a ++ b) <-> noSep a /\ noSep b.
Proof. apply Forall_app. Qed.

Lemma noSep_marker : noSep fuzzMarker.
Proof. repeat constructor. Qed.

Lemma noDot_marker : Forall (fun c => isDot c = false) fuzzMarker.
Proof. repeat constructor. Qed.

(** A file name is its stem followed by its extension; the marker put
    between them leaves the extension what it was. *)
Lemma file_stem_ext file :
  noSep file ->
  file = TrimSuffix file (Ext file) ++ Ext file
  /\ noSep (TrimSuffix file (Ext file)) /\ noSep (Ext file)
  /\ Ext (TrimSuffix file (Ext file) ++ fuzzMarker ++ Ext file) = Ext file.
Proof.
  intros Hno.
  assert (Htrim : forall stem ext, TrimSuffix (stem ++ ext) ext = stem).
  { intros stem ext. unfold TrimSuffix, HasSuffix.
    rewrite length_app.
    replace (length stem + length ext - length ext) with (length stem) by lia.
    rewrite drop_app_length, take_app_length.
    rewrite bool_decide_eq_true_2 by reflexivity.
    destruct (length ext <=? length stem + length ext) eqn:Hle; [reflexivity|].
    apply Nat.leb_gt in Hle. lia. }
  destruct (extScan_spec (rev file) [] (noSep_rev _ Hno))
    as [[He Hnd] | (r1 & r2 & Hrev & Hnd & He)].
  - assert (Hx : Ext file = []) by exact He. rewrite Hx.
    pose proof (Htrim file []) as Ht. rewrite app_nil_r in Ht.
    rewrite Ht, !app_nil_r. repeat split; [assumption | constructor |].
    unfold Ext. rewrite rev_app_distr.
    rewrite extScan_skip; [| apply noSep_marker | apply noDot_marker].
    rewrite <- (app_nil_r (rev file)).
    rewrite extScan_skip; [reflexivity | assumption |].
    by apply Forall_unrev.
  - assert (Hx : Ext file = "."%char :: rev r1).
    { unfold Ext. rewrite He. by rewrite app_nil_r. }
    rewrite Hx.
    assert (Hfile : file = rev r2 ++ "."%char :: rev r1).
    { rewrite <- (rev_involutive file), Hrev, rev_app_distr. simpl.
      by rewrite <- app_assoc. }
    rewrite Hfile in Hno. apply noSep_app in Hno as [Hno2 Hno1].
    rewrite Hfile at 2 3 4.
    rewrite (Htrim (rev r2) ("."%char :: rev r1)).
    repeat split; try assumption.
    unfold Ext. rewrite !rev_app_distr. simpl. rewrite rev_involutive.
    rewrite <- !app_assoc. simpl.
    apply Forall_cons in Hno1 as [_ Hno1].
    replace r1 with (rev (rev r1)) at 1 by apply rev_involutive.
    rewrite extScan_skip.
    + simpl. by rewrite app_nil_r.
    + assumption.
    + by apply List.Forall_rev.
Qed.

(** The extension of a path is that of its last element. *)
Lemma Ext_dir_file d f :
  noSep f -> d = [] \/ (exists d', d = d' ++ ["/"%char]) -> Ext (d ++ f) = Ext f.
Proof.
  intros Hno [-> | [d' ->]]; [reflexivity|].
  unfold Ext. rewrite !rev_app_distr. simpl.
  apply extScan_stop. by apply noSep_rev.
Qed.

(** ** Clean and Join *)

Lemma elements_nonempty s : elements s <> [].
Proof.
  destruct s as [|c s]; simpl; [discriminate|].
  destruct (isSep c); [discriminate|]. destruct (elements s); discriminate.
Qed.

Lemma elements_app_sep x y :
  elements (x ++ "/"%char :: y) = elements x ++ elements y.
Proof.
  induction x as [|c x IH]; [reflexivity|]. simpl.
  destruct (isSep c); [by rewrite IH|]. rewrite IH.
  pose proof (elements_nonempty x) as Hne.
  destruct (elements x); [congruence | reflexivity].
Qed.

Lemma elements_noSep e : noSep e -> elements e = [e].
Proof.
  induction 1 as [|c e Hc Hno IH]; [reflexivity|]. simpl. by rewrite Hc, IH.
Qed.

Lemma cleanElements_snoc rooted elems e :
  cleanElements rooted (elems ++ [e])
  = rev (cleanStep rooted (rev (cleanElements rooted elems)) e).
Proof.
  unfold cleanElements. rewrite fold_left_app. simpl. by rewrite rev_involutive.
Qed.

Lemma cleanStep_name rooted out e : isName e = true -> cleanStep rooted out e = e :: out.
Proof.
  unfold isName, cleanStep. destruct e as [|c e]; [discriminate|].
  intros H. apply andb_true_iff in H as [H1 H2].
  apply negb_true_iff in H1, H2. by rewrite H1, H2.
Qed.

Lemma cleanElements_name rooted elems e :
  isName e = true ->
  cleanElements rooted (elems ++ [e]) = cleanElements rooted elems ++ [e].
Proof.
  intros H. rewrite cleanElements_snoc, cleanStep_name by assumption.
  simpl. by rewrite rev_involutive.
Qed.

Lemma cleanElements_empty rooted elems :
  cleanElements rooted (elems ++ [[]]) = cleanElements rooted elems.
Proof. rewrite cleanElements_snoc. simpl. by rewrite rev_involutive. Qed.

Lemma joinSep_snoc elems e :
  joinSep (elems ++ [e])
  = match elems with [] => e | _ => joinSep elems ++ "/"%char :: e end.
Proof.
  induction elems as [|a elems IH]; [reflexivity|].
  destruct elems as [|b elems]; [reflexivity|].
  change (joinSep ((a :: b :: elems) ++ [e]))
    with (a ++ "/"%char :: joinSep ((b :: elems) ++ [e])).
  rewrite IH. change (joinSep (a :: b :: elems))
    with (a ++ "/"%char :: joinSep (b :: elems)).
  by rewrite <- app_assoc.
Qed.

Lemma isName_long e : 3 <= length e -> isName e = true.
Proof.
  destruct e as [|a [|b [|c e]]]; simpl; intros; first [lia | reflexivity].
Qed.

Lemma isRooted_name e : noSep e -> isRooted e = false.
Proof. destruct 1; [reflexivity | assumption]. Qed.

Lemma keep_nonempty {A} (l d : list A) :
  l <> [] -> match l with [] => d | _ :: _ => l end = l.
Proof. by destruct l. Qed.

(** A directory followed by a name: [Clean] rewrites the directory and
    keeps the name. *)
Lemma Clean_dir_name dir e :
  dir = [] \/ (exists d', dir = d' ++ ["/"%char]) ->
  noSep e -> isName e = true ->
  Clean (dir ++ e) = cleanDir dir ++ e.
Proof.
  intros Hdir Hno Hname.
  assert (He : e <> []) by (intros ->; discriminate).
  destruct Hdir as [-> | [d' ->]].
  - simpl. unfold Clean. cbv zeta.
    rewrite (isRooted_name _ Hno), (elements_noSep _ Hno).
    change [e] with ([] ++ [e]). rewrite cleanElements_name by assumption.
    simpl. by apply keep_nonempty.
  - rewrite <- app_assoc. simpl. unfold Clean, cleanDir. cbv zeta.
    assert (Hroot : isRooted (d' ++ "/"%char :: e) = isRooted (d' ++ ["/"%char]))
      by (destruct d'; reflexivity).
    rewrite Hroot. set (rooted := isRooted (d' ++ ["/"%char])).
    rewrite !elements_app_sep, (elements_noSep _ Hno). simpl (elements []).
    rewrite cleanElements_name, cleanElements_empty by assumption.
    rewrite joinSep_snoc.
    set (kept := cleanElements rooted (elements d')).
    set (pre := if rooted then ["/"%char] else []).
    rewrite keep_nonempty.
    + transitivity ((pre ++ match kept with
                            | [] => []
                            | _ => joinSep kept ++ ["/"%char]
                            end) ++ e).
      * destruct kept; [by rewrite app_nil_r|]. by rewrite <- !app_assoc.
      * destruct d'; reflexivity.
    + intros Hx. apply app_eq_nil in Hx as [_ Hx].
      destruct kept; [congruence|].
      apply app_eq_nil in Hx as [_ Hx]. discriminate.
Qed.

Lemma cleanDir_sep dir : dir <> [] -> cleanDir (dir ++ ["/"%char]) = cleanDir dir.
Proof.
  intros Hne. unfold cleanDir.
  assert (Hroot : isRooted (dir ++ ["/"%char]) = isRooted dir)
    by (destruct dir; [congruence | reflexivity]).
  cbv zeta. rewrite Hroot, elements_app_sep. simpl (elements []).
  rewrite cleanElements_empty. destruct dir; [congruence | reflexivity].
Qed.

Lemma Join_dir_name dir e :
  dir = [] \/ (exists d', dir = d' ++ ["/"%char]) ->
  noSep e -> isName e = true ->
  Join dir e = cleanDir dir ++ e.
Proof.
  intros Hdir Hno Hname.
  assert (He : e <> []) by (intros ->; discriminate).
  destruct dir as [|c dir].
  - unfold Join. destruct e; [congruence|].
    apply (Clean_dir_name []); [by left | assumption..].
  - unfold Join.
    change ((c :: dir) ++ "/"%char :: e) with ((c :: dir) ++ ["/"%char] ++ e).
    rewrite app_assoc.
    rewrite Clean_dir_name; [| right; by eexists | assumption..].
    by rewrite cleanDir_sep.
Qed.

(** The directory that [Clean] writes is empty or ends with a separator. *)
Lemma cleanDir_shape dir :
  cleanDir dir = [] \/ exists d', cleanDir dir = d' ++ ["/"%char].
Proof.
  unfold cleanDir. destruct dir as [|c dir]; [by left|]. cbv zeta.
  set (rooted := isRooted (c :: dir)).
  destruct (cleanElements rooted (elements (c :: dir))) as [|k kept].
  - destruct rooted; [right; by exists [] | by left].
  - right. eexists. by rewrite app_assoc.
Qed.

End PathFacts.

(** C6, as amended: the path of the test file is a function of the path
    alone.  With the path split into its directory, the stem of its base
    filename and its extension, it is the path with the marker [_fuzz]
    put between stem and extension, cleaned by [Clean], which
    [filepath.Join] applies to its result: its base filename is the stem,
    the marker and the extension, its extension is that of the path, and
    its directory is the directory of the path as [Clean] writes it.  For
    a path that [Clean] leaves as it is and that ends with a name, it is
    exactly the path with the marker inserted. *)
Theorem test_file_path (p : string) (dir file : list ascii) :
  filepath.Split (bytesOf p) = (dir, file) ->
  let ext := filepath.Ext file in
  let stem := strings.TrimSuffix file ext in
  (forall q, q = p -> generateTestFilePath q = generateTestFilePath p)
  /\ bytesOf p = dir ++ stem ++ ext
  /\ generateTestFilePath p = stringOf (filepath.Clean (insertMarker (bytesOf p)))
  /\ generateTestFilePath p = stringOf (cleanDir dir ++ stem ++ fuzzMarker ++ ext)
  /\ filepath.Split (bytesOf (generateTestFilePath p))
     = (cleanDir dir, stem ++ fuzzMarker ++ ext)
  /\ filepath.Ext (bytesOf (generateTestFilePath p)) = filepath.Ext (bytesOf p)
  /\ (filepath.Clean (bytesOf p) = bytesOf p -> isName file = true ->
      generateTestFilePath p = stringOf (insertMarker (bytesOf p))).
Proof.
  intros Hsplit ext stem.
  destruct (PathFacts.Split_spec _ _ _ Hsplit) as (Hp & Hno & Hdir).
  destruct (PathFacts.file_stem_ext file Hno) as (Hfile & Hstem & Hext & Hkeep).
  fold ext in Hfile, Hstem, Hext, Hkeep. fold stem in Hfile, Hstem, Hkeep.
  set (name := stem ++ fuzzMarker ++ ext) in *.
  assert (Hnamesep : noSep name).
  { apply PathFacts.noSep_app. split; [assumption|].
    apply PathFacts.noSep_app. split; [apply PathFacts.noSep_marker | assumption]. }
  assert (Hname : isName name = true).
  { apply PathFacts.isName_long. subst name. rewrite !length_app.
    change (length fuzzMarker) with 5. lia. }
  assert (Hderive : generateTestFilePathBytes (bytesOf p) = cleanDir dir ++ name).
  { unfold generateTestFilePathBytes. rewrite Hsplit.
    by apply PathFacts.Join_dir_name. }
  assert (Hinsert : insertMarker (bytesOf p) = dir ++ name).
  { unfold insertMarker. by rewrite Hsplit. }
  assert (Hbytes : bytesOf (generateTestFilePath p) = cleanDir dir ++ name).
  { unfold generateTestFilePath, bytesOf, stringOf.
    rewrite String.list_ascii_of_string_of_list_ascii. exact Hderive. }
  split; [by intros q ->|].
  split; [by rewrite Hp, Hfile at 1|].
  split.
  { unfold generateTestFilePath. rewrite Hderive, Hinsert.
    by rewrite PathFacts.Clean_dir_name. }
  split; [unfold generateTestFilePath; by rewrite Hderive|].
  split.
  { rewrite Hbytes. apply PathFacts.Split_dir_file; [assumption|].
    apply PathFacts.cleanDir_shape. }
  split.
  { rewrite Hbytes, Hp.
    rewrite !PathFacts.Ext_dir_file;
      [exact Hkeep | assumption | assumption | assumption
      | apply PathFacts.cleanDir_shape]. }
  intros Hclean Hfilename.
  unfold generateTestFilePath. rewrite Hderive, Hinsert.
  rewrite Hp in Hclean at 1.
  rewrite PathFacts.Clean_dir_name in Hclean by assumption.
  rewrite Hp in Hclean. apply app_inv_tail in Hclean. by rewrite Hclean.
Qed.

(** * Concrete runs *)

Lemma run_eq {A} (run : State * outcome A) (o : outcome A) :
  snd run = o -> run = (fst run, o).
Proof. destruct run as [s o']. simpl. by intros ->. Qed.

(** C1: the validator cannot be started at its first run; the run does
    not return its error, it asks for a repair, with an empty standard
    error in the prompt, and goes on to return no error at all. *)
Lemma spawn_failure_is_repaired :
  let run := GenerateFuzzingHarness (Stub.world None [Stub.notStarted]) 2
               [Stub.Foo] (initialState Stub.disk) in
  calls (fst run) !! 6
  = Some (EvRun (validateArgv "contracts/Foo_fuzz.sol") ""
            (Some (CommandError (SpawnFailure
               "exec: crytic-compile: executable file not found in $PATH"))))
  /\ snd run = Ok tt
  /\ countCalls isAsk (calls (fst run)) = 2
  /\ messages (fst run) !! 7 = Some (repairRequest "")
  /\ ~ abortsOnToolFailure (Stub.world None [Stub.notStarted]) 2
         [Stub.Foo] (initialState Stub.disk).
Proof.
  assert (H6 : calls (fst (GenerateFuzzingHarness (Stub.world None [Stub.notStarted]) 2
               [Stub.Foo] (initialState Stub.disk))) !! 6
  = Some (EvRun (validateArgv "contracts/Foo_fuzz.sol") ""
            (Some (CommandError (SpawnFailure
               "exec: crytic-compile: executable file not found in $PATH")))))
    by (vm_compute; reflexivity).
  assert (Hok : snd (GenerateFuzzingHarness (Stub.world None [Stub.notStarted]) 2
               [Stub.Foo] (initialState Stub.disk)) = Ok tt)
    by (vm_compute; reflexivity).
  cbv zeta. split; [exact H6|]. split; [exact Hok|].
  split; [vm_compute; reflexivity|]. split; [vm_compute; reflexivity|].
  intros Habort. specialize (Habort 6 _ _ _ H6). rewrite Hok in Habort.
  discriminate.
Qed.

Lemma validator_error_is_repaired_witness :
  let env := Stub.world None [Stub.notStarted] in
  let s := {| messages := []; files := Stub.disk; calls := [] |} in
  let run := repairLoop env 2 Stub.Foo "contracts/Foo_fuzz.sol" s in
  snd run <> Err (CommandError (SpawnFailure
               "exec: crytic-compile: executable file not found in $PATH"))
  /\ (forall e, snd run = Err e -> isFatal e = true)
  /\ (messages s ++ [repairRequest ""]) `prefix_of` messages (fst run)
  /\ exists res,
      (calls s
         ++ [EvRun (validateArgv "contracts/Foo_fuzz.sol") ""
               (Some (CommandError (SpawnFailure
                  "exec: crytic-compile: executable file not found in $PATH")));
             EvAsk (messages s ++ [repairRequest ""]) res])
        `prefix_of` calls (fst run).
Proof.
  cbv zeta.
  apply (validator_error_is_repaired (Stub.world None [Stub.notStarted]) 1
           Stub.Foo "contracts/Foo_fuzz.sol"
           {| messages := []; files := Stub.disk; calls := [] |} ""
           (SpawnFailure "exec: crytic-compile: executable file not found in $PATH")).
  - reflexivity.
  - apply surjective_pairing.
Defined.

(** C2: three contract definitions, and a service that refuses its second
    request, the generation request for the second of them.  The run
    returns the error of the service; by then the first pass has looked
    for the artifact of the third contract definition and created it. *)
Lemma later_artifact_is_ensured :
  let run := GenerateFuzzingHarness (Stub.world (Some 1) []) 1
               [Stub.Foo; Stub.Bar; Stub.Baz] (initialState Stub.disk) in
  snd run = Err (ServiceError "insufficient_quota")
  /\ last (messages (fst run))
     = Some (generationRequest Stub.Bar "contract Bar {}" "")
  /\ calls (fst run) !! 4 = Some (EvStat "contracts/Baz_fuzz.sol" StatNotExist)
  /\ calls (fst run) !! 5 = Some (EvCreate "contracts/Baz_fuzz.sol" None)
  /\ Stub.disk !! "contracts/Baz_fuzz.sol" = None
  /\ files (fst run) !! "contracts/Baz_fuzz.sol" = Some ""
  /\ ~ sparesLaterUnits (calls (fst run)) [Stub.Baz].
Proof.
  cbv zeta. repeat split; try (vm_compute; reflexivity).
  intros Hspare. specialize (Hspare Stub.Baz).
  assert (Hin : Stub.Baz ∈ [Stub.Baz]) by apply list_elem_of_here.
  apply Hspare in Hin. vm_compute in Hin. discriminate.
Qed.

Lemma abort_on_second_unit_witness :
  let env := Stub.world (Some 1) [] in
  let cds := [Stub.Foo; Stub.Bar; Stub.Baz] in
  let s := initialState Stub.disk in
  let s0 := fst (createTestFiles env cds s) in
  let s1 := fst (harnessFor env 1 Stub.Foo s0) in
  let s2 := fst (harnessFor env 1 Stub.Bar s1) in
  GenerateFuzzingHarness env 1 cds s = (s2, Err (ServiceError "insufficient_quota"))
  /\ last (calls s2)
     = Some (EvAsk (messages s2) (Err (ServiceError "insufficient_quota")))
  /\ (forall path, path <> generateTestFilePath (SourcePath Stub.Bar) ->
        files s2 !! path = files s1 !! path)
  /\ (countCalls isWrite (calls s2) = countCalls isWrite (calls s1) ->
        files s2 = files s1)
  /\ (exists pass,
        calls s0 = calls s ++ pass
        /\ calls s0 `prefix_of` calls s2
        /\ forall cd, cd ∈ cds ->
             exists res,
               EvStat (generateTestFilePath (SourcePath cd)) res ∈ pass
               /\ match res with
                  | StatFailed why =>
                      exists log,
                        faultOracle env log
                          (OpStat (generateTestFilePath (SourcePath cd)))
                        = Some why
                  | _ => is_Some (files s2 !! generateTestFilePath (SourcePath cd))
                  end).
Proof.
  cbv zeta.
  apply (abort_on_second_unit (Stub.world (Some 1) []) 1 Stub.Foo Stub.Bar
           [Stub.Baz] (initialState Stub.disk)
           (fst (createTestFiles (Stub.world (Some 1) [])
                   [Stub.Foo; Stub.Bar; Stub.Baz] (initialState Stub.disk)))).
  - apply run_eq. vm_compute. reflexivity.
  - apply run_eq. vm_compute. reflexivity.
  - apply run_eq. vm_compute. reflexivity.
Defined.

(** C3: two contract definitions that validate at once.  The history
    grows by four messages, not by the two of the formula. *)
Lemma two_units_four_messages :
  let env := Stub.world None [] in
  let cds := [Stub.Foo; Stub.Bar] in
  let run := GenerateFuzzingHarness env 1 cds (initialState Stub.disk) in
  snd run = Ok tt
  /\ repairCycles env 1 cds (fst (createTestFiles env cds (initialState Stub.disk)))
     = [0; 0]
  /\ length (messages (initialState Stub.disk)) = 5
  /\ length (messages (fst run)) = 9
  /\ length (messages (fst run)) <> claimedHistoryLength 5 [0; 0].
Proof.
  cbv zeta.
  assert (Hlen : length (messages (fst (GenerateFuzzingHarness (Stub.world None []) 1
                   [Stub.Foo; Stub.Bar] (initialState Stub.disk)))) = 9)
    by (vm_compute; reflexivity).
  repeat split; try (vm_compute; reflexivity).
  rewrite Hlen. vm_compute. discriminate.
Qed.

Lemma history_length_witness :
  let env := Stub.world None [Stub.diagnostic; Stub.passed; Stub.diagnostic;
                              Stub.diagnostic] in
  let cds := [Stub.Foo; Stub.Bar] in
  let s := initialState Stub.disk in
  let s' := fst (GenerateFuzzingHarness env 3 cds s) in
  length (messages s')
  = length (messages s)
    + 2 * (length cds
           + sum_list (repairCycles env 3 cds (fst (createTestFiles env cds s))))
  /\ messages s `prefix_of` messages s'.
Proof.
  cbv zeta. apply history_length. apply run_eq. vm_compute. reflexivity.
Defined.

Example two_units_numbers :
  let env := Stub.world None [Stub.diagnostic; Stub.passed; Stub.diagnostic;
                              Stub.diagnostic] in
  let cds := [Stub.Foo; Stub.Bar] in
  let s := initialState Stub.disk in
  repairCycles env 3 cds (fst (createTestFiles env cds s)) = [1; 2]
  /\ length (messages (fst (GenerateFuzzingHarness env 3 cds s))) = 5 + 2 * (2 + 3).
Proof. cbv zeta. split; vm_compute; reflexivity. Qed.

Lemma repair_convergence_witness :
  let s := fst (createTestFiles (Stub.world None []) [Stub.Foo]
                  (initialState Stub.disk)) in
  (exists s' code test r0 e1 r1 e2 r2,
     harnessFor (Stub.world None [Stub.diagnostic; Stub.diagnostic]) 3 Stub.Foo s
     = (s', Ok tt)
     /\ messages s'
        = messages s ++ [generationRequest Stub.Foo code test; reply r0;
                         repairRequest e1; reply r1;
                         repairRequest e2; reply r2]
     /\ countCalls isAsk (calls s') = countCalls isAsk (calls s) + 3
     /\ countCalls isRun (calls s') = countCalls isRun (calls s) + 3
     /\ countCalls isFailedRun (calls s') = countCalls isFailedRun (calls s) + 2)
  /\ (exists s' code test r0,
        harnessFor (Stub.world None []) 1 Stub.Foo s = (s', Ok tt)
        /\ messages s' = messages s ++ [generationRequest Stub.Foo code test; reply r0]
        /\ countCalls isAsk (calls s') = countCalls isAsk (calls s) + 1
        /\ countCalls isRun (calls s') = countCalls isRun (calls s) + 1
        /\ countCalls isFailedRun (calls s') = countCalls isFailedRun (calls s)).
Proof.
  intros s.
  assert (Hanswers : forall script log history,
             exists response,
               askOracle (Stub.world None script) log history = inl response).
  { intros script log history. eexists. reflexivity. }
  assert (Hsrc : is_Some (files s !! SourcePath Stub.Foo)).
  { eexists. vm_compute. reflexivity. }
  assert (Hart : is_Some (files s !! generateTestFilePath (SourcePath Stub.Foo))).
  { eexists. vm_compute. reflexivity. }
  assert (Hruns : countCalls isRun (calls s) = 0) by (vm_compute; reflexivity).
  split.
  - apply (repair_convergence (Stub.world None [Stub.diagnostic; Stub.diagnostic])
             (Hanswers _) (fun _ _ => eq_refl) 0 Stub.Foo s Hsrc Hart).
    intros log fs argv _. rewrite Hruns. simpl. unfold Stub.validator.
    destruct (countCalls isRun log) as [|[|n]]; simpl.
    + split; [lia | eauto].
    + split; [lia | eauto].
    + split; [by intros [? ?] | lia].
  - apply (repair_convergence (Stub.world None []) (Hanswers _) (fun _ _ => eq_refl)
             0 Stub.Foo s Hsrc Hart).
    intros log fs argv. reflexivity.
Defined.

Lemma ensure_is_nondestructive_witness :
  let env := Stub.world None [] in
  let s := {| messages := []; files := Stub.disk; calls := [] |} in
  let run := createTestFiles env [Stub.Foo] s in
  let artifact := "contracts/Foo_fuzz.sol" in
  (files s !! artifact = None
   /\ snd run = Ok tt
   /\ files (fst run) = <[artifact := ""]> (files s)
   /\ calls (fst run) = [EvStat artifact StatNotExist; EvCreate artifact None])
  /\ (forall path data,
        files s !! path = Some data -> files (fst run) !! path = Some data).
Proof.
  cbv zeta.
  pose proof (ensure_is_nondestructive (Stub.world None []) Stub.Foo
                {| messages := []; files := Stub.disk; calls := [] |} _ _
                (surjective_pairing _)) as (Hbranch & _ & Hkeep).
  split; [|exact Hkeep].
  cbv zeta in Hbranch.
  replace (statResult _ _ _) with StatNotExist in Hbranch
    by (vm_compute; reflexivity).
  exact Hbranch.
Defined.

(** C5: the artifact is missing, and where its path has a directory
    there is a regular file.  os.Stat fails, and not because the file is
    missing (not a directory): the pass calls nothing else and returns
    no error, and the artifact is still missing. *)
Lemma blocked_artifact_is_not_created :
  let env := Stub.unreachable "blocker" "not a directory" in
  let s := initialState Stub.blockedDisk in
  let run := createTestFiles env [Stub.Qux] s in
  generateTestFilePath (SourcePath Stub.Qux) = "blocker/Qux_fuzz.sol"
  /\ files s !! "blocker/Qux_fuzz.sol" = None
  /\ snd run = Ok tt
  /\ calls (fst run)
     = [EvStat "blocker/Qux_fuzz.sol" (StatFailed "not a directory")]
  /\ files (fst run) !! "blocker/Qux_fuzz.sol" = None
  /\ ~ createsWhenAbsent env Stub.Qux s.
Proof.
  cbv zeta. repeat split; try (vm_compute; reflexivity).
  intros Hcreates. unfold createsWhenAbsent in Hcreates. cbv zeta in Hcreates.
  assert (Habsent : files (fst (createTestFiles
                                  (Stub.unreachable "blocker" "not a directory")
                                  [Stub.Qux] (initialState Stub.blockedDisk)))
                    !! generateTestFilePath (SourcePath Stub.Qux) = None)
    by (vm_compute; reflexivity).
  rewrite Hcreates in Habsent; [discriminate| |]; vm_compute; reflexivity.
Qed.

Example ensure_keeps_and_creates :
  let env := Stub.world None [] in
  let kept := {| messages := [];
                 files := <["contracts/Foo_fuzz.sol" := "// kept"]> Stub.disk;
                 calls := [] |} in
  let bare := {| messages := []; files := Stub.disk; calls := [] |} in
  let full := createTestFiles (Stub.unreachable "contracts" "permission denied")
                [Stub.Foo] kept in
  files (fst (createTestFiles env [Stub.Foo] kept)) !! "contracts/Foo_fuzz.sol"
  = Some "// kept"
  /\ calls (fst (createTestFiles env [Stub.Foo] kept))
     = [EvStat "contracts/Foo_fuzz.sol" StatFound]
  /\ files (fst (createTestFiles env [Stub.Foo] bare)) !! "contracts/Foo_fuzz.sol"
     = Some ""
  /\ files (fst full) !! "contracts/Foo_fuzz.sol" = Some "// kept"
  /\ snd full = Ok tt.
Proof. cbv zeta. repeat split; vm_compute; reflexivity. Qed.

Lemma persist_is_verbatim_witness :
  let env := Stub.world None [Stub.diagnostic] in
  let s := fst (createTestFiles env [Stub.Foo] (initialState Stub.disk)) in
  let run := harnessFor env 2 Stub.Foo s in
  (exists log,
      calls (fst run) = calls s ++ log
      /\ writesVerbatim (generateTestFilePath (SourcePath Stub.Foo)) None log = true)
  /\ match snd run with
     | Err _ => True
     | _ => exists history response,
         messages (fst run) = history ++ [reply response]
         /\ files (fst run) !! generateTestFilePath (SourcePath Stub.Foo)
            = Some response
     end.
Proof.
  cbv zeta.
  apply (persist_is_verbatim (Stub.world None [Stub.diagnostic]) 2 Stub.Foo).
  apply surjective_pairing.
Defined.

Example persisted_reply :
  let env := Stub.world None [Stub.diagnostic] in
  let run := GenerateFuzzingHarness env 2 [Stub.Foo] (initialState Stub.disk) in
  snd run = Ok tt
  /\ files (fst run) !! "contracts/Foo_fuzz.sol" = Some (Stub.replyText 1)
  /\ last (messages (fst run)) = Some (reply (Stub.replyText 1)).
Proof. cbv zeta. repeat split; vm_compute; reflexivity. Qed.


Example diagnostic_then_refusal :
  let env := Stub.world (Some 2) [Stub.diagnostic; Stub.diagnostic] in
  let run := GenerateFuzzingHarness env 3 [Stub.Foo; Stub.Bar]
               (initialState Stub.disk) in
  snd run = Err (ServiceError "insufficient_quota")
  /\ countCalls isFailedRun (calls (fst run)) = 2.
Proof. cbv zeta. split; vm_compute; reflexivity. Qed.

Lemma refused_repair_request_stays_witness :
  let env := Stub.world (Some 1) [Stub.diagnostic; Stub.diagnostic] in
  let s := {| messages := TrainingPrompts;
              files := <["contracts/Foo_fuzz.sol" := "// draft"]> Stub.disk;
              calls := [] |} in
  let s' := fst (repairLoop env 3 Stub.Foo "contracts/Foo_fuzz.sol" s) in
  exists history stdErr,
    messages s' = history ++ [repairRequest stdErr]
    /\ Role (repairRequest stdErr) = "user"
    /\ messages s `prefix_of` history
    /\ last (calls s')
       = Some (EvAsk (messages s') (Err (ServiceError "insufficient_quota"))).
Proof.
  cbv zeta.
  apply (refused_repair_request_stays
           (Stub.world (Some 1) [Stub.diagnostic; Stub.diagnostic]) 3 Stub.Foo
           "contracts/Foo_fuzz.sol").
  apply run_eq. vm_compute. reflexivity.
Defined.

Lemma test_contract_name_witness :
  let env := Stub.world None [] in
  let s := fst (createTestFiles env [Stub.Foo] (initialState Stub.disk)) in
  let run := harnessFor env 1 Stub.Foo s in
  generateTestContractName (Name Stub.Foo) = Name Stub.Foo +:+ "Test"
  /\ exists log,
      calls (fst run) = calls s ++ log
      /\ match firstRequest log with
         | None => True
         | Some history =>
             exists code test,
               history
               = messages s
                   ++ [ {| Role := "user";
                           Content :=
                             GenerateFuzzHarnessPrompt (SourcePath Stub.Foo)
                               (generateTestFilePath (SourcePath Stub.Foo)) code test
                               (Name Stub.Foo) (Name Stub.Foo +:+ "Test") |} ]
         end.
Proof.
  cbv zeta.
  eapply (test_contract_name (Stub.world None []) 1 Stub.Foo).
  apply surjective_pairing.
Defined.

Example name_of_FooTest : generateTestContractName "Foo" = "FooTest".
Proof. reflexivity. Qed.

(** C6: a path that begins with [./] loses it. *)
Lemma dot_slash_is_dropped :
  generateTestFilePath "./Foo.sol" = "Foo_fuzz.sol"
  /\ stringOf (insertMarker (bytesOf "./Foo.sol")) = "./Foo_fuzz.sol"
  /\ generateTestFilePath "./Foo.sol" <> stringOf (insertMarker (bytesOf "./Foo.sol")).
Proof.
  assert (H1 : generateTestFilePath "./Foo.sol" = "Foo_fuzz.sol")
    by (vm_compute; reflexivity).
  assert (H2 : stringOf (insertMarker (bytesOf "./Foo.sol")) = "./Foo_fuzz.sol")
    by (vm_compute; reflexivity).
  split; [exact H1|]. split; [exact H2|]. rewrite H1, H2. discriminate.
Qed.

Lemma test_file_path_witness :
  let p := "contracts/Foo.sol" in
  let dir := bytesOf "contracts/" in
  let file := bytesOf "Foo.sol" in
  let ext := filepath.Ext file in
  let stem := strings.TrimSuffix file ext in
  (forall q, q = p -> generateTestFilePath q = generateTestFilePath p)
  /\ bytesOf p = dir ++ stem ++ ext
  /\ generateTestFilePath p = stringOf (filepath.Clean (insertMarker (bytesOf p)))
  /\ generateTestFilePath p = stringOf (cleanDir dir ++ stem ++ fuzzMarker ++ ext)
  /\ filepath.Split (bytesOf (generateTestFilePath p))
     = (cleanDir dir, stem ++ fuzzMarker ++ ext)
  /\ filepath.Ext (bytesOf (generateTestFilePath p)) = filepath.Ext (bytesOf p)
  /\ (filepath.Clean (bytesOf p) = bytesOf p -> isName file = true ->
      generateTestFilePath p = stringOf (insertMarker (bytesOf p))).
Proof.
  cbv zeta.
  apply (test_file_path "contracts/Foo.sol" (bytesOf "contracts/") (bytesOf "Foo.sol")).
  vm_compute. reflexivity.
Defined.

Example derived_paths :
  generateTestFilePath "contracts/Foo.sol" = "contracts/Foo_fuzz.sol"
  /\ generateTestFilePath "/src/a.b/Token.t.sol" = "/src/a.b/Token.t_fuzz.sol"
  /\ generateTestFilePath "Foo" = "Foo_fuzz"
  /\ generateTestFilePath "a/../b//Foo.sol" = "b/Foo_fuzz.sol"
  /\ generateTestFilePath "../lib/.hidden" = "../lib/_fuzz.hidden"
  /\ filepath.Clean (bytesOf "contracts/Foo.sol") = bytesOf "contracts/Foo.sol"
  /\ isName (bytesOf "Foo.sol") = true.
Proof. repeat split; vm_compute; reflexivity. Qed.

(** * Names, prompts and paths: further properties *)

Lemma bytesOf_append a b : bytesOf (a +:+ b) = bytesOf a ++ bytesOf b.
Proof. induction a as [|c a IH]; [reflexivity|]. simpl. by rewrite IH. Qed.

Lemma bytesOf_inj a b : bytesOf a = bytesOf b -> a = b.
Proof.
  intros H. rewrite <- (String.string_of_list_ascii_of_string a).
  rewrite <- (String.string_of_list_ascii_of_string b).
  unfold bytesOf in H. by rewrite H.
Qed.

Lemma bytesOf_length s : length (bytesOf s) = String.length s.
Proof. induction s as [|c s IH]; [reflexivity|]. simpl. by rewrite IH. Qed.

(** X4: the names of the test contracts tell the contracts apart: two
    names give the same test contract name only if they are the same
    name, and the test contract never gets the name of the contract it
    tests, being four bytes longer. *)
Theorem test_contract_names_differ n m :
  (generateTestContractName n = generateTestContractName m <-> n = m)
  /\ generateTestContractName n <> n
  /\ String.length (generateTestContractName n) = String.length n + 4.
Proof.
  assert (Hlen : forall x, String.length (generateTestContractName x)
                           = String.length x + 4).
  { intros x. unfold generateTestContractName.
    rewrite <- !bytesOf_length, bytesOf_append, length_app. reflexivity. }
  split; [split|split].
  - intros H. apply bytesOf_inj. apply (f_equal bytesOf) in H.
    unfold generateTestContractName in H. rewrite !bytesOf_append in H.
    by apply app_inv_tail in H.
  - by intros ->.
  - intros H. apply (f_equal String.length) in H. rewrite Hlen in H. lia.
  - apply Hlen.
Qed.

(** The fixed text of the two templates, in bytes, as fmt.Sprintf gives
    it for empty arguments. *)
Example template_sizes :
  String.length (RegenerateFuzzHarnessPrompt "") = 666
  /\ String.length (GenerateFuzzHarnessPrompt "" "" "" "" "" "") = 1909.
Proof. split; vm_compute; reflexivity. Qed.

(** X5: the repair prompt carries the standard error of the validator
    whole, between the same opening and the same closing text: two
    prompts are the same only for the same standard error, and nothing
    is cut or escaped, the prompt being longer than the error by the
    length of the fixed text. *)
Theorem repair_prompt_keeps_error e1 e2 :
  (RegenerateFuzzHarnessPrompt e1 = RegenerateFuzzHarnessPrompt e2 <-> e1 = e2)
  /\ String.length (RegenerateFuzzHarnessPrompt e1)
     = String.length (RegenerateFuzzHarnessPrompt "") + String.length e1.
Proof.
  split; [split|].
  - intros H. apply bytesOf_inj. apply (f_equal bytesOf) in H.
    unfold RegenerateFuzzHarnessPrompt in H. rewrite !bytesOf_append in H.
    apply app_inv_head in H. by apply app_inv_tail in H.
  - by intros ->.
  - unfold RegenerateFuzzHarnessPrompt.
    rewrite <- !bytesOf_length, !bytesOf_append, !length_app.
    change (length (bytesOf "")) with 0. lia.
Qed.

(** The bytes of the path of the test file. *)
Lemma testFilePath_bytes p dir file :
  filepath.Split (bytesOf p) = (dir, file) ->
  let name := strings.TrimSuffix file (filepath.Ext file) ++ fuzzMarker
                ++ filepath.Ext file in
  bytesOf p = dir ++ file
  /\ length name = length file + 5
  /\ bytesOf (generateTestFilePath p) = cleanDir dir ++ name
  /\ filepath.Split (bytesOf (generateTestFilePath p)) = (cleanDir dir, name).
Proof.
  intros Hsplit name.
  destruct (PathFacts.Split_spec _ _ _ Hsplit) as (Hp & Hno & Hdir).
  destruct (PathFacts.file_stem_ext file Hno) as (Hfile & Hstem & Hext & _).
  assert (Hlen : length name = length file + 5).
  { pose proof (f_equal length Hfile) as Hl. rewrite length_app in Hl.
    subst name. rewrite !length_app. change (length fuzzMarker) with 5. lia. }
  assert (Hnamesep : noSep name).
  { apply PathFacts.noSep_app. split; [assumption|].
    apply PathFacts.noSep_app. split; [apply PathFacts.noSep_marker | assumption]. }
  assert (Hname : isName name = true) by (apply PathFacts.isName_long; lia).
  assert (Hbytes : bytesOf (generateTestFilePath p) = cleanDir dir ++ name).
  { unfold generateTestFilePath, bytesOf, stringOf.
    rewrite String.list_ascii_of_string_of_list_ascii.
    unfold generateTestFilePathBytes. fold (bytesOf p). rewrite Hsplit.
    by apply PathFacts.Join_dir_name. }
  repeat split; try assumption.
  rewrite Hbytes. apply PathFacts.Split_dir_file; [assumption|].
  apply PathFacts.cleanDir_shape.
Qed.

Lemma testFilePath_neq p : generateTestFilePath p <> p.
Proof.
  destruct (filepath.Split (bytesOf p)) as [dir file] eqn:Hsplit.
  destruct (testFilePath_bytes p dir file Hsplit) as (Hp & Hlen & Hbytes & Hs).
  cbv zeta in *. intros H. rewrite H, Hsplit in Hs.
  pose proof (f_equal (fun x => length (snd x)) Hs) as Hl.
  cbv beta in Hl. cbn [snd] in Hl. lia.
Qed.

(** X6: the path of the test file is never the path it is derived from,
    however the path is written: its base filename is the base filename
    of the path made five bytes longer, so that even in one directory
    the two name different files. *)
Theorem test_file_path_differs p :
  generateTestFilePath p <> p
  /\ snd (filepath.Split (bytesOf (generateTestFilePath p)))
     <> snd (filepath.Split (bytesOf p))
  /\ length (snd (filepath.Split (bytesOf (generateTestFilePath p))))
     = length (snd (filepath.Split (bytesOf p))) + 5.
Proof.
  split; [apply testFilePath_neq|].
  destruct (filepath.Split (bytesOf p)) as [dir file] eqn:Hsplit.
  destruct (testFilePath_bytes p dir file Hsplit) as (Hp & Hlen & Hbytes & Hs).
  cbv zeta in *. rewrite Hs. cbn [snd].
  split; [|exact Hlen]. intros H. apply (f_equal length) in H. lia.
Qed.

(** * Further properties of the code *)

Section Extras.

Variable env : Env.

(** ** The first pass, over a whole list *)

Lemma createTestFiles_quiet cds s s' r :
  createTestFiles env cds s = (s', r) ->
  countCalls isAsk (calls s') = countCalls isAsk (calls s)
  /\ countCalls isRun (calls s') = countCalls isRun (calls s)
  /\ forall path,
      files s !! path = None ->
      files s' !! path = None
      \/ (files s' !! path = Some "" /\ exists cd, cd ∈ cds /\ path = artifactOf cd).
Proof.
  revert s. induction cds as [|cd rest IH]; intros s H.
  - injection H as <- <-. repeat split. intros path Hnone. by left.
  - rewrite createTestFiles_cons in H. cbv zeta in H.
    assert (Hskip : forall res,
              createTestFiles env rest
                (logCall (EvStat (generateTestFilePath (SourcePath cd)) res) s)
              = (s', r) ->
              countCalls isAsk (calls s') = countCalls isAsk (calls s)
              /\ countCalls isRun (calls s') = countCalls isRun (calls s)
              /\ forall path,
                  files s !! path = None ->
                  files s' !! path = None
                  \/ (files s' !! path = Some ""
                      /\ exists cd0, cd0 ∈ cd :: rest /\ path = artifactOf cd0)).
    { intros res Hrest. apply IH in Hrest as (Ha & Hr & Hnew). open_states.
      rewrite countCalls_app in Ha, Hr. simpl in Ha, Hr.
      repeat split; try lia.
      intros path Hnone. destruct (Hnew path Hnone) as [?|(? & cd' & Hin & ->)];
        [by left|]. right. split; [assumption|]. exists cd'.
      split; [by apply elem_of_cons; right | reflexivity]. }
    destruct (statResult env s (generateTestFilePath (SourcePath cd)))
      as [| |why] eqn:Hres.
    + by apply (Hskip StatFound).
    + clear Hskip. destruct (faultOracle env _ _) as [reason|].
      * injection H as <- <-. open_states. rewrite !countCalls_app. simpl.
        repeat split; try lia. intros path Hnone. by left.
      * pose proof (createTestFiles_spec _ _ _ _ _ H) as (_ & _ & _ & Hkeep & _).
        apply IH in H as (Ha & Hr & Hnew). open_states.
        rewrite !countCalls_app in Ha, Hr. simpl in Ha, Hr.
        repeat split; try lia.
        intros path Hnone.
        destruct (decide (path = generateTestFilePath (SourcePath cd))) as [->|Hne].
        -- right. split.
           ++ apply Hkeep. apply lookup_insert_eq.
           ++ exists cd. split; [apply list_elem_of_here | reflexivity].
        -- destruct (Hnew path) as [?|(? & cd' & Hin & ->)].
           ++ by rewrite lookup_insert_ne.
           ++ by left.
           ++ right. split; [assumption|]. exists cd'.
              split; [by apply elem_of_cons; right | reflexivity].
    + by apply (Hskip (StatFailed why)).
Qed.

(** X1: a first pass that returns no error has called os.Stat on the
    artifact of every contract definition of the list, and leaves each of
    these artifacts there unless that call failed (for another reason
    than a missing file: nothing is created then).  The files that were
    there keep their content; a file that was not there is either still
    not there or an artifact of the list, empty.  The pass does not touch
    the history, asks nothing of the service and runs no validation. *)
Theorem first_pass_ensures_all cds s s' :
  createTestFiles env cds s = (s', Ok tt) ->
  (exists log,
     calls s' = calls s ++ log
     /\ forall cd, cd ∈ cds ->
          exists res,
            EvStat (artifactOf cd) res ∈ log
            /\ match res with
               | StatFailed reason =>
                   exists log0,
                     faultOracle env log0 (OpStat (artifactOf cd)) = Some reason
               | _ => is_Some (files s' !! artifactOf cd)
               end)
  /\ (forall path data, files s !! path = Some data -> files s' !! path = Some data)
  /\ (forall path,
        files s !! path = None ->
        files s' !! path = None
        \/ (files s' !! path = Some "" /\ exists cd, cd ∈ cds /\ path = artifactOf cd))
  /\ messages s' = messages s
  /\ countCalls isAsk (calls s') = countCalls isAsk (calls s)
  /\ countCalls isRun (calls s') = countCalls isRun (calls s).
Proof.
  intros H.
  pose proof (createTestFiles_spec _ _ _ _ _ H) as (Hm & _ & _ & Hkeep & _).
  pose proof (createTestFiles_quiet _ _ _ _ H) as (Ha & Hr & Hnew).
  pose proof (createTestFiles_ensured _ _ _ _ H) as Hall.
  repeat split; assumption.
Qed.

(** X2: a first pass that fails stops at the first artifact it cannot
    create.  The contract definitions before that one have had their
    pass, as if the list ended there, and what it created stays; the
    artifact that could not be created was not there; the error is that
    of os.Create, the last call; the contract definitions after it are
    not looked at. *)
Theorem first_pass_fails_fast cds s s' e :
  createTestFiles env cds s = (s', Err e) ->
  exists before cd after s0 reason,
    cds = before ++ cd :: after
    /\ createTestFiles env before s = (s0, Ok tt)
    /\ files s0 !! artifactOf cd = None
    /\ e = PathError "open" (artifactOf cd) reason
    /\ s' = logCall (EvCreate (artifactOf cd) (Some e))
              (logCall (EvStat (artifactOf cd) StatNotExist) s0).
Proof.
  revert s. induction cds as [|cd rest IH]; intros s H; [discriminate|].
  rewrite createTestFiles_cons in H. cbv zeta in H.
  destruct (statResult env s (generateTestFilePath (SourcePath cd)))
    as [| |why] eqn:Hres.
  - apply IH in H as (before & cd' & after & s0 & reason & -> & Hbefore & Hnone & -> & ->).
    exists (cd :: before), cd', after, s0, reason.
    repeat split; try assumption.
    rewrite createTestFiles_cons. cbv zeta. by rewrite Hres.
  - destruct (faultOracle env _ _) as [reason|] eqn:Hfault.
    + injection H as <- <-. exists [], cd, rest, s, reason.
      repeat split. by apply statResult_notExist in Hres.
    + apply IH in H as (before & cd' & after & s0 & reason' & -> & Hbefore & Hnone & -> & ->).
      exists (cd :: before), cd', after, s0, reason'.
      repeat split; try assumption.
      rewrite createTestFiles_cons. cbv zeta. by rewrite Hres, Hfault.
  - apply IH in H as (before & cd' & after & s0 & reason & -> & Hbefore & Hnone & -> & ->).
    exists (cd :: before), cd', after, s0, reason.
    repeat split; try assumption.
    rewrite createTestFiles_cons. cbv zeta. by rewrite Hres.
Qed.

(** A pass over contract definitions whose artifacts are all there, in
    any world: os.Stat finds them, or fails, and nothing is created. *)
Lemma createTestFiles_found env' cds s :
  (forall cd, cd ∈ cds -> is_Some (files s !! artifactOf cd)) ->
  exists log,
    createTestFiles env' cds s
    = ({| messages := messages s; files := files s; calls := calls s ++ log |},
       Ok tt)
    /\ Forall2 (fun cd ev => statKeeps (artifactOf cd) ev) cds log.
Proof.
  revert s. induction cds as [|cd rest IH]; intros s Hall.
  - exists []. split; [|constructor]. simpl. rewrite app_nil_r. by destruct s.
  - assert (Hhere : is_Some (files s !! artifactOf cd))
      by apply Hall, list_elem_of_here.
    destruct Hhere as [data Hdata].
    pose proof (statResult_present env' _ _ _ Hdata) as Hne.
    destruct (IH (logCall (EvStat (artifactOf cd)
                             (statResult env' s (artifactOf cd))) s))
      as (log & Hrun & Hlog).
    { intros cd' Hin. simpl. apply Hall. by apply elem_of_cons; right. }
    exists (EvStat (artifactOf cd) (statResult env' s (artifactOf cd)) :: log).
    split.
    + rewrite createTestFiles_cons. cbv zeta. fold (artifactOf cd).
      destruct (statResult env' s (artifactOf cd)) as [| |why] eqn:Hres;
        [|congruence|].
      * rewrite Hrun. unfold logCall. simpl. by rewrite <- app_assoc.
      * rewrite Hrun. unfold logCall. simpl. by rewrite <- app_assoc.
    + constructor; [|exact Hlog]. eexists. split; [reflexivity|exact Hne].
Qed.

(** X3: the first pass is idempotent.  After a pass that returned no
    error and in which os.Stat did not fail, a second pass over the same
    list, whatever the file system answers this time, creates nothing
    and fails on nothing: it only calls os.Stat, once for each contract
    definition in their order, which never tells that a file is missing;
    the files and the history are as the first pass left them. *)
Theorem first_pass_idempotent cds s s1 env' :
  createTestFiles env cds s = (s1, Ok tt) ->
  (forall log path, faultOracle env log (OpStat path) = None) ->
  exists log,
    createTestFiles env' cds s1
    = ({| messages := messages s1; files := files s1; calls := calls s1 ++ log |},
       Ok tt)
    /\ Forall2 (fun cd ev => statKeeps (artifactOf cd) ev) cds log.
Proof.
  intros H Hstat. apply createTestFiles_found.
  apply createTestFiles_spec in H as (_ & _ & _ & _ & Hall).
  intros cd Hin. destruct (Hall cd Hin) as [Hsome|(log & reason & Hfault)].
  - exact Hsome.
  - rewrite Hstat in Hfault. discriminate.
Qed.


(** ** One contract definition: files *)

(** The files are some files with the artifact set to the last reply of
    the history. *)
Lemma RepairRun_stored cd testFilePath s s' r base :
  RepairRun env cd testFilePath s s' r ->
  (exists history response,
      messages s = history ++ [reply response]
      /\ files s = <[artifactOf cd := response]> base) ->
  match r with
  | Ok _ => exists history response,
              messages s' = history ++ [reply response]
              /\ files s' = <[artifactOf cd := response]> base
  | _ => True
  end.
Proof.
  induction 1 as [s stdErr Hrun | s stdErr failure reason Hrun s1 Hask
                 | s stdErr failure response reason Hrun s1 Hask s2 Hw
                 | s stdErr failure response s' r Hrun s1 Hask s2 Hw Hrest IH
                 | s ]; try (intros; exact I).
  - intros H. exact H.
  - intros (history & previous & _ & Hfiles). apply IH.
    subst s1 s2. open_states.
    eexists _, response. split; [reflexivity|].
    rewrite Hfiles. apply insert_insert_eq.
Qed.

Lemma HarnessRun_stored cd s s' :
  HarnessRun env cd s s' (Ok tt) ->
  exists history response,
    messages s' = history ++ [reply response]
    /\ files s' = <[artifactOf cd := response]> (files s).
Proof.
  intros H. remember (Ok tt) as r eqn:Hr.
  destruct H as [s e Hsrc | s code e Hsrc s1 Htest
                | s code test reason Hsrc s1 Htest s2 request Hask
                | s code test response reason Hsrc s1 Htest s2 request Hask s3 Hw
                | s code test response s' r Hsrc s1 Htest s2 request Hask s3 Hw Hrest];
    try discriminate.
  subst r. apply (RepairRun_stored _ _ _ _ _ (files s)) in Hrest; [exact Hrest|].
  subst s1 s2 s3. open_states.
  eexists _, response. split; reflexivity.
Qed.

Lemma HarnessRun_no_write cd s s' r :
  HarnessRun env cd s s' r ->
  countCalls isWrite (calls s') = countCalls isWrite (calls s) ->
  files s' = files s.
Proof.
  intros H Hwrites.
  destruct H as [s e Hsrc | s code e Hsrc s1 Htest
                | s code test reason Hsrc s1 Htest s2 request Hask
                | s code test response reason Hsrc s1 Htest s2 request Hask s3 Hw
                | s code test response s' r Hsrc s1 Htest s2 request Hask s3 Hw Hrest];
    try reflexivity.
  exfalso. apply RepairRun_grows in Hrest as [_ Hc].
  apply (countCalls_prefix isWrite) in Hc.
  subst s1 s2 s3. open_states. rewrite !countCalls_app in Hc.
  simpl in Hc. lia.
Qed.

(** X7: whatever its outcome, the processing of a contract definition
    leaves every path other than that of the artifact as it was, the
    source file of the contract among them.  When it returns no error,
    the files are the files it found with the artifact set to the last
    reply of the history; when it has not called os.WriteFile, no file
    has changed. *)
Theorem unit_changes_only_its_artifact fuel cd s s' r :
  harnessFor env fuel cd s = (s', r) ->
  (forall path, path <> artifactOf cd -> files s' !! path = files s !! path)
  /\ files s' !! SourcePath cd = files s !! SourcePath cd
  /\ (r = Ok tt ->
      exists history response,
        messages s' = history ++ [reply response]
        /\ files s' = <[artifactOf cd := response]> (files s))
  /\ (countCalls isWrite (calls s') = countCalls isWrite (calls s) ->
      files s' = files s).
Proof.
  intros H. apply harnessFor_run in H. repeat split.
  - intros path Hne. eapply HarnessRun_frame; eassumption.
  - eapply HarnessRun_frame; [eassumption|].
    intros Heq. symmetry in Heq. by apply testFilePath_neq in Heq.
  - intros ->. by apply HarnessRun_stored.
  - by eapply HarnessRun_no_write.
Qed.

Lemma generateFuzzingHarness_frame fuel cds s s' r path :
  generateFuzzingHarness env fuel cds s = (s', r) ->
  (forall cd, cd ∈ cds -> path <> artifactOf cd) ->
  files s' !! path = files s !! path.
Proof.
  revert s. induction cds as [|cd rest IH]; intros s H Hne.
  - by injection H as <- <-.
  - rewrite generateFuzzingHarness_cons in H.
    destruct (harnessFor env fuel cd s) as [s1 o] eqn:Hcd.
    apply harnessFor_run in Hcd.
    assert (H1 : files s1 !! path = files s !! path).
    { eapply HarnessRun_frame; [eassumption|]. apply Hne, list_elem_of_here. }
    destruct o as [[]|e|].
    + rewrite <- H1. apply IH; [assumption|].
      intros cd' Hin. apply Hne. by apply elem_of_cons; right.
    + by injection H as <- <-.
    + by injection H as <- <-.
Qed.

(** X8: a run, first pass included and whatever its outcome, leaves
    every file that is not the artifact of one of its contract
    definitions as it found it, there or not there. *)
Theorem run_touches_only_artifacts fuel cds s s' r path :
  GenerateFuzzingHarness env fuel cds s = (s', r) ->
  (forall cd, cd ∈ cds -> path <> artifactOf cd) ->
  files s' !! path = files s !! path.
Proof.
  intros H Hne. rewrite GenerateFuzzingHarness_unfold in H.
  destruct (createTestFiles env cds s) as [s0 o] eqn:Hcreate.
  assert (H0 : files s0 !! path = files s !! path).
  { pose proof (createTestFiles_spec _ _ _ _ _ Hcreate) as (_ & _ & _ & Hkeep & _).
    pose proof (createTestFiles_quiet _ _ _ _ Hcreate) as (_ & _ & Hnew).
    destruct (files s !! path) as [data|] eqn:Hlook.
    - by apply Hkeep.
    - destruct (Hnew path Hlook) as [?|(_ & cd & Hin & ->)]; [assumption|].
      exfalso. by apply (Hne cd). }
  destruct o as [[]|e|].
  - rewrite <- H0. eapply generateFuzzingHarness_frame; eassumption.
  - by injection H as <- <-.
  - by injection H as <- <-.
Qed.

(** X9: without its source file or without its artifact, the processing
    of a contract definition returns an error of package os at once: it
    stores no request, asks nothing of the service and changes no
    file. *)
Theorem unit_needs_both_files fuel cd s :
  files s !! SourcePath cd = None \/ files s !! artifactOf cd = None ->
  exists s' e,
    harnessFor env fuel cd s = (s', Err e)
    /\ isFatal e = true
    /\ messages s' = messages s
    /\ files s' = files s
    /\ countCalls isAsk (calls s') = countCalls isAsk (calls s).
Proof.
  intros Hmissing. rewrite harnessFor_unfold. cbv zeta.
  destruct (readResult env s (SourcePath cd)) as [code|e|] eqn:Hsrc.
  - assert (Hart : files s !! artifactOf cd = None).
    { destruct Hmissing as [Hnone|?]; [|assumption].
      unfold readResult in Hsrc. rewrite Hnone in Hsrc.
      destruct (faultOracle env (calls s) _); discriminate. }
    destruct (readResult env (afterRead env (SourcePath cd) s)
                (generateTestFilePath (SourcePath cd))) as [test|e|] eqn:Htest.
    + unfold readResult in Htest. open_states. unfold artifactOf in Hart.
      rewrite Hart in Htest. destruct (faultOracle env _ _); discriminate.
    + eexists _, e. split; [reflexivity|].
      split; [eapply readResult_fatal; eassumption|].
      open_states. rewrite !countCalls_app. simpl. repeat split. lia.
    + exfalso. eapply readResult_returns; eassumption.
  - eexists _, e. split; [reflexivity|].
    split; [eapply readResult_fatal; eassumption|].
    open_states. rewrite !countCalls_app. simpl. repeat split. lia.
  - exfalso. eapply readResult_returns; eassumption.
Qed.

Lemma RepairRun_unwritten cd testFilePath s s' path reason :
  RepairRun env cd testFilePath s s' (Err (PathError "write" path reason)) ->
  path = artifactOf cd
  /\ exists history response,
      messages s' = history ++ [reply response]
      /\ messages s `prefix_of` history
      /\ last (calls s')
         = Some (EvWriteFile path response (Some (PathError "write" path reason))).
Proof.
  intros Hrun. remember (Err (PathError "write" path reason)) as r eqn:Hr.
  induction Hrun as [s stdErr Hrun | s stdErr failure reason' Hrun s1 Hask
                 | s stdErr failure response reason' Hrun s1 Hask s2 Hw
                 | s stdErr failure response s' r Hrun s1 Hask s2 Hw Hrest IH
                 | s ]; try discriminate.
  - injection Hr as <- <-. split; [reflexivity|].
    eexists _, response. subst s1 s2. open_states.
    split; [reflexivity|]. split; [grow|]. by rewrite last_snoc.
  - destruct (IH Hr) as (Hp & history & response' & Hm & Hpre & Hlast).
    split; [assumption|]. exists history, response'.
    repeat split; try assumption.
    etrans; [|exact Hpre]. subst s1 s2. open_states. grow.
Qed.

(** X10: when a write fails, the reply that could not be written is
    already the last message of the history: the error returned is that
    of os.WriteFile on the artifact, the last call, made with exactly
    that reply. *)
Theorem unwritten_reply_is_in_history fuel cd s s' path reason :
  harnessFor env fuel cd s = (s', Err (PathError "write" path reason)) ->
  path = artifactOf cd
  /\ exists history response,
      messages s' = history ++ [reply response]
      /\ messages s `prefix_of` history
      /\ last (calls s')
         = Some (EvWriteFile path response (Some (PathError "write" path reason))).
Proof.
  intros H. apply harnessFor_run in H.
  remember (Err (PathError "write" path reason)) as r eqn:Hr.
  destruct H as [s e Hsrc | s code e Hsrc s1 Htest
                | s code test reason' Hsrc s1 Htest s2 request Hask
                | s code test response reason' Hsrc s1 Htest s2 request Hask s3 Hw
                | s code test response s' r Hsrc s1 Htest s2 request Hask s3 Hw Hrest].
  - injection Hr as ->. unfold readResult in Hsrc.
    destruct (faultOracle env (calls s) _); [discriminate|].
    destruct (files s !! _); discriminate.
  - injection Hr as ->. unfold readResult in Htest.
    destruct (faultOracle env (calls s1) _); [discriminate|].
    destruct (files s1 !! _); discriminate.
  - discriminate.
  - injection Hr as <- <-. split; [reflexivity|].
    eexists _, response. subst s1 s2 s3. open_states.
    split; [reflexivity|]. split; [grow|]. by rewrite last_snoc.
  - subst r.
    destruct (RepairRun_unwritten _ _ _ _ _ _ Hrest)
      as (Hp & history & response' & Hm & Hpre & Hlast).
    split; [assumption|]. exists history, response'.
    repeat split; try assumption.
    etrans; [|exact Hpre]. subst s1 s2 s3. open_states. grow.
Qed.

(** X11: when the first pass fails the run returns its error without
    having asked anything of the service or run any validation, and with
    the history it started with. *)
Theorem first_pass_failure_ends_run fuel cds s s0 e :
  createTestFiles env cds s = (s0, Err e) ->
  GenerateFuzzingHarness env fuel cds s = (s0, Err e)
  /\ messages s0 = messages s
  /\ countCalls isAsk (calls s0) = countCalls isAsk (calls s)
  /\ countCalls isRun (calls s0) = countCalls isRun (calls s).
Proof.
  intros H. split.
  - rewrite GenerateFuzzingHarness_unfold. by rewrite H.
  - pose proof (createTestFiles_spec _ _ _ _ _ H) as (Hm & _).
    pose proof (createTestFiles_quiet _ _ _ _ H) as (Ha & Hr & _).
    by repeat split.
Qed.

(** ** One contract definition: what the service is asked *)

Lemma readResult_found s path data :
  (forall log p, faultOracle env log (OpReadFile p) = None) ->
  files s !! path = Some data -> readResult env s path = Ok data.
Proof. intros Hf H. unfold readResult. by rewrite Hf, H. Qed.

Lemma readResult_ok s path data :
  readResult env s path = Ok data -> files s !! path = Some data.
Proof.
  unfold readResult. destruct (faultOracle env (calls s) _); [discriminate|].
  destruct (files s !! path); [|discriminate]. by intros [= ->].
Qed.

Lemma harnessFor_first_request fuel cd s s' r code test :
  (forall log p, faultOracle env log (OpReadFile p) = None) ->
  files s !! SourcePath cd = Some code ->
  files s !! artifactOf cd = Some test ->
  harnessFor env fuel cd s = (s', r) ->
  exists log,
    calls s' = calls s ++ log
    /\ firstRequest log = Some (messages s ++ [generationRequest cd code test]).
Proof.
  intros Hf Hcode Htest H. apply harnessFor_run in H.
  assert (Hsrc' : readResult env s (SourcePath cd) = Ok code)
    by (by apply readResult_found).
  assert (Hart' : readResult env (afterRead env (SourcePath cd) s) (artifactOf cd)
                  = Ok test) by (by apply readResult_found).
  destruct H as [s e Hsrc | s code' e Hsrc s1 Htest'
                | s code' test' reason Hsrc s1 Htest' s2 request Hask
                | s code' test' response reason Hsrc s1 Htest' s2 request Hask s3 Hw
                | s code' test' response s' r Hsrc s1 Htest' s2 request Hask s3 Hw Hrest].
  - congruence.
  - subst s1. unfold artifactOf in Hart'. congruence.
  - assert (code' = code) as -> by congruence.
    assert (test' = test) as -> by (subst s1; unfold artifactOf in Hart'; congruence).
    eexists. subst s1 s2 request. open_states. rewrite <- !app_assoc.
    split; reflexivity.
  - assert (code' = code) as -> by congruence.
    assert (test' = test) as -> by (subst s1; unfold artifactOf in Hart'; congruence).
    eexists. subst s1 s2 s3 request. open_states. rewrite <- !app_assoc.
    split; reflexivity.
  - assert (code' = code) as -> by congruence.
    assert (test' = test) as -> by (subst s1; unfold artifactOf in Hart'; congruence).
    apply RepairRun_grows in Hrest as [_ [log Hlog]].
    subst s1 s2 s3 request. open_states. rewrite <- !app_assoc in Hlog.
    simpl in Hlog. eexists. split; [exact Hlog|]. reflexivity.
Qed.

(** X12: the generation request shows the service the two files as they
    are when the contract definition is taken up: when reading does not
    fail, the first request made for it carries the history extended by
    the generation prompt built from the content of the source file and
    the content of the artifact at that time. *)
Theorem generation_request_embeds_files fuel cd s s' r code test :
  (forall log p, faultOracle env log (OpReadFile p) = None) ->
  files s !! SourcePath cd = Some code ->
  files s !! artifactOf cd = Some test ->
  harnessFor env fuel cd s = (s', r) ->
  exists log,
    calls s' = calls s ++ log
    /\ firstRequest log = Some (messages s ++ [generationRequest cd code test]).
Proof. apply harnessFor_first_request. Qed.

Lemma HarnessRun_persisted cd s s' :
  HarnessRun env cd s s' (Ok tt) -> Persisted (artifactOf cd) s'.
Proof.
  intros H. remember (Ok tt) as r eqn:Hr.
  destruct H as [s e Hsrc | s code e Hsrc s1 Htest
                | s code test reason Hsrc s1 Htest s2 request Hask
                | s code test response reason Hsrc s1 Htest s2 request Hask s3 Hw
                | s code test response s' r Hsrc s1 Htest s2 request Hask s3 Hw Hrest];
    try discriminate.
  subst r. apply RepairRun_persisted in Hrest; [exact Hrest|].
  subst s1 s2 s3. unfold Persisted. open_states.
  eexists _, response. split; [reflexivity|]. apply lookup_insert_eq.
Qed.

(** X13: two contracts of one source file share their artifact, and the
    second is shown the harness of the first.  When a contract
    definition has been processed without error and the next one has
    the same source path, the generation prompt of the next one holds
    the source file as the first one read it and, as the content of the
    test file, the last reply accepted for the first one. *)
Theorem shared_source_shares_harness fuel first second s s1 s2 r :
  (forall log p, faultOracle env log (OpReadFile p) = None) ->
  SourcePath second = SourcePath first ->
  harnessFor env fuel first s = (s1, Ok tt) ->
  harnessFor env fuel second s1 = (s2, r) ->
  exists history response code log,
    messages s1 = history ++ [reply response]
    /\ files s !! SourcePath first = Some code
    /\ artifactOf second = artifactOf first
    /\ calls s2 = calls s1 ++ log
    /\ firstRequest log
       = Some (messages s1 ++ [generationRequest second code response]).
Proof.
  intros Hf Hsame Hfirst Hsecond.
  apply harnessFor_run in Hfirst.
  destruct (HarnessRun_persisted _ _ _ Hfirst) as (history & response & Hm & Hart).
  assert (Hcode : exists code, files s !! SourcePath first = Some code).
  { remember (Ok tt) as o eqn:Ho.
    destruct Hfirst; try discriminate; eexists; eapply readResult_ok; eassumption. }
  destruct Hcode as [code Hcode].
  assert (Hkept : files s1 !! SourcePath first = Some code).
  { rewrite <- Hcode. eapply HarnessRun_frame; [eassumption|].
    intros Heq. symmetry in Heq. by apply testFilePath_neq in Heq. }
  assert (Hartifact : artifactOf second = artifactOf first)
    by (unfold artifactOf; by rewrite Hsame).
  destruct (harnessFor_first_request fuel second s1 s2 r code response Hf)
    as (log & Hlog & Hreq); try assumption.
  - by rewrite Hsame.
  - by rewrite Hartifact.
  - exists history, response, code, log. by repeat split.
Qed.

(** ** The history the service is shown *)

Lemma conversation_skip history ev rest :
  isAsk ev = false ->
  conversation history (ev :: rest) = conversation history rest.
Proof. destruct ev; simpl; intros H; (reflexivity || discriminate). Qed.

Lemma conversation_ask history request res rest :
  Role request = "user" ->
  conversation history (EvAsk (history ++ [request]) res :: rest)
  = conversation
      (match res with
       | Ok response => (history ++ [request]) ++ [reply response]
       | _ => history ++ [request]
       end) rest.
Proof.
  intros Hrole. cbn [conversation]. rewrite last_snoc.
  rewrite bool_decide_eq_true_2 by reflexivity. rewrite Hrole. reflexivity.
Qed.

Lemma conversation_app history log1 log2 history1 :
  conversation history log1 = Some history1 ->
  conversation history (log1 ++ log2) = conversation history1 log2.
Proof.
  revert history. induction log1 as [|ev log1 IH]; intros history H.
  - simpl in H. injection H as <-. reflexivity.
  - destruct ev; try (simpl in *; by apply IH).
    simpl in *. destruct (last history0) as [request|]; [|discriminate].
    destruct (bool_decide _ && _); [|discriminate]. by apply IH.
Qed.

Ltac talk :=
  cbn [app];
  repeat first [ rewrite conversation_skip by reflexivity
               | rewrite conversation_ask by reflexivity ].

Lemma RepairRun_conversation cd testFilePath s s' r :
  RepairRun env cd testFilePath s s' r ->
  exists log, calls s' = calls s ++ log
    /\ conversation (messages s) log = Some (messages s').
Proof.
  induction 1 as [s stdErr Hrun | s stdErr failure reason Hrun s1 Hask
                 | s stdErr failure response reason Hrun s1 Hask s2 Hw
                 | s stdErr failure response s' r Hrun s1 Hask s2 Hw Hrest IH
                 | s ].
  - eexists. open_states. split; [reflexivity|]. talk. by rewrite <- ?app_assoc.
  - eexists. subst s1. open_states. rewrite <- app_assoc.
    split; [reflexivity|]. talk. by rewrite <- ?app_assoc.
  - eexists. subst s1 s2. open_states. rewrite <- !app_assoc.
    split; [reflexivity|]. talk. by rewrite <- ?app_assoc.
  - destruct IH as (log & Hlog & Htalk). subst s1 s2. open_states.
    rewrite <- !app_assoc in Hlog. simpl in Hlog.
    eexists. split; [exact Hlog|]. talk. exact Htalk.
  - exists []. split; [by rewrite app_nil_r | reflexivity].
Qed.

Lemma HarnessRun_conversation cd s s' r :
  HarnessRun env cd s s' r ->
  exists log, calls s' = calls s ++ log
    /\ conversation (messages s) log = Some (messages s').
Proof.
  destruct 1 as [s e Hsrc | s code e Hsrc s1 Htest
                | s code test reason Hsrc s1 Htest s2 request Hask
                | s code test response reason Hsrc s1 Htest s2 request Hask s3 Hw
                | s code test response s' r Hsrc s1 Htest s2 request Hask s3 Hw Hrest].
  - eexists. open_states. split; [reflexivity|]. talk. by rewrite <- ?app_assoc.
  - eexists. subst s1. open_states. rewrite <- app_assoc.
    split; [reflexivity|]. talk. by rewrite <- ?app_assoc.
  - eexists. subst s1 s2 request. open_states. rewrite <- !app_assoc.
    split; [reflexivity|]. talk. by rewrite <- ?app_assoc.
  - eexists. subst s1 s2 s3 request. open_states. rewrite <- !app_assoc.
    split; [reflexivity|]. talk. by rewrite <- ?app_assoc.
  - apply RepairRun_conversation in Hrest as (log & Hlog & Htalk).
    subst s1 s2 s3 request. open_states.
    rewrite <- !app_assoc in Hlog. simpl in Hlog.
    eexists. split; [exact Hlog|]. talk. exact Htalk.
Qed.

(** X14: the service is always shown the whole conversation.  The
    history a request of a run is made with is exactly the history the
    run started with, followed by every request made and every reply
    got since, in their order, and by the request of the user now being
    made; and the history the run leaves is the one its last request was
    made with, followed by its reply if it got one.  A request made with
    anything less, or anything else, is not in the log of a run. *)
Theorem requests_carry_whole_history fuel cds s s' r :
  generateFuzzingHarness env fuel cds s = (s', r) ->
  exists log, calls s' = calls s ++ log
    /\ conversation (messages s) log = Some (messages s').
Proof.
  revert s. induction cds as [|cd rest IH]; intros s H.
  - injection H as <- <-. exists []. split; [by rewrite app_nil_r | reflexivity].
  - rewrite generateFuzzingHarness_cons in H.
    destruct (harnessFor env fuel cd s) as [s1 o] eqn:Hcd.
    apply harnessFor_run in Hcd.
    apply HarnessRun_conversation in Hcd as (log1 & Hlog1 & Htalk1).
    destruct o as [[]|e|].
    + apply IH in H as (log2 & Hlog2 & Htalk2).
      exists (log1 ++ log2). split; [by rewrite Hlog2, Hlog1, app_assoc|].
      by rewrite (conversation_app _ _ _ _ Htalk1).
    + injection H as <- <-. by exists log1.
    + injection H as <- <-. by exists log1.
Qed.

(** ** The roles of the messages *)

Lemma dialogue_app user a b :
  dialogue user (a ++ b)
  = dialogue user a
    && dialogue (if Nat.even (length a) then user else negb user) b.
Proof.
  revert user. induction a as [|m a IH]; intros user; [reflexivity|].
  simpl dialogue at 1 2. rewrite IH, <- andb_assoc. f_equal. f_equal.
  change (length (m :: a)) with (S (length a)).
  rewrite Nat.even_succ, <- Nat.negb_even.
  destruct (Nat.even (length a)), user; reflexivity.
Qed.

Lemma RepairRun_dialogue cd testFilePath s s' r :
  RepairRun env cd testFilePath s s' r ->
  exists new, messages s' = messages s ++ new
    /\ dialogue true new = true
    /\ match r with
       | Err (ServiceError _) => Nat.even (length new) = false
       | _ => Nat.even (length new) = true
       end.
Proof.
  induction 1 as [s stdErr Hrun | s stdErr failure reason Hrun s1 Hask
                 | s stdErr failure response reason Hrun s1 Hask s2 Hw
                 | s stdErr failure response s' r Hrun s1 Hask s2 Hw Hrest IH
                 | s ].
  - exists []. open_states. by rewrite app_nil_r.
  - exists [repairRequest stdErr]. subst s1. open_states. by repeat split.
  - exists [repairRequest stdErr; reply response]. subst s1 s2. open_states.
    rewrite <- app_assoc. by repeat split.
  - destruct IH as (new & Hnew & Hd & Hpar). subst s1 s2. open_states.
    exists (repairRequest stdErr :: reply response :: new).
    rewrite <- !app_assoc in Hnew. simpl in Hnew.
    split; [exact Hnew|]. split; [exact Hd|]. exact Hpar.
  - exists []. by rewrite app_nil_r.
Qed.

Lemma HarnessRun_dialogue cd s s' r :
  HarnessRun env cd s s' r ->
  exists new, messages s' = messages s ++ new
    /\ dialogue true new = true
    /\ match r with
       | Err (ServiceError _) => Nat.even (length new) = false
       | _ => Nat.even (length new) = true
       end.
Proof.
  destruct 1 as [s e Hsrc | s code e Hsrc s1 Htest
                | s code test reason Hsrc s1 Htest s2 request Hask
                | s code test response reason Hsrc s1 Htest s2 request Hask s3 Hw
                | s code test response s' r Hsrc s1 Htest s2 request Hask s3 Hw Hrest].
  - exists []. open_states. rewrite app_nil_r. repeat split.
    unfold readResult in Hsrc. destruct (faultOracle env (calls s) _).
    + by injection Hsrc as <-.
    + destruct (files s !! _); [discriminate|]. by injection Hsrc as <-.
  - exists []. subst s1. open_states. rewrite app_nil_r. repeat split.
    unfold readResult in Htest. simpl in Htest.
    destruct (faultOracle env _ _).
    + by injection Htest as <-.
    + destruct (files s !! _); [discriminate|]. by injection Htest as <-.
  - exists [request]. subst s1 s2 request. open_states. by repeat split.
  - exists [request; reply response]. subst s1 s2 s3 request. open_states.
    rewrite <- app_assoc. by repeat split.
  - apply RepairRun_dialogue in Hrest as (new & Hnew & Hd & Hpar).
    subst s1 s2 s3. open_states.
    exists (request :: reply response :: new).
    rewrite <- !app_assoc in Hnew. simpl in Hnew.
    split; [exact Hnew|]. split; [exact Hd|]. exact Hpar.
Qed.

(** X15: the messages a run adds to the history are, in turn, a request
    under the role [user] and a reply under the role [system]: requests
    and replies alternate, the first is a request, and there are as many
    replies as requests unless the service refused the last request,
    which is then the last message. *)
Theorem added_messages_alternate fuel cds s s' r :
  generateFuzzingHarness env fuel cds s = (s', r) ->
  exists new, messages s' = messages s ++ new
    /\ dialogue true new = true
    /\ match r with
       | Err (ServiceError _) => Nat.even (length new) = false
       | _ => Nat.even (length new) = true
       end.
Proof.
  revert s. induction cds as [|cd rest IH]; intros s H.
  - injection H as <- <-. exists []. by rewrite app_nil_r.
  - rewrite generateFuzzingHarness_cons in H.
    destruct (harnessFor env fuel cd s) as [s1 o] eqn:Hcd.
    apply harnessFor_run, HarnessRun_dialogue in Hcd as (new1 & Hnew1 & Hd1 & Hpar1).
    destruct o as [[]|e|].
    + apply IH in H as (new2 & Hnew2 & Hd2 & Hpar2).
      exists (new1 ++ new2). split; [by rewrite Hnew2, Hnew1, app_assoc|].
      split.
      * by rewrite dialogue_app, Hd1, Hpar1, Hd2.
      * rewrite length_app, Nat.even_add, Hpar1.
        destruct r as [[]|[]|]; rewrite Hpar2; reflexivity.
    + injection H as <- <-. by exists new1.
    + injection H as <- <-. by exists new1.
Qed.

(** ** What is validated, and how often *)

Lemma RepairRun_validated cd s s' r :
  RepairRun env cd (artifactOf cd) s s' r ->
  forall data,
  exists log, calls s' = calls s ++ log
    /\ runsFollowWrites (artifactOf cd)
         (Some (EvWriteFile (artifactOf cd) data None)) log = true.
Proof.
  induction 1 as [s stdErr Hrun | s stdErr failure reason Hrun s1 Hask
                 | s stdErr failure response reason Hrun s1 Hask s2 Hw
                 | s stdErr failure response s' r Hrun s1 Hask s2 Hw Hrest IH
                 | s ]; intros data.
  - eexists. open_states. split; [reflexivity|]. simpl.
    by rewrite !bool_decide_eq_true_2.
  - eexists. subst s1. open_states. rewrite <- app_assoc.
    split; [reflexivity|]. simpl. by rewrite !bool_decide_eq_true_2.
  - eexists. subst s1 s2. open_states. rewrite <- !app_assoc.
    split; [reflexivity|]. simpl. by rewrite !bool_decide_eq_true_2.
  - destruct (IH response) as (log & Hlog & Hv). subst s1 s2. open_states.
    rewrite <- !app_assoc in Hlog. simpl in Hlog.
    eexists. split; [exact Hlog|]. simpl.
    rewrite !bool_decide_eq_true_2 by reflexivity. simpl. exact Hv.
  - exists []. split; [by rewrite app_nil_r | reflexivity].
Qed.

(** X16: the validator is only run on what has just been written.  Each
    run of crytic-compile made for a contract definition has the
    arguments validateTestFile gives it for the artifact, and the call
    just before it is a write to that artifact that succeeded. *)
Theorem validation_follows_write fuel cd s s' r :
  harnessFor env fuel cd s = (s', r) ->
  exists log, calls s' = calls s ++ log
    /\ runsFollowWrites (artifactOf cd) None log = true.
Proof.
  intros H. apply harnessFor_run in H.
  destruct H as [s e Hsrc | s code e Hsrc s1 Htest
                | s code test reason Hsrc s1 Htest s2 request Hask
                | s code test response reason Hsrc s1 Htest s2 request Hask s3 Hw
                | s code test response s' r Hsrc s1 Htest s2 request Hask s3 Hw Hrest].
  - eexists. open_states. split; reflexivity.
  - eexists. subst s1. open_states. rewrite <- app_assoc. split; reflexivity.
  - eexists. subst s1 s2. open_states. rewrite <- !app_assoc. split; reflexivity.
  - eexists. subst s1 s2 s3. open_states. rewrite <- !app_assoc. split; reflexivity.
  - destruct (RepairRun_validated _ _ _ _ Hrest response) as (log & Hlog & Hv).
    subst s1 s2 s3. open_states. rewrite <- !app_assoc in Hlog. simpl in Hlog.
    eexists. split; [exact Hlog|]. simpl. exact Hv.
Qed.

Lemma RepairRun_accounts cd testFilePath s s' r :
  RepairRun env cd testFilePath s s' r ->
  exists log, calls s' = calls s ++ log
    /\ countCalls isRun log <= S (countCalls isStored log)
    /\ countCalls isStored log <= countCalls isAsk log
    /\ match r with
       | Ok _ => countCalls isAsk log = countCalls isFailedRun log
                 /\ countCalls isStored log = countCalls isFailedRun log
                 /\ countCalls isRun log = S (countCalls isFailedRun log)
       | _ => True
       end.
Proof.
  induction 1 as [s stdErr Hrun | s stdErr failure reason Hrun s1 Hask
                 | s stdErr failure response reason Hrun s1 Hask s2 Hw
                 | s stdErr failure response s' r Hrun s1 Hask s2 Hw Hrest IH
                 | s ].
  - eexists. open_states. split; [reflexivity|]. simpl. repeat split; lia.
  - eexists. subst s1. open_states. rewrite <- app_assoc.
    split; [reflexivity|]. simpl. repeat split; lia.
  - eexists. subst s1 s2. open_states. rewrite <- !app_assoc.
    split; [reflexivity|]. simpl. repeat split; lia.
  - destruct IH as (log & Hlog & H1 & H2 & H3). subst s1 s2. open_states.
    rewrite <- !app_assoc in Hlog. simpl in Hlog.
    eexists. split; [exact Hlog|]. simpl.
    split; [lia|]. split; [lia|]. destruct r as [[]|e|]; [|exact I..].
    destruct H3 as (? & ? & ?). repeat split; lia.
  - exists []. split; [by rewrite app_nil_r|]. simpl. repeat split; lia.
Qed.

Lemma HarnessRun_accounts cd s s' r :
  HarnessRun env cd s s' r ->
  exists log, calls s' = calls s ++ log
    /\ countCalls isRun log <= countCalls isStored log
    /\ countCalls isStored log <= countCalls isAsk log
    /\ match r with
       | Ok _ => countCalls isAsk log = S (countCalls isFailedRun log)
                 /\ countCalls isStored log = S (countCalls isFailedRun log)
                 /\ countCalls isRun log = S (countCalls isFailedRun log)
       | _ => True
       end.
Proof.
  destruct 1 as [s e Hsrc | s code e Hsrc s1 Htest
                | s code test reason Hsrc s1 Htest s2 request Hask
                | s code test response reason Hsrc s1 Htest s2 request Hask s3 Hw
                | s code test response s' r Hsrc s1 Htest s2 request Hask s3 Hw Hrest].
  - eexists. open_states. split; [reflexivity|]. simpl. repeat split; lia.
  - eexists. subst s1. open_states. rewrite <- app_assoc.
    split; [reflexivity|]. simpl. repeat split; lia.
  - eexists. subst s1 s2. open_states. rewrite <- !app_assoc.
    split; [reflexivity|]. simpl. repeat split; lia.
  - eexists. subst s1 s2 s3. open_states. rewrite <- !app_assoc.
    split; [reflexivity|]. simpl. repeat split; lia.
  - apply RepairRun_accounts in Hrest as (log & Hlog & H1 & H2 & H3).
    subst s1 s2 s3. open_states. rewrite <- !app_assoc in Hlog. simpl in Hlog.
    eexists. split; [exact Hlog|]. simpl.
    split; [lia|]. split; [lia|]. destruct r as [[]|e|]; [|exact I..].
    destruct H3 as (? & ? & ?). repeat split; lia.
Qed.

(** X17: the cost of a run.  Whatever the outcome, a run has made no
    more validations than successful writes, and no more successful
    writes than requests to the service.  A run that returns no error
    has made as many requests as successful writes as validations: one
    for each contract definition and one more for each validation that
    failed. *)
Theorem run_accounts fuel cds s s' r :
  generateFuzzingHarness env fuel cds s = (s', r) ->
  exists log, calls s' = calls s ++ log
    /\ countCalls isRun log <= countCalls isStored log
    /\ countCalls isStored log <= countCalls isAsk log
    /\ match r with
       | Ok _ =>
           countCalls isAsk log = length cds + countCalls isFailedRun log
           /\ countCalls isStored log = length cds + countCalls isFailedRun log
           /\ countCalls isRun log = length cds + countCalls isFailedRun log
       | _ => True
       end.
Proof.
  revert s. induction cds as [|cd rest IH]; intros s H.
  - injection H as <- <-. exists []. split; [by rewrite app_nil_r|].
    simpl. repeat split; lia.
  - rewrite generateFuzzingHarness_cons in H.
    destruct (harnessFor env fuel cd s) as [s1 o] eqn:Hcd.
    apply harnessFor_run, HarnessRun_accounts in Hcd as (log1 & Hlog1 & A1 & B1 & C1).
    destruct o as [[]|e|].
    + apply IH in H as (log2 & Hlog2 & A2 & B2 & C2).
      exists (log1 ++ log2). split; [by rewrite Hlog2, Hlog1, app_assoc|].
      rewrite !countCalls_app. split; [lia|]. split; [lia|].
      destruct r as [[]|e|]; [|exact I..].
      destruct C1 as (? & ? & ?), C2 as (? & ? & ?). simpl length.
      repeat split; lia.
    + injection H as <- <-. exists log1. by repeat split.
    + injection H as <- <-. exists log1. by repeat split.
Qed.

(** ** A validator that never passes *)

Section NeverPasses.

Hypothesis answers : forall log history,
    exists response, askOracle env log history = inl response.
Hypothesis noFault : forall log op, faultOracle env log op = None.
Hypothesis neverPasses : forall log fs argv,
    is_Some (snd (runOracle env log fs argv)).

Lemma repairLoop_goes_on cd testFilePath fuel s :
  exists s',
    repairLoop env fuel cd testFilePath s = (s', OutOfFuel)
    /\ countCalls isAsk (calls s') = countCalls isAsk (calls s) + fuel
    /\ countCalls isRun (calls s') = countCalls isRun (calls s) + fuel
    /\ length (messages s') = length (messages s) + 2 * fuel.
Proof.
  revert s. induction fuel as [|fuel IH]; intros s.
  - exists s. simpl. repeat split; lia.
  - destruct (runOracle env (calls s) (files s) (validateArgv testFilePath))
      as [stdErr failure] eqn:Hrun.
    destruct failure as [failure|].
    2:{ specialize (neverPasses (calls s) (files s) (validateArgv testFilePath)).
        rewrite Hrun in neverPasses. by destruct neverPasses. }
    destruct (repairLoop_again env answers noFault fuel cd testFilePath s
                stdErr failure Hrun) as [response Hstep].
    set (s3 := afterWrite _ _ _) in Hstep.
    destruct (IH s3) as (s' & Hloop & Ha & Hr & Hm).
    exists s'. split; [by rewrite Hstep|].
    subst s3. open_states. rewrite !countCalls_app in Ha, Hr.
    rewrite !length_app in Hm. simpl in *. repeat split; lia.
Qed.

(** X19: the loop has no bound of its own.  With a validator that never
    passes, a service that answers and files that can be read and
    written, the processing of a contract definition does not return,
    however long it is followed: followed for [fuel] validations, it has
    by then made one request more than that, and put twice as many
    messages in the history. *)
Theorem never_passing_validator_never_returns fuel cd s :
  is_Some (files s !! SourcePath cd) ->
  is_Some (files s !! artifactOf cd) ->
  exists s',
    harnessFor env fuel cd s = (s', OutOfFuel)
    /\ countCalls isRun (calls s') = countCalls isRun (calls s) + fuel
    /\ countCalls isAsk (calls s') = countCalls isAsk (calls s) + S fuel
    /\ length (messages s') = length (messages s) + 2 * S fuel.
Proof.
  intros [code Hcode] [test Htest].
  rewrite harnessFor_unfold. cbv zeta.
  assert (Hsrc : readResult env s (SourcePath cd) = Ok code).
  { unfold readResult. by rewrite noFault, Hcode. }
  rewrite Hsrc.
  assert (Hart : readResult env (afterRead env (SourcePath cd) s)
                   (generateTestFilePath (SourcePath cd)) = Ok test).
  { unfold readResult. rewrite noFault. open_states.
    unfold artifactOf in Htest. by rewrite Htest. }
  rewrite Hart.
  set (s2 := afterRead env (generateTestFilePath (SourcePath cd))
               (afterRead env (SourcePath cd) s)).
  destruct (answers (calls s2) (messages s2 ++ [generationRequest cd code test]))
    as [response Hask].
  rewrite (processMessage_reply _ _ _ _ Hask).
  rewrite (osWriteFile_ok _ _ _ _ (noFault _ _)).
  set (s4 := afterWrite _ _ _).
  destruct (repairLoop_goes_on cd (generateTestFilePath (SourcePath cd)) fuel s4)
    as (s' & Hloop & Ha & Hr & Hm).
  exists s'. split; [exact Hloop|].
  subst s4 s2. open_states. rewrite !countCalls_app in Ha, Hr.
  rewrite !length_app in Hm. simpl in *. repeat split; lia.
Qed.

End NeverPasses.

(** ** A run in which nothing goes wrong *)

Section AllGoesWell.

Hypothesis answers : forall log history,
    exists response, askOracle env log history = inl response.
Hypothesis noFault : forall log op, faultOracle env log op = None.
Hypothesis passes : forall log fs argv, snd (runOracle env log fs argv) = None.

Lemma createTestFiles_succeeds cds s : snd (createTestFiles env cds s) = Ok tt.
Proof.
  revert s. induction cds as [|cd rest IH]; intros s; [reflexivity|].
  rewrite createTestFiles_cons. cbv zeta.
  destruct (statResult env s _); [apply IH| |apply IH].
  rewrite noFault. apply IH.
Qed.

Lemma generateFuzzingHarness_succeeds fuel cds s :
  (forall cd, cd ∈ cds -> is_Some (files s !! SourcePath cd)) ->
  (forall cd, cd ∈ cds -> is_Some (files s !! artifactOf cd)) ->
  exists s',
    generateFuzzingHarness env (S fuel) cds s = (s', Ok tt)
    /\ countCalls isAsk (calls s') = countCalls isAsk (calls s) + length cds
    /\ countCalls isRun (calls s') = countCalls isRun (calls s) + length cds
    /\ length (messages s') = length (messages s) + 2 * length cds.
Proof.
  revert s. induction cds as [|cd rest IH]; intros s Hsrc Hart.
  - exists s. simpl. repeat split; lia.
  - destruct (harnessFor_converges env answers noFault fuel cd s 0)
      as (s1 & code & test & response & cycles & Hrun & Hlen & Hm & Hr & Ha & _).
    + apply Hsrc, list_elem_of_here.
    + apply Hart, list_elem_of_here.
    + intros log fs argv Hlog. rewrite passes. split; [by intros [? ?] | lia].
    + destruct cycles; [|discriminate].
      pose proof (harnessFor_run _ _ _ _ _ _ Hrun) as Hrel.
      destruct (IH s1) as (s' & Hrest & Ha' & Hr' & Hm').
      * intros cd' Hin. eapply HarnessRun_keeps; [exact Hrel|].
        apply Hsrc. by apply elem_of_cons; right.
      * intros cd' Hin. eapply HarnessRun_keeps; [exact Hrel|].
        apply Hart. by apply elem_of_cons; right.
      * exists s'. rewrite generateFuzzingHarness_cons.
        change (1 + fuel) with (S fuel) in Hrun. rewrite Hrun.
        split; [exact Hrest|]. rewrite Hm, length_app in Hm'.
        simpl in *. repeat split; lia.
Qed.

(** X20: a run in which nothing goes wrong returns no error.  When the
    source file of every contract definition is there, the files can be
    read and written, the service answers and every validation passes,
    the run returns no error whatever the list, having made exactly one
    request and one validation for each contract definition and added
    two messages to the history for each; the artifacts need not be
    there before, the first pass creates them. *)
Theorem untroubled_run_completes fuel cds s :
  (forall cd, cd ∈ cds -> is_Some (files s !! SourcePath cd)) ->
  exists s',
    GenerateFuzzingHarness env (S fuel) cds s = (s', Ok tt)
    /\ countCalls isAsk (calls s') = countCalls isAsk (calls s) + length cds
    /\ countCalls isRun (calls s') = countCalls isRun (calls s) + length cds
    /\ length (messages s') = length (messages s) + 2 * length cds
    /\ forall cd, cd ∈ cds -> is_Some (files s' !! artifactOf cd).
Proof.
  intros Hsrc. rewrite GenerateFuzzingHarness_unfold.
  destruct (createTestFiles env cds s) as [s0 o] eqn:Hcreate.
  pose proof (createTestFiles_succeeds cds s) as Hok. rewrite Hcreate in Hok.
  simpl in Hok. subst o.
  pose proof (createTestFiles_spec _ _ _ _ _ Hcreate) as (Hm & _ & _ & Hkeep & Hall).
  pose proof (createTestFiles_quiet _ _ _ _ Hcreate) as (Ha & Hr & _).
  assert (Hthere : forall cd, cd ∈ cds -> is_Some (files s0 !! artifactOf cd)).
  { intros cd Hin. destruct (Hall cd Hin) as [Hsome|(log & reason & Hfault)].
    - exact Hsome.
    - rewrite noFault in Hfault. discriminate. }
  destruct (generateFuzzingHarness_succeeds fuel cds s0)
    as (s' & Hrun & Ha' & Hr' & Hm').
  - intros cd Hin. destruct (Hsrc cd Hin) as [data Hdata].
    rewrite (Hkeep _ _ Hdata). eauto.
  - exact Hthere.
  - exists s'. split; [exact Hrun|]. rewrite Hm in Hm'.
    split; [lia|]. split; [lia|]. split; [lia|].
    intros cd Hin.
    assert (Hgrow : forall cds' s1 s2 r path,
               generateFuzzingHarness env (S fuel) cds' s1 = (s2, r) ->
               is_Some (files s1 !! path) -> is_Some (files s2 !! path)).
    { clear. intros cds'. induction cds' as [|cd' rest IH]; intros s1 s2 r path H Hsome.
      - by injection H as <- <-.
      - rewrite generateFuzzingHarness_cons in H.
        destruct (harnessFor env (S fuel) cd' s1) as [s1' o] eqn:Hcd.
        apply harnessFor_run in Hcd.
        pose proof (HarnessRun_keeps _ _ _ _ _ _ Hcd Hsome) as Hsome'.
        destruct o as [[]|e|]; [by eapply IH | by injection H as <- <- ..]. }
    eapply Hgrow; [exact Hrun|]. by apply Hthere.
Qed.

End AllGoesWell.

End Extras.

(** * Concrete runs for the further properties *)

Lemma first_pass_ensures_all_witness :
  let env := Stub.unreachable "blocker" "not a directory" in
  let cds := [Stub.Foo; Stub.Qux] in
  let s := Scene.start (<["contracts/Bar_fuzz.sol" := "// kept"]> Stub.blockedDisk) in
  let s' := fst (createTestFiles env cds s) in
  (exists log,
     calls s' = calls s ++ log
     /\ forall cd, cd ∈ cds ->
          exists res,
            EvStat (artifactOf cd) res ∈ log
            /\ match res with
               | StatFailed reason =>
                   exists log0,
                     faultOracle env log0 (OpStat (artifactOf cd)) = Some reason
               | _ => is_Some (files s' !! artifactOf cd)
               end)
  /\ (forall path data, files s !! path = Some data -> files s' !! path = Some data)
  /\ (forall path,
        files s !! path = None ->
        files s' !! path = None
        \/ (files s' !! path = Some "" /\ exists cd, cd ∈ cds /\ path = artifactOf cd))
  /\ messages s' = messages s
  /\ countCalls isAsk (calls s') = countCalls isAsk (calls s)
  /\ countCalls isRun (calls s') = countCalls isRun (calls s).
Proof.
  cbv zeta. eapply first_pass_ensures_all. apply run_eq. vm_compute. reflexivity.
Defined.

Example first_pass_with_a_blocked_path :
  let run := createTestFiles (Stub.unreachable "blocker" "not a directory")
               [Stub.Foo; Stub.Qux] (Scene.start Stub.blockedDisk) in
  snd run = Ok tt
  /\ calls (fst run)
     = [EvStat "contracts/Foo_fuzz.sol" StatNotExist;
        EvCreate "contracts/Foo_fuzz.sol" None;
        EvStat "blocker/Qux_fuzz.sol" (StatFailed "not a directory")]
  /\ files (fst run) !! "contracts/Foo_fuzz.sol" = Some ""
  /\ files (fst run) !! "blocker/Qux_fuzz.sol" = None.
Proof. cbv zeta. repeat split; vm_compute; reflexivity. Qed.

Lemma first_pass_fails_fast_witness :
  let env := Scene.world (Scene.createOf "contracts/Bar_fuzz.sol") [] Stub.passed in
  let cds := [Stub.Foo; Stub.Bar; Stub.Baz] in
  let s := Scene.start Stub.disk in
  let s' := fst (createTestFiles env cds s) in
  let e := PathError "open" "contracts/Bar_fuzz.sol" "permission denied" in
  exists before cd after s0 reason,
    cds = before ++ cd :: after
    /\ createTestFiles env before s = (s0, Ok tt)
    /\ files s0 !! artifactOf cd = None
    /\ e = PathError "open" (artifactOf cd) reason
    /\ s' = logCall (EvCreate (artifactOf cd) (Some e))
              (logCall (EvStat (artifactOf cd) StatNotExist) s0).
Proof.
  cbv zeta. eapply first_pass_fails_fast. apply run_eq. vm_compute. reflexivity.
Defined.

Lemma first_pass_idempotent_witness :
  let env := Stub.world None [] in
  let env' := Scene.world (fun _ => true) [] Stub.passed in
  let cds := [Stub.Foo; Stub.Bar] in
  let s1 := fst (createTestFiles env cds (Scene.start Stub.disk)) in
  exists log,
    createTestFiles env' cds s1
    = ({| messages := messages s1; files := files s1; calls := calls s1 ++ log |},
       Ok tt)
    /\ Forall2 (fun cd ev => statKeeps (artifactOf cd) ev) cds log.
Proof.
  cbv zeta. eapply (first_pass_idempotent (Stub.world None [])).
  - apply run_eq. vm_compute. reflexivity.
  - intros log path. reflexivity.
Defined.

Example second_pass_in_a_world_that_refuses :
  let s1 := fst (createTestFiles (Stub.world None []) [Stub.Foo; Stub.Bar]
                   (Scene.start Stub.disk)) in
  let again := createTestFiles (Scene.world (fun _ => true) [] Stub.passed)
                 [Stub.Foo; Stub.Bar] s1 in
  let found := createTestFiles (Stub.world None []) [Stub.Foo; Stub.Bar] s1 in
  snd again = Ok tt
  /\ files (fst again) = files s1
  /\ drop 4 (calls (fst again))
     = [EvStat "contracts/Foo_fuzz.sol" (StatFailed "permission denied");
        EvStat "contracts/Bar_fuzz.sol" (StatFailed "permission denied")]
  /\ drop 4 (calls (fst found))
     = [EvStat "contracts/Foo_fuzz.sol" StatFound;
        EvStat "contracts/Bar_fuzz.sol" StatFound].
Proof. cbv zeta. repeat split; vm_compute; reflexivity. Qed.

Lemma unit_changes_only_its_artifact_witness :
  let env := Stub.world None [Stub.diagnostic] in
  let s := fst (createTestFiles env [Stub.Foo] (Scene.start Stub.disk)) in
  let s' := fst (harnessFor env 2 Stub.Foo s) in
  let r := snd (harnessFor env 2 Stub.Foo s) in
  (forall path, path <> artifactOf Stub.Foo -> files s' !! path = files s !! path)
  /\ files s' !! SourcePath Stub.Foo = files s !! SourcePath Stub.Foo
  /\ (r = Ok tt ->
      exists history response,
        messages s' = history ++ [reply response]
        /\ files s' = <[artifactOf Stub.Foo := response]> (files s))
  /\ (countCalls isWrite (calls s') = countCalls isWrite (calls s) ->
      files s' = files s).
Proof.
  cbv zeta. eapply unit_changes_only_its_artifact. apply surjective_pairing.
Defined.

Example repaired_unit_stores_last_reply :
  let env := Stub.world None [Stub.diagnostic] in
  let s := fst (createTestFiles env [Stub.Foo] (Scene.start Stub.disk)) in
  let run := harnessFor env 2 Stub.Foo s in
  snd run = Ok tt
  /\ last (messages (fst run)) = Some (reply (Stub.replyText 1))
  /\ files (fst run) = <["contracts/Foo_fuzz.sol" := Stub.replyText 1]> (files s)
  /\ countCalls isWrite (calls (fst run)) = 2.
Proof. cbv zeta. repeat split; vm_compute; reflexivity. Qed.

Lemma run_touches_only_artifacts_witness :
  let env := Stub.world None [Stub.diagnostic] in
  let s := Scene.start Stub.disk in
  let s' := fst (GenerateFuzzingHarness env 2 [Stub.Foo; Stub.Bar] s) in
  files s' !! "contracts/Baz.sol" = files s !! "contracts/Baz.sol".
Proof.
  cbv zeta. eapply run_touches_only_artifacts.
  - apply surjective_pairing.
  - intros cd Hin Heq.
    apply elem_of_cons in Hin as [->|Hin]; [vm_compute in Heq; discriminate|].
    apply elem_of_cons in Hin as [->|Hin]; [vm_compute in Heq; discriminate|].
    by apply elem_of_nil in Hin.
Defined.

Lemma unit_needs_both_files_witness :
  let env := Stub.world None [] in
  let s := Scene.start Stub.disk in
  exists s' e,
    harnessFor env 1 Stub.Foo s = (s', Err e)
    /\ isFatal e = true
    /\ messages s' = messages s
    /\ files s' = files s
    /\ countCalls isAsk (calls s') = countCalls isAsk (calls s).
Proof.
  cbv zeta. eapply unit_needs_both_files. right. vm_compute. reflexivity.
Defined.

Lemma unwritten_reply_is_in_history_witness :
  let env := Scene.world (Scene.writeOf "contracts/Foo_fuzz.sol") [] Stub.passed in
  let s := Scene.start (<["contracts/Foo_fuzz.sol" := ""]> Stub.disk) in
  let s' := fst (harnessFor env 1 Stub.Foo s) in
  let path := "contracts/Foo_fuzz.sol" in
  path = artifactOf Stub.Foo
  /\ exists history response,
      messages s' = history ++ [reply response]
      /\ messages s `prefix_of` history
      /\ last (calls s')
         = Some (EvWriteFile path response
                   (Some (PathError "write" path "permission denied"))).
Proof.
  cbv zeta. eapply unwritten_reply_is_in_history.
  apply run_eq. vm_compute. reflexivity.
Defined.

Lemma first_pass_failure_ends_run_witness :
  let env := Scene.world (Scene.createOf "contracts/Bar_fuzz.sol") [] Stub.passed in
  let cds := [Stub.Foo; Stub.Bar; Stub.Baz] in
  let s := Scene.start Stub.disk in
  let s0 := fst (createTestFiles env cds s) in
  let e := PathError "open" "contracts/Bar_fuzz.sol" "permission denied" in
  GenerateFuzzingHarness env 1 cds s = (s0, Err e)
  /\ messages s0 = messages s
  /\ countCalls isAsk (calls s0) = countCalls isAsk (calls s)
  /\ countCalls isRun (calls s0) = countCalls isRun (calls s).
Proof.
  cbv zeta. eapply first_pass_failure_ends_run. apply run_eq. vm_compute. reflexivity.
Defined.

Lemma generation_request_embeds_files_witness :
  let env := Stub.world None [] in
  let s := Scene.start (<["contracts/Foo_fuzz.sol" := "// draft"]> Stub.disk) in
  let s' := fst (harnessFor env 1 Stub.Foo s) in
  exists log,
    calls s' = calls s ++ log
    /\ firstRequest log
       = Some (messages s ++ [generationRequest Stub.Foo "contract Foo {}" "// draft"]).
Proof.
  cbv zeta.
  eapply (generation_request_embeds_files (Stub.world None []) 1 Stub.Foo).
  - intros log p. reflexivity.
  - vm_compute. reflexivity.
  - vm_compute. reflexivity.
  - apply surjective_pairing.
Defined.

Lemma shared_source_shares_harness_witness :
  let env := Stub.world None [] in
  let s := fst (createTestFiles env [Scene.Token; Scene.Sale] (Scene.start Scene.disk)) in
  let s1 := fst (harnessFor env 1 Scene.Token s) in
  let s2 := fst (harnessFor env 1 Scene.Sale s1) in
  exists history response code log,
    messages s1 = history ++ [reply response]
    /\ files s !! SourcePath Scene.Token = Some code
    /\ artifactOf Scene.Sale = artifactOf Scene.Token
    /\ calls s2 = calls s1 ++ log
    /\ firstRequest log
       = Some (messages s1 ++ [generationRequest Scene.Sale code response]).
Proof.
  cbv zeta.
  eapply (shared_source_shares_harness (Stub.world None []) 1 Scene.Token Scene.Sale).
  - intros log p. reflexivity.
  - reflexivity.
  - apply run_eq. vm_compute. reflexivity.
  - apply surjective_pairing.
Defined.

Example shared_harness_text :
  let env := Stub.world None [] in
  let run := GenerateFuzzingHarness env 1 [Scene.Token; Scene.Sale]
               (Scene.start Scene.disk) in
  snd run = Ok tt
  /\ messages (fst run) !! 2
     = Some (generationRequest Scene.Sale "contract Token {} contract Sale {}"
               (Stub.replyText 0))
  /\ files (fst run) !! "src/Token_fuzz.sol" = Some (Stub.replyText 1).
Proof. cbv zeta. repeat split; vm_compute; reflexivity. Qed.

Lemma requests_carry_whole_history_witness :
  let env := Stub.world (Some 2) [Stub.diagnostic] in
  let s := fst (createTestFiles env [Stub.Foo; Stub.Bar] (initialState Stub.disk)) in
  let s' := fst (generateFuzzingHarness env 2 [Stub.Foo; Stub.Bar] s) in
  exists log, calls s' = calls s ++ log
    /\ conversation (messages s) log = Some (messages s').
Proof.
  cbv zeta. eapply requests_carry_whole_history. apply surjective_pairing.
Defined.

(** A request made with a history that lacks the exchange before it is
    not one of a run. *)
Example stale_history_is_no_conversation :
  let first := repairRequest "first" in
  let second := repairRequest "second" in
  conversation [] [EvAsk [first] (Ok "one"); EvAsk [first; reply "one"; second] (Ok "two")]
  = Some [first; reply "one"; second; reply "two"]
  /\ conversation [] [EvAsk [first] (Ok "one"); EvAsk [first; second] (Ok "two")]
     = None
  /\ conversation [] [EvAsk [first] (Ok "one"); EvAsk [second] (Ok "two")] = None.
Proof. cbv zeta. repeat split; vm_compute; reflexivity. Qed.

Lemma added_messages_alternate_witness :
  let env := Stub.world (Some 2) [Stub.diagnostic] in
  let s := fst (createTestFiles env [Stub.Foo; Stub.Bar] (initialState Stub.disk)) in
  let run := generateFuzzingHarness env 2 [Stub.Foo; Stub.Bar] s in
  exists new, messages (fst run) = messages s ++ new
    /\ dialogue true new = true
    /\ match snd run with
       | Err (ServiceError _) => Nat.even (length new) = false
       | _ => Nat.even (length new) = true
       end.
Proof.
  cbv zeta. eapply added_messages_alternate. apply surjective_pairing.
Defined.

Lemma validation_follows_write_witness :
  let env := Stub.world None [Stub.diagnostic; Stub.diagnostic] in
  let s := fst (createTestFiles env [Stub.Foo] (Scene.start Stub.disk)) in
  let s' := fst (harnessFor env 3 Stub.Foo s) in
  exists log, calls s' = calls s ++ log
    /\ runsFollowWrites (artifactOf Stub.Foo) None log = true.
Proof.
  cbv zeta. eapply validation_follows_write. apply surjective_pairing.
Defined.

Lemma run_accounts_witness :
  let env := Stub.world None [Stub.diagnostic; Stub.passed; Stub.diagnostic] in
  let cds := [Stub.Foo; Stub.Bar] in
  let s := fst (createTestFiles env cds (Scene.start Stub.disk)) in
  let run := generateFuzzingHarness env 3 cds s in
  exists log, calls (fst run) = calls s ++ log
    /\ countCalls isRun log <= countCalls isStored log
    /\ countCalls isStored log <= countCalls isAsk log
    /\ match snd run with
       | Ok _ =>
           countCalls isAsk log = length cds + countCalls isFailedRun log
           /\ countCalls isStored log = length cds + countCalls isFailedRun log
           /\ countCalls isRun log = length cds + countCalls isFailedRun log
       | _ => True
       end.
Proof.
  cbv zeta. eapply run_accounts. apply surjective_pairing.
Defined.

Lemma never_passing_validator_never_returns_witness :
  let env := Scene.world Scene.nothing [] Stub.diagnostic in
  let s := Scene.start (<["contracts/Foo_fuzz.sol" := ""]> Stub.disk) in
  exists s',
    harnessFor env 4 Stub.Foo s = (s', OutOfFuel)
    /\ countCalls isRun (calls s') = countCalls isRun (calls s) + 4
    /\ countCalls isAsk (calls s') = countCalls isAsk (calls s) + 5
    /\ length (messages s') = length (messages s) + 2 * 5.
Proof.
  cbv zeta.
  apply (never_passing_validator_never_returns
           (Scene.world Scene.nothing [] Stub.diagnostic)).
  - intros log history. eexists. reflexivity.
  - intros log op. reflexivity.
  - intros log fs argv. simpl. eauto.
  - eexists. vm_compute. reflexivity.
  - eexists. vm_compute. reflexivity.
Defined.

Lemma untroubled_run_completes_witness :
  let env := Scene.world Scene.nothing [] Stub.passed in
  let cds := [Stub.Foo; Stub.Bar; Stub.Baz] in
  let s := initialState Stub.disk in
  exists s',
    GenerateFuzzingHarness env 1 cds s = (s', Ok tt)
    /\ countCalls isAsk (calls s') = countCalls isAsk (calls s) + length cds
    /\ countCalls isRun (calls s') = countCalls isRun (calls s) + length cds
    /\ length (messages s') = length (messages s) + 2 * length cds
    /\ forall cd, cd ∈ cds -> is_Some (files s' !! artifactOf cd).
Proof.
  cbv zeta.
  apply (untroubled_run_completes (Scene.world Scene.nothing [] Stub.passed)).
  - intros log history. eexists. reflexivity.
  - intros log op. reflexivity.
  - intros log fs argv. reflexivity.
  - intros cd Hin.
    apply elem_of_cons in Hin as [->|Hin]; [eexists; vm_compute; reflexivity|].
    apply elem_of_cons in Hin as [->|Hin]; [eexists; vm_compute; reflexivity|].
    apply elem_of_cons in Hin as [->|Hin]; [eexists; vm_compute; reflexivity|].
    by apply elem_of_nil in Hin.
Defined.
